(** * Recording lifecycle and trigger arbitration of the voice dictation tool

    A shallow embedding of the recording core of the application:

    - [modules/audio/audio_recorder.py]      ([AudioRecorder])
    - [modules/core/main_app.py]             ([App], the controller methods
                                              of [VoiceTypeProApp])
    - [modules/features/push_to_talk.py]     ([PushToTalk])
    - [modules/features/toggle_recording.py] ([ToggleRecording])
    - [modules/core/hotkey_manager.py]       ([HotkeyManager])
    - [modules/features/hey_soffy.py]        ([HeySoffy])
    - [app.py], the single-file version of the application: the toggle
      logic of its [HotkeyManager]           ([Monolith])

    Conventions of the embedding.

    - Samples, thresholds and wall-clock times are Python/NumPy floats in the
      source; here they are rationals ([Q]).  Comparisons of times are
      comparisons of the exact values.  The two voice tests compare a
      root-mean-square energy that NumPy computes in float32 arithmetic;
      their answers are the interface [Numpy], and nothing is assumed of
      them but that the energy is never below a threshold that is not
      positive.
    - Strings are strings of code points below 256.
    - Every method takes the object state and returns the new state together
      with its result and the list of external effects it performed (sounds,
      timers, worker threads, status updates), in program order.
    - Calls into the audio device and into the speech model can raise; the
      outcome of each such call is an explicit argument of the method that
      performs it.  Calls into the presentation layer and the sound manager
      are recorded as effects and return normally.
    - A method whose whole body is [with self._record_lock: ...] is one
      function of the state; [Threads] spells out the interleaving of
      several callers of [start_recording] around that lock.
    - Logging is not modelled. *)

From Stdlib Require Import ZArith QArith Qabs Lia Lqa Bool List Sorted Ascii String.
From stdpp Require Import base list gmap strings.
Import ListNotations.

Local Open Scope Z_scope.

(** ** Rational comparisons as booleans *)

Definition Qltb (a b : Q) : bool := negb (Qle_bool b a).

(** ** Python list slicing *)

Module Py.

(** [l[k:]] for an integer [k]: a negative [k] counts from the end, and
    both ends are clamped to the list. *)
Definition slice_from {A} (k : Z) (l : list A) : list A :=
  let n := Z.of_nat (length l) in
  let start := if k <? 0 then Z.max (n + k) 0 else Z.min k n in
  drop (Z.to_nat start) l.

(** [l[i:j]] for natural numbers [i], [j]. *)
Definition slice {A} (i j : nat) (l : list A) : list A :=
  take (j - i) (drop i l).

(** [int(x)] for a float [x]: truncation towards zero. *)
Definition int (x : Q) : Z := Z.quot (Qnum x) (Z.pos (Qden x)).

End Py.

(** The last [n] elements of a list (all of it when it is shorter). *)
Definition last_n {A} (n : nat) (l : list A) : list A :=
  drop (length l - n) l.

(** ** External effects *)

Inductive timer_target := TriggerAutoStop.

Inductive event :=
| PlaySound (name : string)
| StartTimer (delay : Q) (target : timer_target)
| UpdateStatus (message colour : string)
| UpdateRecordingIndicator (recording : bool)
| StartRecordingAnimation
| StopRecordingAnimation
| PopupStatus (message : string)
| SpawnTranscribe (audio : list Q)
| ResetStatusDelayed
| SpawnVoiceAssistantSession.

(** ** The configuration store, as the core reads it *)

Record Config := {
  voice_activation_threshold : Q;     (* audio.voice_activation_threshold *)
  hotkeys_push_to_talk : list string; (* hotkeys.push_to_talk *)
  hotkeys_toggle_recording : list string; (* hotkeys.toggle_recording *)
  audio_sample_rate : Z;              (* audio.sample_rate *)
  voice_assistant_wake_word : string  (* voice_assistant.wake_word *)
}.

(** ** Voice activity: root-mean-square energy against a threshold

    Both voice tests evaluate [np.sqrt(np.mean(audio_chunk**2))] on a
    float32 array and compare the result with the threshold.  The float32
    value, and with it the answer for a frame whose energy is within rounding
    of the threshold, is NumPy's.  The answers of the two comparisons are
    therefore taken from the interface below; the program is embedded over
    any implementation of it.  The root is a float32 that is zero, positive,
    infinite or NaN, and a comparison with NaN is false: the energy is never
    below a threshold that is zero or negative. *)

Class Numpy := {
  (** [np.sqrt(np.mean(chunk**2)) < threshold] *)
  rms_below : list Q -> Q -> bool;
  (** [np.sqrt(np.mean(chunk**2)) > threshold] *)
  rms_above : list Q -> Q -> bool;
  rms_below_positive :
    forall chunk threshold,
      rms_below chunk threshold = true -> (0 < threshold)%Q
}.

(** The two tests in exact arithmetic, for frames away from the rounding
    boundary. *)

Module Vad.

Definition sum_sq (chunk : list Q) : Q :=
  fold_right (fun x acc => (x * x + acc)%Q) 0%Q chunk.

(** [np.mean(chunk**2)] *)
Definition mean_sq (chunk : list Q) : Q :=
  (sum_sq chunk / inject_Z (Z.of_nat (length chunk)))%Q.

(** [np.sqrt(np.mean(chunk**2)) < threshold].  A square root is below a
    threshold exactly when the threshold is positive and the radicand is
    below its square.  The mean of an empty chunk is NaN, and every
    comparison with NaN is false. *)
Definition rms_lt (chunk : list Q) (threshold : Q) : bool :=
  match chunk with
  | [] => false
  | _ => Qltb 0 threshold && Qltb (mean_sq chunk) (threshold * threshold)
  end.

(** [np.sqrt(np.mean(chunk**2)) > threshold]: a negative threshold is
    below every root. *)
Definition rms_gt (chunk : list Q) (threshold : Q) : bool :=
  match chunk with
  | [] => false
  | _ => Qltb threshold 0 || Qltb (threshold * threshold) (mean_sq chunk)
  end.

(** The interface in exact arithmetic. *)
Definition exact : Numpy.
Proof.
  refine {| rms_below := rms_lt; rms_above := rms_gt |}.
  intros chunk threshold H. unfold rms_lt in H.
  destruct chunk; [discriminate |].
  apply andb_true_iff in H as [H _]. unfold Qltb in H.
  apply negb_true_iff in H.
  destruct (Qlt_le_dec 0 threshold) as [L | L]; [exact L |].
  apply Qle_bool_iff in L. congruence.
Defined.

End Vad.

(** ** [AudioRecorder] *)

Module AudioRecorder.

Definition frame := list Q.

Record t := {
  is_recording : bool;
  stream : bool;                (* [self.stream] holds a stream object *)
  audio_data : list frame;
  silence_start : option Q;
  silence_timeout : Q;
  auto_stop_callback : bool;    (* a callback is registered *)
  auto_stop_enabled : bool
}.

Definition set_is_recording (v : bool) (s : t) : t :=
  {| is_recording := v; stream := stream s; audio_data := audio_data s;
     silence_start := silence_start s; silence_timeout := silence_timeout s;
     auto_stop_callback := auto_stop_callback s;
     auto_stop_enabled := auto_stop_enabled s |}.

Definition set_stream (v : bool) (s : t) : t :=
  {| is_recording := is_recording s; stream := v; audio_data := audio_data s;
     silence_start := silence_start s; silence_timeout := silence_timeout s;
     auto_stop_callback := auto_stop_callback s;
     auto_stop_enabled := auto_stop_enabled s |}.

Definition set_audio_data (v : list frame) (s : t) : t :=
  {| is_recording := is_recording s; stream := stream s; audio_data := v;
     silence_start := silence_start s; silence_timeout := silence_timeout s;
     auto_stop_callback := auto_stop_callback s;
     auto_stop_enabled := auto_stop_enabled s |}.

Definition set_silence_start (v : option Q) (s : t) : t :=
  {| is_recording := is_recording s; stream := stream s;
     audio_data := audio_data s;
     silence_start := v; silence_timeout := silence_timeout s;
     auto_stop_callback := auto_stop_callback s;
     auto_stop_enabled := auto_stop_enabled s |}.

Definition set_auto_stop_callback (v : bool) (s : t) : t :=
  {| is_recording := is_recording s; stream := stream s;
     audio_data := audio_data s;
     silence_start := silence_start s; silence_timeout := silence_timeout s;
     auto_stop_callback := v;
     auto_stop_enabled := auto_stop_enabled s |}.

Definition set_auto_stop_enabled (v : bool) (s : t) : t :=
  {| is_recording := is_recording s; stream := stream s;
     audio_data := audio_data s;
     silence_start := silence_start s; silence_timeout := silence_timeout s;
     auto_stop_callback := auto_stop_callback s;
     auto_stop_enabled := v |}.

(** [__init__], with [audio.silence_timeout] read from the configuration. *)
Definition init (timeout : Q) : t :=
  {| is_recording := false; stream := false; audio_data := [];
     silence_start := None; silence_timeout := timeout;
     auto_stop_callback := false; auto_stop_enabled := false |}.

(** What [self.audio.open(...)] followed by [self.stream.start_stream()]
    does. *)
Inductive open_outcome := OpenOk | OpenRaises | StartStreamRaises.

(** What [self.stream.stop_stream()] followed by [self.stream.close()]
    does. *)
Inductive close_outcome := CloseOk | StopStreamRaises | CloseRaises.

Inductive callback_flag := paContinue | paComplete.

(** The assignments at the head of the [try] block of [start_recording]. *)
Definition begin_session (auto_stop : bool) (s : t) : t :=
  set_silence_start None
    (set_audio_data []
       (set_auto_stop_enabled auto_stop (set_is_recording true s))).

(** The device part of [start_recording] and its [except] handler. *)
Definition open_device (dev : open_outcome) (s : t) : bool * t * list event :=
  match dev with
  | OpenOk => (true, set_stream true s, [PlaySound "start"])
  | OpenRaises => (false, set_is_recording false s, [])
  | StartStreamRaises => (false, set_is_recording false (set_stream true s), [])
  end.

(** [start_recording]: the whole body runs under [self._record_lock]. *)
Definition start_recording (dev : open_outcome) (auto_stop : bool) (s : t)
  : bool * t * list event :=
  if is_recording s then (false, s, [])
  else open_device dev (begin_session auto_stop s).

(** [stop_recording]: the whole body runs under [self._record_lock]. *)
Definition stop_recording (dev : close_outcome) (s : t)
  : option (list Q) * t * list event :=
  if negb (is_recording s) then (None, s, [])
  else
    let s1 := set_auto_stop_enabled false (set_is_recording false s) in
    let finish (s2 : t) :=
      match audio_data s2 with
      | [] => (None, s2, [PlaySound "stop"])
      | _ :: _ => (Some (concat (audio_data s2)), s2, [PlaySound "stop"])
      end in
    if stream s1 then
      match dev with
      | CloseOk => finish (set_stream false s1)
      | StopStreamRaises | CloseRaises => (None, s1, [])
      end
    else finish s1.

(** [_audio_callback], with [in_data] already decoded into a frame and
    [now] the value of [time.time()] read by the callback. *)
Definition _audio_callback `{Numpy} (cfg : Config) (chunk : frame) (now : Q)
    (s : t)
  : callback_flag * t * list event :=
  if negb (is_recording s) then (paComplete, s, [])
  else
    let s1 := set_audio_data (audio_data s ++ [chunk]) s in
    if auto_stop_enabled s1 && auto_stop_callback s1 then
      if rms_below chunk (voice_activation_threshold cfg) then
        match silence_start s1 with
        | None => (paContinue, set_silence_start (Some now) s1, [])
        | Some t0 =>
            if Qltb (silence_timeout s1) (now - t0) then
              (paComplete, s1, [StartTimer (1 # 100) TriggerAutoStop])
            else (paContinue, s1, [])
        end
      else (paContinue, set_silence_start None s1, [])
    else (paContinue, s1, []).

(** The audio library's side of the callback contract: frames are
    delivered in order for as long as the callback answers [paContinue];
    after [paComplete] the callback is not invoked again. *)
Fixpoint run_stream `{Numpy} (cfg : Config) (inputs : list (frame * Q)) (s : t)
  : t * list event :=
  match inputs with
  | [] => (s, [])
  | (chunk, now) :: rest =>
      match _audio_callback cfg chunk now s with
      | (paContinue, s', ev) =>
          let '(s'', ev') := run_stream cfg rest s' in (s'', ev ++ ev')
      | (paComplete, s', ev) => (s', ev)
      end
  end.

(** A session in progress with auto-stop armed. *)
Definition armed (s : t) : Prop :=
  is_recording s = true /\ auto_stop_enabled s = true
  /\ auto_stop_callback s = true.

(** The callback's test for a silent frame. *)
Definition silent `{Numpy} (cfg : Config) (chunk : frame) : Prop :=
  rms_below chunk (voice_activation_threshold cfg) = true.

(** A run of [start_recording] requests, each with its own argument and
    device outcome; the result lists the return values in order. *)
Fixpoint start_many (reqs : list (open_outcome * bool)) (s : t)
  : list bool * t :=
  match reqs with
  | [] => ([], s)
  | (dev, auto_stop) :: rest =>
      let '(r, s', _) := start_recording dev auto_stop s in
      let '(rs, s'') := start_many rest s' in
      (r :: rs, s'')
  end.

End AudioRecorder.

(** ** Python string methods, on strings of code points below 256 *)

Module PyStr.

(** [c.isspace()] *)
Definition is_space (c : ascii) : bool :=
  let n := nat_of_ascii c in
  ((9 <=? n) && (n <=? 13) || (28 <=? n) && (n <=? 32)
   || (n =? 133) || (n =? 160))%nat.

(** [c.lower()] *)
Definition lower_char (c : ascii) : ascii :=
  let n := nat_of_ascii c in
  if ((65 <=? n) && (n <=? 90)
      || (192 <=? n) && (n <=? 222) && negb (n =? 215))%nat
  then ascii_of_nat (n + 32) else c.

Fixpoint lower (s : string) : string :=
  match s with
  | EmptyString => EmptyString
  | String c rest => String (lower_char c) (lower rest)
  end.

Fixpoint lstrip (s : list ascii) : list ascii :=
  match s with
  | c :: rest => if is_space c then lstrip rest else s
  | [] => []
  end.

(** [s.strip()] *)
Definition strip (s : string) : string :=
  string_of_list_ascii
    (rev (lstrip (rev (lstrip (list_ascii_of_string s))))).

(** The scan behind [s.split()]: [word] is the current word, reversed. *)
Fixpoint split_go (word : list ascii) (s : list ascii) : list (list ascii) :=
  match s with
  | [] => match word with [] => [] | _ :: _ => [rev word] end
  | c :: rest =>
      if is_space c then
        match word with
        | [] => split_go [] rest
        | _ :: _ => rev word :: split_go [] rest
        end
      else split_go (c :: word) rest
  end.

(** [s.split()]: the maximal runs of non-whitespace characters. *)
Definition split (s : string) : list string :=
  map string_of_list_ascii (split_go [] (list_ascii_of_string s)).

End PyStr.

(** ** [VoiceTypeProApp]: the controller *)

Module App.

Record t := {
  audio_recorder : AudioRecorder.t;
  is_recording : bool;
  is_toggle_mode : bool;
  background_mode : bool
}.

Definition set_audio_recorder (v : AudioRecorder.t) (a : t) : t :=
  {| audio_recorder := v; is_recording := is_recording a;
     is_toggle_mode := is_toggle_mode a;
     background_mode := background_mode a |}.

Definition set_is_recording (v : bool) (a : t) : t :=
  {| audio_recorder := audio_recorder a; is_recording := v;
     is_toggle_mode := is_toggle_mode a;
     background_mode := background_mode a |}.

Definition set_is_toggle_mode (v : bool) (a : t) : t :=
  {| audio_recorder := audio_recorder a; is_recording := is_recording a;
     is_toggle_mode := v;
     background_mode := background_mode a |}.

(** The part of [__init__] that concerns the recording state. *)
Definition init (timeout : Q) : t :=
  {| audio_recorder :=
       AudioRecorder.set_auto_stop_callback true (AudioRecorder.init timeout);
     is_recording := false; is_toggle_mode := false;
     background_mode := false |}.

(** The outcomes of the device calls made while one handler runs. *)
Record Device := {
  on_open : AudioRecorder.open_outcome;
  on_close : AudioRecorder.close_outcome
}.

(** Effects performed only [if self.background_mode]. *)
Definition in_background (a : t) (ev : list event) : list event :=
  if background_mode a then ev else [].

(** The length below which a stopped recording is not transcribed:
    [len(audio_data) > 1000]. *)
Definition minimum_audio_length : nat := 1000.

Definition start_recording (dev : Device) (auto_stop : bool) (a : t)
  : t * list event :=
  let '(success, r, ev) :=
    AudioRecorder.start_recording (on_open dev) auto_stop (audio_recorder a) in
  let a := set_audio_recorder r a in
  if success then
    let a := set_is_recording true a in
    (a, ev ++ [UpdateStatus "Recording..." "green";
               UpdateRecordingIndicator true]
           ++ in_background a [StartRecordingAnimation])
  else (a, ev ++ [UpdateStatus "Failed to start recording" "red"]).

Definition stop_recording_and_transcribe (dev : Device) (a : t)
  : t * list event :=
  let '(audio, r, ev) :=
    AudioRecorder.stop_recording (on_close dev) (audio_recorder a) in
  let a := set_audio_recorder r a in
  let a := set_is_recording false a in
  let a := set_is_toggle_mode false a in
  let ev := ev ++ [UpdateStatus "Processing..." "yellow";
                   UpdateRecordingIndicator false]
               ++ in_background a [StopRecordingAnimation] in
  let no_audio :=
    (a, ev ++ [UpdateStatus "No audio captured" "orange"]
           ++ in_background a [PopupStatus "No audio"]
           ++ [ResetStatusDelayed]) in
  match audio with
  | Some samples =>
      if (minimum_audio_length <? length samples)%nat
      then (a, ev ++ [SpawnTranscribe samples])
      else no_audio
  | None => no_audio
  end.

Definition toggle_recording (dev : Device) (a : t) : t * list event :=
  let a := set_is_toggle_mode true a in
  if is_recording a then stop_recording_and_transcribe dev a
  else start_recording dev false a.

Definition on_push_to_talk_start (dev : Device) (a : t) : t * list event :=
  if negb (is_recording a) then start_recording dev false a else (a, []).

Definition on_push_to_talk_end (dev : Device) (a : t) : t * list event :=
  if is_recording a && negb (is_toggle_mode a)
  then stop_recording_and_transcribe dev a
  else (a, []).

Definition on_toggle_recording (dev : Device) (a : t) : t * list event :=
  toggle_recording dev a.

Definition on_voice_assistant_activated (a : t) : t * list event :=
  if negb (is_recording a) then (a, [SpawnVoiceAssistantSession])
  else (a, []).

Definition _on_auto_stop_triggered (dev : Device) (a : t) : t * list event :=
  if is_recording a then stop_recording_and_transcribe dev a else (a, []).

End App.

(** ** Key sets *)

Definition normalize_key (k : string) : string := PyStr.strip (PyStr.lower k).

(** [set([k.lower().strip() for k in keys])] for a configured list. *)
Definition normalized_list (keys : list string) : gset string :=
  list_to_set (normalize_key <$> keys).

(** [set([k.lower().strip() for k in pressed_keys])] for a set. *)
Definition normalized_set (keys : gset string) : gset string :=
  set_map normalize_key keys.

(** [keys and keys.issubset(current)] *)
Definition chord_held (keys current : gset string) : bool :=
  negb (bool_decide (keys = ∅)) && bool_decide (keys ⊆ current).

(** ** [PushToTalkHandler] *)

Module PushToTalk.

Record t := { is_active : bool; enabled : bool }.

Definition init : t := {| is_active := false; enabled := true |}.

Definition set_is_active (v : bool) (h : t) : t :=
  {| is_active := v; enabled := enabled h |}.

Definition check_activation (cfg : Config) (dev : App.Device)
    (pressed_keys : gset string) (h : t) (a : App.t)
  : bool * t * App.t * list event :=
  if negb (enabled h) then (false, h, a, [])
  else
    let ptt_keys := normalized_list (hotkeys_push_to_talk cfg) in
    let current_keys_normalized := normalized_set pressed_keys in
    let should_activate := chord_held ptt_keys current_keys_normalized in
    if should_activate && negb (is_active h) then
      let '(a', ev) := App.on_push_to_talk_start dev a in
      (true, set_is_active true h, a', ev)
    else if negb should_activate && is_active h then
      let '(a', ev) := App.on_push_to_talk_end dev a in
      (true, set_is_active false h, a', ev)
    else (false, h, a, []).

End PushToTalk.

(** ** [ToggleRecordingHandler] *)

Module ToggleRecording.

Record t := { last_toggle_time : Q; enabled : bool; debounce_delay : Q }.

Definition init : t :=
  {| last_toggle_time := 0; enabled := true; debounce_delay := 1 # 2 |}.

Definition set_last_toggle_time (v : Q) (h : t) : t :=
  {| last_toggle_time := v; enabled := enabled h;
     debounce_delay := debounce_delay h |}.

(** [check_activation], with [now] the value of [time.time()]. *)
Definition check_activation (cfg : Config) (dev : App.Device) (now : Q)
    (pressed_keys : gset string) (h : t) (a : App.t)
  : bool * t * App.t * list event :=
  if negb (enabled h) then (false, h, a, [])
  else
    let toggle_keys := normalized_list (hotkeys_toggle_recording cfg) in
    let current_keys_normalized := normalized_set pressed_keys in
    let current_time := now in
    if chord_held toggle_keys current_keys_normalized
       && Qltb (debounce_delay h) (current_time - last_toggle_time h)
    then
      let h := set_last_toggle_time current_time h in
      let '(a', ev) := App.on_toggle_recording dev a in
      (true, h, a', ev)
    else (false, h, a, []).

End ToggleRecording.

(** ** [HotkeyManager] *)

Module HotkeyManager.

Record t := {
  current_keys : gset string;
  enabled : bool;
  push_to_talk : PushToTalk.t;
  toggle_recording : ToggleRecording.t
}.

Definition init : t :=
  {| current_keys := ∅; enabled := true;
     push_to_talk := PushToTalk.init;
     toggle_recording := ToggleRecording.init |}.

(** A keyboard event as the listener delivers it: the name computed by
    [_get_key_name] ([None] when it has none), the time, and the outcomes
    of the device calls the handlers may make. *)
Record key_event := {
  key_name : option string;
  at_time : Q;
  device : App.Device
}.

Definition _on_key_press (cfg : Config) (e : key_event) (m : t) (a : App.t)
  : t * App.t * list event :=
  if negb (enabled m) then (m, a, [])
  else
    match key_name e with
    | Some k =>
        if bool_decide (k = EmptyString) then (m, a, [])
        else
          let keys := {[ k ]} ∪ current_keys m in
          let '(_, p, a1, ev1) :=
            PushToTalk.check_activation cfg (device e) keys
              (push_to_talk m) a in
          let '(_, g, a2, ev2) :=
            ToggleRecording.check_activation cfg (device e) (at_time e) keys
              (toggle_recording m) a1 in
          ({| current_keys := keys; enabled := enabled m;
              push_to_talk := p; toggle_recording := g |},
           a2, ev1 ++ ev2)
    | None => (m, a, [])
    end.

Definition _on_key_release (cfg : Config) (e : key_event) (m : t) (a : App.t)
  : t * App.t * list event :=
  if negb (enabled m) then (m, a, [])
  else
    match key_name e with
    | Some k =>
        if bool_decide (k = EmptyString) then (m, a, [])
        else
          let keys := current_keys m ∖ {[ k ]} in
          let '(_, p, a1, ev1) :=
            PushToTalk.check_activation cfg (device e) keys
              (push_to_talk m) a in
          ({| current_keys := keys; enabled := enabled m;
              push_to_talk := p; toggle_recording := toggle_recording m |},
           a1, ev1)
    | None => (m, a, [])
    end.

Inductive key_action := Press (e : key_event) | Release (e : key_event).

(** The listener thread: events are handled one at a time, in order. *)
Fixpoint run (cfg : Config) (actions : list key_action) (m : t) (a : App.t)
  : t * App.t * list event :=
  match actions with
  | [] => (m, a, [])
  | act :: rest =>
      let '(m1, a1, ev1) :=
        match act with
        | Press e => _on_key_press cfg e m a
        | Release e => _on_key_release cfg e m a
        end in
      let '(m2, a2, ev2) := run cfg rest m1 a1 in
      (m2, a2, ev1 ++ ev2)
  end.

End HotkeyManager.

(** ** The toggle logic of [HotkeyManager] in [app.py]

    The single-file version handles the toggle chord inside
    [_on_key_press] and [_on_key_release]; only that part is embedded, the
    result of a press telling whether [on_toggle_recording] was called. *)

Module Monolith.

Record t := {
  current_keys : gset string;
  toggle_mode_active : bool;
  last_toggle_time : Q
}.

Definition init : t :=
  {| current_keys := ∅; toggle_mode_active := false; last_toggle_time := 0 |}.

(** [key_name] is what [_get_key_name] returned; the empty string stands
    for [None] as well, [if key_name:] failing on both. *)
Definition _on_key_press (cfg : Config) (key_name : string) (now : Q) (m : t)
  : bool * t :=
  if bool_decide (key_name = EmptyString) then (false, m)
  else
    let keys := {[ key_name ]} ∪ current_keys m in
    let current_keys_normalized := normalized_set keys in
    let toggle_keys := normalized_list (hotkeys_toggle_recording cfg) in
    let current_time := now in
    if chord_held toggle_keys current_keys_normalized
       && negb (toggle_mode_active m)
       && Qltb (1 # 2) (current_time - last_toggle_time m)
    then (true, {| current_keys := keys; toggle_mode_active := true;
                   last_toggle_time := current_time |})
    else (false, {| current_keys := keys;
                    toggle_mode_active := toggle_mode_active m;
                    last_toggle_time := last_toggle_time m |}).

Definition _on_key_release (cfg : Config) (key_name : string) (m : t) : t :=
  if bool_decide (key_name = EmptyString) then m
  else
    let keys := current_keys m ∖ {[ key_name ]} in
    let current_keys_normalized := normalized_set keys in
    let toggle_keys := normalized_list (hotkeys_toggle_recording cfg) in
    {| current_keys := keys;
       toggle_mode_active :=
         if negb (bool_decide (toggle_keys ⊆ current_keys_normalized))
         then false else toggle_mode_active m;
       last_toggle_time := last_toggle_time m |}.

(** A run of key presses with no release in between; the result counts the
    calls of [on_toggle_recording]. *)
Fixpoint presses (cfg : Config) (keys : list (string * Q)) (m : t) : nat * t :=
  match keys with
  | [] => (0%nat, m)
  | (k, now) :: rest =>
      let '(fired, m1) := _on_key_press cfg k now m in
      let '(n, m2) := presses cfg rest m1 in
      ((if fired then 1 else 0) + n, m2)%nat
  end.

End Monolith.

(** ** [HeySoffyHandler] *)

Module HeySoffy.

Record t := {
  wake_word : string;
  buffer_duration : Q;
  sample_rate : Z;
  audio_buffer : list Q;
  last_detection_time : Q;
  cooldown_period : Q
}.

Definition set_audio_buffer (v : list Q) (h : t) : t :=
  {| wake_word := wake_word h; buffer_duration := buffer_duration h;
     sample_rate := sample_rate h; audio_buffer := v;
     last_detection_time := last_detection_time h;
     cooldown_period := cooldown_period h |}.

Definition set_last_detection_time (v : Q) (h : t) : t :=
  {| wake_word := wake_word h; buffer_duration := buffer_duration h;
     sample_rate := sample_rate h; audio_buffer := audio_buffer h;
     last_detection_time := v;
     cooldown_period := cooldown_period h |}.

Definition init (cfg : Config) : t :=
  {| wake_word := PyStr.lower (voice_assistant_wake_word cfg);
     buffer_duration := 3;
     sample_rate := audio_sample_rate cfg;
     audio_buffer := [];
     last_detection_time := 0;
     cooldown_period := 3 |}.

(** [int(self.buffer_duration * self.sample_rate)] *)
Definition max_samples (h : t) : Z :=
  Py.int (buffer_duration h * inject_Z (sample_rate h)).

(** The block of [_listen_worker] that runs under [self.buffer_lock]. *)
Definition extend_buffer (chunk : list Q) (h : t) : t :=
  let buffer := audio_buffer h ++ chunk in
  if max_samples h <? Z.of_nat (length buffer)
  then set_audio_buffer (Py.slice_from (- max_samples h) buffer) h
  else set_audio_buffer buffer h.

Definition _detect_voice_activity `{Numpy} (cfg : Config) (chunk : list Q)
  : bool :=
  rms_above chunk (voice_activation_threshold cfg).

(** [np.max(np.abs(audio))]; it raises on an empty array. *)
Definition max_abs (audio : list Q) : option Q :=
  match audio with
  | [] => None
  | x :: rest =>
      Some (fold_left (fun m y => if Qltb m (Qabs y) then Qabs y else m)
              rest (Qabs x))
  end.

(** The loop over the candidate positions of the wake phrase. *)
Definition phrase_in (wake_words text_words : list string) : bool :=
  existsb
    (fun i => bool_decide
                (Py.slice i (i + length wake_words) text_words = wake_words))
    (seq 0 (Z.to_nat (Z.of_nat (length text_words)
                      - Z.of_nat (length wake_words) + 1))).

(** The audio handed to the speech model: the trailing two and a half
    seconds of the buffer, scaled to peak amplitude one.  [None] when
    [np.max] raises. *)
Definition trailing_audio (h : t) : option (list Q) :=
  let audio_data :=
    Py.slice_from (- Py.int (inject_Z (sample_rate h) * (5 # 2)))
      (audio_buffer h) in
  match max_abs audio_data with
  | None => None
  | Some peak =>
      Some (if Qltb 0 peak then map (fun x => (x / peak)%Q) audio_data
            else audio_data)
  end.

(** [_check_for_wake_word].  [transcribe] is the speech model in its quick
    mode; it answers [None] when the call (or reading its result) raises,
    and every exception makes the check answer [False]. *)
Definition _check_for_wake_word (transcribe : list Q -> option string)
    (h : t) : bool :=
  if Z.of_nat (length (audio_buffer h)) <? sample_rate h then false
  else
    match trailing_audio h with
    | None => false
    | Some audio_data =>
        match transcribe audio_data with
        | None => false
        | Some result_text =>
            let text := PyStr.strip (PyStr.lower result_text) in
            let wake_words := PyStr.split (wake_word h) in
            let text_words := PyStr.split text in
            phrase_in wake_words text_words
        end
    end.

Definition _on_wake_word_detected (a : App.t) : list event :=
  PlaySound "wake_word" :: snd (App.on_voice_assistant_activated a).

(** What one pass of the [while] loop of [_listen_worker] meets: the chunk
    read from the stream ([None] when the read raises), the time, and the
    controller as it is at that moment. *)
Record pass := {
  read : option (list Q);
  now : Q;
  app : App.t
}.

(** One pass of the loop body. *)
Definition listen_pass `{Numpy} (cfg : Config)
    (transcribe : list Q -> option string) (p : pass) (h : t)
  : t * list event :=
  match read p with
  | None => (h, [])
  | Some audio_chunk =>
      let h := extend_buffer audio_chunk h in
      if _detect_voice_activity cfg audio_chunk then
        let current_time := now p in
        if Qltb (cooldown_period h) (current_time - last_detection_time h)
        then
          if _check_for_wake_word transcribe h then
            (set_last_detection_time current_time h,
             _on_wake_word_detected (app p))
          else (h, [])
        else (h, [])
      else (h, [])
  end.

Fixpoint _listen_worker `{Numpy} (cfg : Config)
    (transcribe : list Q -> option string) (passes : list pass) (h : t)
  : t * list event :=
  match passes with
  | [] => (h, [])
  | p :: rest =>
      let '(h1, ev1) := listen_pass cfg transcribe p h in
      let '(h2, ev2) := _listen_worker cfg transcribe rest h1 in
      (h2, ev1 ++ ev2)
  end.

End HeySoffy.

(** ** Counting effects *)

Definition is_auto_stop_timer (e : event) : bool :=
  match e with StartTimer _ TriggerAutoStop => true | _ => false end.

Definition is_wake_sound (e : event) : bool :=
  match e with
  | PlaySound name => bool_decide (name = "wake_word"%string)
  | _ => false
  end.

Definition is_processing_status (e : event) : bool :=
  match e with
  | UpdateStatus message _ => bool_decide (message = "Processing..."%string)
  | _ => false
  end.

Definition is_toggle_start_or_stop (e : event) : bool :=
  match e with
  | UpdateStatus message _ =>
      bool_decide (message = "Processing..."%string)
      || bool_decide (message = "Recording..."%string)
      || bool_decide (message = "Failed to start recording"%string)
  | _ => false
  end.

Definition count (p : event -> bool) (ev : list event) : nat :=
  length (filter (fun e => p e = true) ev).

(** The number of [True] results in a list of return values. *)
Definition trues (rs : list bool) : nat :=
  length (filter (fun r => r = true) rs).

(** ** Threads calling [start_recording] on one recorder

    [start_recording] is [with self._record_lock: ...]: a thread first
    acquires the lock, then tests the flag, sets the session fields, opens
    the device and finally releases the lock as it returns.  The scheduler
    may switch threads between any two of these steps. *)

Module Threads.

Inductive pc :=
| AtAcquire             (* about to enter the [with] block *)
| AtCheck               (* in the block, about to test [is_recording] *)
| AtSet                 (* past the test, about to set the fields *)
| AtOpen                (* about to open the device *)
| AtRelease (r : bool)  (* about to leave the block and return [r] *)
| Returned (r : bool).

Record thread := {
  at_pc : pc;
  auto_stop : bool;
  dev : AudioRecorder.open_outcome
}.

Definition at_ (p : pc) (th : thread) : thread :=
  {| at_pc := p; auto_stop := auto_stop th; dev := dev th |}.

Definition request (d : AudioRecorder.open_outcome) (a : bool) : thread :=
  {| at_pc := AtAcquire; auto_stop := a; dev := d |}.

Record sys := {
  lock : option nat;           (* the thread that holds [_record_lock] *)
  recorder : AudioRecorder.t;
  threads : list thread
}.

(** One atomic step of thread [i]. *)
Definition step (i : nat) (y : sys) : sys :=
  match threads y !! i with
  | None => y
  | Some th =>
      let move p r l :=
        {| lock := l; recorder := r; threads := <[i := at_ p th]> (threads y) |} in
      match at_pc th with
      | AtAcquire =>
          match lock y with
          | None => move AtCheck (recorder y) (Some i)
          | Some _ => y
          end
      | AtCheck =>
          if AudioRecorder.is_recording (recorder y)
          then move (AtRelease false) (recorder y) (lock y)
          else move AtSet (recorder y) (lock y)
      | AtSet =>
          move AtOpen
            (AudioRecorder.begin_session (auto_stop th) (recorder y)) (lock y)
      | AtOpen =>
          let '(r, s, _) := AudioRecorder.open_device (dev th) (recorder y) in
          move (AtRelease r) s (lock y)
      | AtRelease r => move (Returned r) (recorder y) None
      | Returned _ => y
      end
  end.

Fixpoint run (schedule : list nat) (y : sys) : sys :=
  match schedule with
  | [] => y
  | i :: rest => run rest (step i y)
  end.

(** All requests pending, the lock free. *)
Definition initial (s : AudioRecorder.t)
    (reqs : list (AudioRecorder.open_outcome * bool)) : sys :=
  {| lock := None; recorder := s;
     threads := (fun '(d, a) => request d a) <$> reqs |}.

Definition in_block (th : thread) : bool :=
  match at_pc th with
  | AtCheck | AtSet | AtOpen | AtRelease _ => true
  | AtAcquire | Returned _ => false
  end.

(** A thread that has returned [True]. *)
Definition succeeded (th : thread) : bool :=
  match at_pc th with Returned true => true | _ => false end.

Definition successes (y : sys) : nat :=
  length (filter (fun th => succeeded th = true) (threads y)).

End Threads.

(** ** Concrete configurations and inputs used in the examples *)

Module Scenario.

(** The default configuration of [ConfigManager]. *)
Definition cfg : Config :=
  {| voice_activation_threshold := 2 # 100;
     hotkeys_push_to_talk := ["ctrl"; "space"]%string;
     hotkeys_toggle_recording := ["ctrl"; "shift"; "r"]%string;
     audio_sample_rate := 16000;
     voice_assistant_wake_word := "hey soffy" |}.

(** A configuration with a tiny sample rate, for small buffers. *)
Definition tiny_cfg : Config :=
  {| voice_activation_threshold := 2 # 100;
     hotkeys_push_to_talk := ["ctrl"; "space"]%string;
     hotkeys_toggle_recording := ["ctrl"; "shift"; "r"]%string;
     audio_sample_rate := 2;
     voice_assistant_wake_word := "Hey Soffy" |}.

Definition ok : App.Device :=
  {| App.on_open := AudioRecorder.OpenOk;
     App.on_close := AudioRecorder.CloseOk |}.

(** The recorder as the application constructs it, [silence_timeout] 2.0. *)
Definition idle : AudioRecorder.t :=
  AudioRecorder.set_auto_stop_callback true (AudioRecorder.init 2).

Definition quiet : AudioRecorder.frame := [1 # 100; - (1 # 100)]%Q.
Definition loud : AudioRecorder.frame := [1 # 2; - (1 # 4)]%Q.

(** A session in progress that has captured one frame. *)
Definition active : AudioRecorder.t :=
  AudioRecorder.set_audio_data [loud]
    (snd (fst (AudioRecorder.start_recording AudioRecorder.OpenOk false idle))).

(** The same, started with auto-stop. *)
Definition listening : AudioRecorder.t :=
  snd (fst (AudioRecorder.start_recording AudioRecorder.OpenOk true idle)).

Definition three_frames : list (AudioRecorder.frame * Q) :=
  [([1 # 2]%Q, 10); ([1 # 4]%Q, 11); ([1 # 8]%Q, 12)]%Q.

(** The toggle chord of the default configuration, held down. *)
Definition chord : gset string :=
  {[ "ctrl"%string ]} ∪ {[ "shift"%string ]} ∪ {[ "r"%string ]}.

Definition press (k : string) (t : Q) : HotkeyManager.key_action :=
  HotkeyManager.Press
    {| HotkeyManager.key_name := Some k; HotkeyManager.at_time := t;
       HotkeyManager.device := ok |}.

Definition release (k : string) (t : Q) : HotkeyManager.key_action :=
  HotkeyManager.Release
    {| HotkeyManager.key_name := Some k; HotkeyManager.at_time := t;
       HotkeyManager.device := ok |}.

(** Seven samples, one more than three seconds at two samples a second. *)
Definition ramp : list Q := [1; 2; 3; 4; 5; 6; 7]%Q.

(** The wake-word handler after its first read of [ramp]. *)
Definition heard : HeySoffy.t :=
  HeySoffy.extend_buffer ramp (HeySoffy.init tiny_cfg).

(** A speech model that hears the same sentence whatever it is given. *)
Definition hears (sentence : string) : list Q -> option string :=
  fun _ => Some sentence.

(** A speech model that always fails. *)
Definition deaf : list Q -> option string := fun _ => None.

(** A pass of the listening loop that reads a loud chunk at time [t]. *)
Definition loud_pass (t : Q) : HeySoffy.pass :=
  {| HeySoffy.read := Some [1 # 2; - (1 # 4)]%Q; HeySoffy.now := t;
     HeySoffy.app := App.init 2 |}.

End Scenario.

(** ** Invariant of the threads model *)

Module ThreadsInv.
Import Threads.

(** A thread that has opened the device successfully inside the block, or
    has already returned [True]. *)
Definition wins (th : thread) : nat :=
  match at_pc th with
  | AtRelease true | Returned true => 1
  | _ => 0
  end.

Definition total_wins (y : sys) : nat := sum_list_with wins (threads y).

Record inv (y : sys) : Prop := {
  inv_lock : forall j th,
    threads y !! j = Some th -> in_block th = true -> lock y = Some j;
  inv_flag :
    (0 < total_wins y)%nat -> AudioRecorder.is_recording (recorder y) = true;
  inv_one : (total_wins y <= 1)%nat;
  inv_past : forall j th,
    threads y !! j = Some th -> at_pc th = AtSet \/ at_pc th = AtOpen ->
    total_wins y = 0%nat;
  inv_open : forall j th,
    threads y !! j = Some th -> at_pc th = AtOpen ->
    AudioRecorder.is_recording (recorder y) = true
}.

(** While a session is active: no thread gets past the test, and the
    recorder stays as it is. *)
Definition turned_away (th : thread) : bool :=
  match at_pc th with
  | AtAcquire | AtCheck | AtRelease false | Returned false => true
  | _ => false
  end.

Definition held_off (s : AudioRecorder.t) (y : sys) : Prop :=
  recorder y = s
  /\ forall j th, threads y !! j = Some th -> turned_away th = true.

End ThreadsInv.

(** ** More Python string methods *)

Module PyStrExt.

(** [c.isprintable()] *)
Definition is_printable (c : ascii) : bool :=
  let n := nat_of_ascii c in
  negb ((n <=? 31) || (127 <=? n) && (n <=? 160) || (n =? 173))%nat.

(** [s.isprintable()] *)
Definition isprintable (s : string) : bool :=
  forallb is_printable (list_ascii_of_string s).

(** [s] starts with [p]. *)
Fixpoint starts_with (p s : list ascii) : bool :=
  match p, s with
  | [], _ => true
  | _ :: _, [] => false
  | a :: p', b :: s' => bool_decide (a = b) && starts_with p' s'
  end.

(** [s.endswith(suffix)] *)
Definition endswith (s suffix : string) : bool :=
  starts_with (rev (list_ascii_of_string suffix))
    (rev (list_ascii_of_string s)).

(** The scan behind [s.split(sep)] for a non-empty [sep]: [cur] is the
    current piece, reversed; [skip] counts the characters of a separator
    just met that are still to be passed over. *)
Fixpoint split_sep_go (sep : list ascii) (skip : nat) (cur : list ascii)
    (s : list ascii) : list (list ascii) :=
  match s with
  | [] => [rev cur]
  | c :: rest =>
      match skip with
      | S k => split_sep_go sep k cur rest
      | O =>
          if starts_with sep s
          then rev cur :: split_sep_go sep (length sep - 1) [] rest
          else split_sep_go sep 0 (c :: cur) rest
      end
  end.

(** [s.split(sep)] for a non-empty separator: the pieces between the
    occurrences of [sep], found from the left, empty pieces included. *)
Definition split_sep (sep s : string) : list string :=
  map string_of_list_ascii
    (split_sep_go (list_ascii_of_string sep) 0 [] (list_ascii_of_string s)).

(** [sep.join(pieces)] *)
Fixpoint join (sep : string) (pieces : list string) : string :=
  match pieces with
  | [] => EmptyString
  | [p] => p
  | p :: rest => append p (append sep (join sep rest))
  end.

(** The scan behind [s.replace(old, new)] for a non-empty [old]. *)
Fixpoint replace_go (old new : list ascii) (skip : nat) (s : list ascii)
  : list ascii :=
  match s with
  | [] => []
  | c :: rest =>
      match skip with
      | S k => replace_go old new k rest
      | O =>
          if starts_with old s
          then new ++ replace_go old new (length old - 1) rest
          else c :: replace_go old new 0 rest
      end
  end.

(** [s.replace(old, new)]: every occurrence of [old], found from the left,
    becomes [new]; an empty [old] matches before every character and at the
    end. *)
Definition replace (old new s : string) : string :=
  let o := list_ascii_of_string old in
  let n := list_ascii_of_string new in
  let l := list_ascii_of_string s in
  string_of_list_ascii
    match o with
    | [] => n ++ concat (map (fun c => c :: n) l)
    | _ :: _ => replace_go o n 0 l
    end.

(** A word, as [s.split()] returns them: not empty, and free of
    whitespace. *)
Definition word (p : string) : Prop :=
  p <> EmptyString
  /\ Forall (fun c => PyStr.is_space c = false) (list_ascii_of_string p).

End PyStrExt.

(** ** [AudioRecorder.get_audio_devices] *)

Module Devices.

(** An entry of the audio host's device table, as far as the method reads
    it. *)
Record device_info := { name : string; maxInputChannels : Z }.

(** An entry of the list the method returns. *)
Record device := { index : nat; device_name : string; channels : Z }.

(** The [for] loop from index [i], with [n] indices still to visit.
    [query i] is [None] when [get_device_info_by_index(i)] raises; the
    [except] clause then ends the loop with what was collected. *)
Fixpoint scan (query : nat -> option device_info) (i n : nat) : list device :=
  match n with
  | O => []
  | S n' =>
      match query i with
      | None => []
      | Some info =>
          (if 0 <? maxInputChannels info
           then [{| index := i; device_name := name info;
                    channels := maxInputChannels info |}]
           else [])
          ++ scan query (S i) n'
      end
  end.

(** [get_audio_devices]; [count] is [None] when [get_device_count()]
    raises. *)
Definition get_audio_devices (count : option Z)
    (query : nat -> option device_info) : list device :=
  match count with
  | None => []
  | Some n => scan query 0 (Z.to_nat n)
  end.

End Devices.

(** ** The auto-stop timer, from the recorder back into the controller *)

Module Lifecycle.

(** [AudioRecorder._trigger_auto_stop]; the callback the controller
    registers is [_on_auto_stop_triggered]. *)
Definition _trigger_auto_stop (dev : App.Device) (a : App.t)
  : App.t * list event :=
  if AudioRecorder.auto_stop_callback (App.audio_recorder a)
  then App._on_auto_stop_triggered dev a
  else (a, []).

(** What a started timer does when it expires. *)
Definition expire (dev : App.Device) (e : event) (a : App.t)
  : App.t * list event :=
  match e with
  | StartTimer _ TriggerAutoStop => _trigger_auto_stop dev a
  | _ => (a, [])
  end.

Fixpoint expire_all (dev : App.Device) (started : list event) (a : App.t)
  : App.t * list event :=
  match started with
  | [] => (a, [])
  | e :: rest =>
      let '(a1, ev1) := expire dev e a in
      let '(a2, ev2) := expire_all dev rest a1 in
      (a2, ev1 ++ ev2)
  end.

(** The frames of a stream reach the controller's recorder, and then the
    timers the callback started expire. *)
Definition stream_then_timers `{Numpy} (cfg : Config) (dev : App.Device)
    (inputs : list (AudioRecorder.frame * Q)) (a : App.t)
  : App.t * list event :=
  let '(r, started) :=
    AudioRecorder.run_stream cfg inputs (App.audio_recorder a) in
  expire_all dev started (App.set_audio_recorder r a).

(** A controller operation, for runs of mixed operations. *)
Inductive op :=
| PushToTalkStart
| PushToTalkEnd
| Toggle
| AutoStopTriggered
| Start (auto_stop : bool)
| Stop
| Frame (chunk : AudioRecorder.frame) (now : Q).

Definition apply_op `{Numpy} (cfg : Config) (dev : App.Device) (o : op)
    (a : App.t)
  : App.t * list event :=
  match o with
  | PushToTalkStart => App.on_push_to_talk_start dev a
  | PushToTalkEnd => App.on_push_to_talk_end dev a
  | Toggle => App.on_toggle_recording dev a
  | AutoStopTriggered => App._on_auto_stop_triggered dev a
  | Start auto_stop => App.start_recording dev auto_stop a
  | Stop => App.stop_recording_and_transcribe dev a
  | Frame chunk now =>
      let '(_, r, ev) :=
        AudioRecorder._audio_callback cfg chunk now (App.audio_recorder a) in
      (App.set_audio_recorder r a, ev)
  end.

(** A run of operations, each with the device outcomes it meets. *)
Fixpoint apply_ops `{Numpy} (cfg : Config) (ops : list (App.Device * op))
    (a : App.t)
  : App.t * list event :=
  match ops with
  | [] => (a, [])
  | (dev, o) :: rest =>
      let '(a1, ev1) := apply_op cfg dev o a in
      let '(a2, ev2) := apply_ops cfg rest a1 in
      (a2, ev1 ++ ev2)
  end.

(** The controller's flag is the recorder's, and a recorder that records
    holds its stream. *)
Definition in_step (a : App.t) : Prop :=
  App.is_recording a = AudioRecorder.is_recording (App.audio_recorder a)
  /\ (AudioRecorder.is_recording (App.audio_recorder a) = true ->
      AudioRecorder.stream (App.audio_recorder a) = true).

End Lifecycle.

(** ** [PushToTalkHandler.reset] *)

Module PushToTalkExt.

Definition reset (dev : App.Device) (h : PushToTalk.t) (a : App.t)
  : PushToTalk.t * App.t * list event :=
  if PushToTalk.is_active h then
    let '(a', ev) := App.on_push_to_talk_end dev a in
    (PushToTalk.set_is_active false h, a', ev)
  else (h, a, []).

(** A run of [check_activation] calls, one per key event, all meeting the
    same device outcomes; the result lists the return values. *)
Fixpoint checks (cfg : Config) (dev : App.Device)
    (events : list (gset string)) (h : PushToTalk.t) (a : App.t)
  : list bool * PushToTalk.t * App.t * list event :=
  match events with
  | [] => ([], h, a, [])
  | keys :: rest =>
      let '(r, h1, a1, ev1) := PushToTalk.check_activation cfg dev keys h a in
      let '(rs, h2, a2, ev2) := checks cfg dev rest h1 a1 in
      (r :: rs, h2, a2, ev1 ++ ev2)
  end.

End PushToTalkExt.

(** ** [HotkeyManager._get_key_name] *)

Module HotkeyManagerExt.

(** A key object of the keyboard library, as far as [_get_key_name] looks
    at it: [char] is [None] when the object has no such attribute and
    [Some None] when the attribute is [None]; [name] is [None] when the
    object has no such attribute; [str] is [str(key)]. *)
Record key := {
  char : option (option string);
  name : option string;
  str : string
}.

Definition name_mapping : list (string * string) :=
  [("ctrl_l", "ctrl"); ("ctrl_r", "ctrl");
   ("alt_l", "alt"); ("alt_r", "alt");
   ("shift_l", "shift"); ("shift_r", "shift");
   ("cmd", "win"); ("cmd_l", "win"); ("cmd_r", "win");
   ("win", "win"); ("win_l", "win"); ("win_r", "win")]%string.

(** [name_mapping.get(key_name, key_name)] *)
Fixpoint mapped (table : list (string * string)) (key_name : string) : string :=
  match table with
  | [] => key_name
  | (k, v) :: rest =>
      if bool_decide (k = key_name) then v else mapped rest key_name
  end.

Definition _get_key_name (k : key) : option string :=
  match char k with
  | Some (Some c) =>
      if negb (bool_decide (c = EmptyString)) && PyStrExt.isprintable c
      then Some (PyStr.lower c)
      else
        match name k with
        | Some n => Some (mapped name_mapping (PyStr.lower n))
        | None =>
            Some (PyStrExt.replace ">" ""
                    (PyStrExt.replace "<" ""
                       (PyStrExt.replace "key." "" (PyStr.lower (str k)))))
        end
  | _ =>
      match name k with
      | Some n => Some (mapped name_mapping (PyStr.lower n))
      | None =>
          Some (PyStrExt.replace ">" ""
                  (PyStrExt.replace "<" ""
                     (PyStrExt.replace "key." "" (PyStr.lower (str k)))))
      end
  end.

(** [_on_key_press] and [_on_key_release] on a key object. *)
Definition on_press (cfg : Config) (k : key) (now : Q) (dev : App.Device)
    (m : HotkeyManager.t) (a : App.t) : HotkeyManager.t * App.t * list event :=
  HotkeyManager._on_key_press cfg
    {| HotkeyManager.key_name := _get_key_name k;
       HotkeyManager.at_time := now; HotkeyManager.device := dev |} m a.

Definition on_release (cfg : Config) (k : key) (now : Q) (dev : App.Device)
    (m : HotkeyManager.t) (a : App.t) : HotkeyManager.t * App.t * list event :=
  HotkeyManager._on_key_release cfg
    {| HotkeyManager.key_name := _get_key_name k;
       HotkeyManager.at_time := now; HotkeyManager.device := dev |} m a.

(** A special key of the keyboard library with the given name. *)
Definition special (n : string) : key :=
  {| char := None; name := Some n; str := append "Key." n |}.

End HotkeyManagerExt.

(** ** [ConfigManager]

    The configuration is the nested dictionary read from JSON.  A Python
    dictionary is an association list with at most one entry per key, in
    insertion order. *)

Module ConfigManager.

#[local] Set Warnings "-register-all".

Inductive value :=
| VNone
| VBool (b : bool)
| VInt (n : Z)
| VFloat (x : Q)
| VStr (s : string)
| VList (items : list value)
| VDict (entries : list (string * value)).

(** A call either returns or raises ([AttributeError] or [TypeError] on a
    value that is not a dictionary). *)
Inductive outcome (A : Type) :=
| Returns (a : A)
| Raises.

Arguments Returns {A} a.
Arguments Raises {A}.

(** [key in d], [d[key]] *)
Fixpoint find (d : list (string * value)) (key : string) : option value :=
  match d with
  | [] => None
  | (k, v) :: rest => if bool_decide (k = key) then Some v else find rest key
  end.

(** [d[key] = v] *)
Fixpoint assign (d : list (string * value)) (key : string) (v : value)
  : list (string * value) :=
  match d with
  | [] => [(key, v)]
  | (k, x) :: rest =>
      if bool_decide (k = key) then (k, v) :: rest
      else (k, x) :: assign rest key v
  end.

(** The loop of [get] over the keys still to follow. *)
Fixpoint get_from (current : value) (keys : list string) (default : value)
  : outcome value :=
  match keys with
  | [] => Returns current
  | key :: rest =>
      match current with
      | VDict d =>
          match find d key with
          | Some VNone => Returns default
          | Some v => get_from v rest default
          | None =>
              match default with
              | VNone => Returns default
              | _ => get_from default rest default
              end
          end
      | _ => Raises
      end
  end.

(** [get(key_path, default)] *)
Definition get (config : list (string * value)) (key_path : string)
    (default : value) : outcome value :=
  get_from (VDict config) (PyStrExt.split_sep "." key_path) default.

(** The loop of [set] and the final assignment.  [setdefault] returns the
    value already stored, and the next step raises when that is not a
    dictionary. *)
Fixpoint set_in (config : list (string * value)) (keys : list string)
    (v : value) : outcome (list (string * value)) :=
  match keys with
  | [] => Returns config
  | [key] => Returns (assign config key v)
  | key :: rest =>
      match find config key with
      | None =>
          match set_in [] rest v with
          | Returns sub => Returns (assign config key (VDict sub))
          | Raises => Raises
          end
      | Some (VDict d) =>
          match set_in d rest v with
          | Returns sub => Returns (assign config key (VDict sub))
          | Raises => Raises
          end
      | Some _ => Raises
      end
  end.

(** [set(key_path, value)]; writing the file is not modelled. *)
Definition set (config : list (string * value)) (key_path : string)
    (v : value) : outcome (list (string * value)) :=
  set_in config (PyStrExt.split_sep "." key_path) v.

(** What [_deep_merge] stores under a key of [loaded] whose value is [v],
    [current] being the value the result holds under that key so far.  The
    inner loop is the [for] loop of [_deep_merge] on the two dictionaries. *)
Fixpoint merged (v : value) (current : option value) : value :=
  match v, current with
  | VDict loaded, Some (VDict default) =>
      VDict
        ((fix loop (l : list (string * value)) (result : list (string * value))
            : list (string * value) :=
            match l with
            | [] => result
            | (key, x) :: rest =>
                loop rest (assign result key (merged x (find result key)))
            end) loaded default)
  | _, _ => v
  end.

(** The [for] loop of [_deep_merge]. *)
Fixpoint merge_loop (l : list (string * value)) (result : list (string * value))
  : list (string * value) :=
  match l with
  | [] => result
  | (key, x) :: rest =>
      merge_loop rest (assign result key (merged x (find result key)))
  end.

(** [_deep_merge(default, loaded)] *)
Definition _deep_merge (default loaded : list (string * value))
  : list (string * value) :=
  merge_loop loaded default.

(** [bool(v)] *)
Definition truthy (v : value) : bool :=
  match v with
  | VNone => false
  | VBool b => b
  | VInt n => negb (n =? 0)
  | VFloat x => negb (Qeq_bool x 0)
  | VStr s => negb (bool_decide (s = EmptyString))
  | VList items => negb (bool_decide (items = []))
  | VDict entries => negb (bool_decide (entries = []))
  end.

(** [self.default_config] *)
Definition default_config : list (string * value) :=
  [("hotkeys",
    VDict [("push_to_talk", VList [VStr "ctrl"; VStr "space"]);
           ("toggle_recording", VList [VStr "ctrl"; VStr "shift"; VStr "r"])]);
   ("audio",
    VDict [("sample_rate", VInt 16000); ("channels", VInt 1);
           ("chunk_size", VInt 1024); ("device_index", VNone);
           ("voice_activation_threshold", VFloat (2 # 100));
           ("silence_timeout", VFloat 2)]);
   ("whisper",
    VDict [("model_size", VStr "base"); ("language", VStr "auto");
           ("task", VStr "transcribe")]);
   ("voice_assistant",
    VDict [("enabled", VBool true); ("wake_word", VStr "hey soffy");
           ("sensitivity", VFloat (1 # 2));
           ("auto_stop_timeout", VFloat 3);
           ("continuous_listening", VBool true)]);
   ("ui",
    VDict [("theme", VStr "dark"); ("minimize_to_tray", VBool true);
           ("show_notifications", VBool true); ("auto_start", VBool false)]);
   ("behavior",
    VDict [("auto_punctuation", VBool true);
           ("capitalize_sentences", VBool true);
           ("remove_filler_words", VBool true);
           ("confidence_threshold", VFloat (7 # 10))]);
   ("sounds",
    VDict [("enabled", VBool true); ("start_recording", VBool true);
           ("stop_recording", VBool true);
           ("wake_word_detected", VBool true);
           ("volume", VFloat (7 # 10))])]%string.

End ConfigManager.

(** Following a path of keys through nested dictionaries, with no default
    and no special case: what is stored there, if anything. *)
Module ConfigPath.
Import ConfigManager.

Fixpoint stored (v : value) (keys : list string) : option value :=
  match keys with
  | [] => Some v
  | key :: rest =>
      match v with
      | VDict d =>
          match find d key with
          | Some x => stored x rest
          | None => None
          end
      | _ => None
      end
  end.

Definition is_dict (v : value) : bool :=
  match v with VDict _ => true | _ => false end.

Definition is_none (v : value) : bool :=
  match v with VNone => true | _ => false end.

End ConfigPath.

(** ** [SoundManager.play_sound]: whether the sound is played *)

Module SoundManager.

(** The worker of [play_sound]: [available] tells whether the sound system
    is (or can be) initialized and holds a sound of that type.  An exception
    is logged and nothing is played. *)
Definition plays (config : list (string * ConfigManager.value))
    (sound_type : string) (available : bool) : bool :=
  match ConfigManager.get config "sounds.enabled" (ConfigManager.VBool true) with
  | ConfigManager.Raises => false
  | ConfigManager.Returns enabled =>
      if negb (ConfigManager.truthy enabled) then false
      else
        match ConfigManager.get config (append "sounds." sound_type)
                (ConfigManager.VBool true) with
        | ConfigManager.Raises => false
        | ConfigManager.Returns wanted =>
            if negb (ConfigManager.truthy wanted) then false else available
        end
  end.

End SoundManager.

(** ** [WhisperTranscriber]: transcription and text post-processing *)

Module WhisperTranscriber.

(** The three [behavior.*] settings, as [_post_process_text] finds them. *)
Record behavior := {
  remove_filler_words : bool;
  capitalize_sentences : bool;
  auto_punctuation : bool
}.

Definition filler_words : list string :=
  ["um"; "uh"; "er"; "ah"; "hmm"; "like"; "you know"]%string.

(** [word.lower() not in filler_words] *)
Definition kept (word : string) : bool :=
  negb (bool_decide (PyStr.lower word ∈ filler_words)).

Definition remove_fillers (text : string) : string :=
  PyStrExt.join " " (List.filter kept (PyStr.split text)).

(** The sentence step.  [capitalize] is [str.capitalize], which takes some
    code points below 256 outside that range and is therefore given. *)
Definition capitalize_all (capitalize : string -> string) (text : string)
  : string :=
  PyStrExt.join ". "
    (map (fun s => capitalize (PyStr.strip s))
       (List.filter
          (fun s => negb (bool_decide (PyStr.strip s = EmptyString)))
          (PyStrExt.split_sep ". " text))).

Definition punctuate (text : string) : string :=
  if negb (bool_decide (text = EmptyString))
     && negb (PyStrExt.endswith text "." || PyStrExt.endswith text "!"
              || PyStrExt.endswith text "?")
  then append text "."
  else text.

Definition _post_process_text (capitalize : string -> string) (b : behavior)
    (text : string) : string :=
  if bool_decide (text = EmptyString) then text
  else
    let text := if remove_filler_words b then remove_fillers text else text in
    let text :=
      if capitalize_sentences b then capitalize_all capitalize text else text in
    if auto_punctuation b then punctuate text else text.

(** The normalisation step of [transcribe]: the audio handed to the speech
    model, [None] when [np.max] raises. *)
Definition prepared (audio_data : list Q) : option (list Q) :=
  match HeySoffy.max_abs audio_data with
  | None => None
  | Some max_val =>
      Some (if Qltb 0 max_val then map (fun x => (x / max_val)%Q) audio_data
            else audio_data)
  end.

(** [transcribe].  [model] is the loaded speech model in its full mode; it
    answers [None] when the call raises.  The result is [None] when the
    method returns [None]. *)
Definition transcribe (capitalize : string -> string) (b : behavior)
    (model : list Q -> option string) (audio_data : list Q) : option string :=
  match prepared audio_data with
  | None => None
  | Some audio_data =>
      match model audio_data with
      | None => None
      | Some result_text =>
          Some (_post_process_text capitalize b (PyStr.strip result_text))
      end
  end.

End WhisperTranscriber.

(** Audio scaled to peak amplitude one: every sample lies in [[-1, 1]], and
    unless all samples are zero one of them has absolute value one. *)
Definition peak_normalized (audio : list Q) : Prop :=
  Forall (fun x => (Qabs x <= 1)%Q) audio
  /\ (Forall (fun x => (x == 0)%Q) audio
      \/ Exists (fun x => (Qabs x == 1)%Q) audio).

(** ** [TextInjector.paste_text] *)

Module TextInjector.

(** What the method does to the keyboard. *)
Inductive keystroke :=
| CtrlV
| TypeText (text : string).

(** The calls that can raise: reading the clipboard, writing it, the
    simulated key presses, the fallback typing, and the write that restores
    the clipboard. *)
Record host := {
  read_ok : bool;
  copy_ok : bool;
  keys_ok : bool;
  type_ok : bool;
  restore_ok : bool
}.

(** [paste_text]: the clipboard as the method leaves it, the keystrokes
    that reached the focused application, and the text the restore timer
    will write back ([None] when no timer was started). *)
Definition paste_text (h : host) (text : string) (clipboard : string)
  : string * list keystroke * option string :=
  let original_clipboard := if read_ok h then clipboard else EmptyString in
  if copy_ok h then
    if keys_ok h then (text, [CtrlV], Some original_clipboard)
    else (text, if type_ok h then [TypeText text] else [], None)
  else (clipboard, if type_ok h then [TypeText text] else [], None).

(** [restore_clipboard], run by the timer. *)
Definition restore_clipboard (h : host) (original_clipboard : string)
    (clipboard : string) : string :=
  if restore_ok h then original_clipboard else clipboard.

(** The whole of it: the paste and then the timer. *)
Definition paste_and_restore (h : host) (text : string) (clipboard : string)
  : string * list keystroke :=
  let '(c, keys, timer) := paste_text h text clipboard in
  match timer with
  | Some original => (restore_clipboard h original c, keys)
  | None => (c, keys)
  end.

End TextInjector.

(** ** [VoiceTypeProApp._transcribe_and_paste] *)

Module Transcription.

(** The effects of the transcription worker. *)
Inductive effect :=
| Shown (e : event)
| AddTranscriptionToLog (text : string)
| PasteText (text : string).

(** [_transcribe_and_paste], run with a loaded speech model and with
    window calls that do not raise. *)
Definition _transcribe_and_paste (capitalize : string -> string)
    (b : WhisperTranscriber.behavior) (model : list Q -> option string)
    (audio_data : list Q) (a : App.t) : list effect :=
  let text := WhisperTranscriber.transcribe capitalize b model audio_data in
  (match text with
   | Some t =>
       if negb (bool_decide (t = EmptyString))
          && negb (bool_decide (PyStr.strip t = EmptyString))
       then
         [AddTranscriptionToLog t; PasteText t;
          Shown (UpdateStatus "Text pasted successfully" "green")]
         ++ map Shown (App.in_background a [PopupStatus "Pasted!"])
       else
         [Shown (UpdateStatus "No speech detected" "orange")]
         ++ map Shown (App.in_background a [PopupStatus "No speech"])
   | None =>
       [Shown (UpdateStatus "No speech detected" "orange")]
       ++ map Shown (App.in_background a [PopupStatus "No speech"])
   end)
  ++ [Shown ResetStatusDelayed].

Definition is_paste (e : effect) : bool :=
  match e with PasteText _ => true | _ => false end.

End Transcription.

(** ** [ToggleRecordingHandler.check_activation], call after call *)

Module ToggleRecordingExt.

(** The clock values at which a run of [check_activation] calls answered
    [True]; each call comes with the device, the clock and the keys held. *)
Fixpoint fires (cfg : Config) (calls : list (App.Device * Q * gset string))
    (h : ToggleRecording.t) (a : App.t) : list Q :=
  match calls with
  | [] => []
  | (dev, now, keys) :: rest =>
      let '(r, h', a', _) :=
        ToggleRecording.check_activation cfg dev now keys h a in
      (if r then [now] else []) ++ fires cfg rest h' a'
  end.

End ToggleRecordingExt.

(** ** [AudioRecorder.cleanup] and [VoiceTypeProApp.cleanup] *)

Module Cleanup.

(** [AudioRecorder.cleanup]: [dev] is what closing the stream does inside
    [stop_recording], [close_ok] tells whether the method's own
    [self.stream.close()] returns.  The last component tells whether
    [self.audio.terminate()] was reached. *)
Definition recorder_cleanup (dev : AudioRecorder.close_outcome)
    (close_ok : bool) (s : AudioRecorder.t)
  : AudioRecorder.t * list event * bool :=
  let '(s1, ev) :=
    if AudioRecorder.is_recording s
    then let '(_, s1, ev) := AudioRecorder.stop_recording dev s in (s1, ev)
    else (s, []) in
  if AudioRecorder.stream s1 then (s1, ev, close_ok) else (s1, ev, true).

(** [VoiceTypeProApp.cleanup], as far as the recorder is concerned. *)
Definition cleanup (dev1 dev2 : AudioRecorder.close_outcome)
    (close_ok : bool) (a : App.t) : App.t * list event * bool :=
  let '(s1, ev1) :=
    if App.is_recording a
    then let '(_, s1, ev) :=
           AudioRecorder.stop_recording dev1 (App.audio_recorder a) in
         (s1, ev)
    else (App.audio_recorder a, []) in
  let '(s2, ev2, terminated) := recorder_cleanup dev2 close_ok s1 in
  (App.set_audio_recorder s2 a, ev1 ++ ev2, terminated).

End Cleanup.

(** ** [VoiceTypeProApp._voice_assistant_session] *)

Module VoiceAssistant.

(** [self.config.get('voice_assistant.auto_stop_timeout', 3.0)] as a number
    the loop can add to: [None] when the read raises or gives something
    [timeout + 5] raises on. *)
Definition auto_stop_timeout (config : list (string * ConfigManager.value))
  : option Q :=
  match ConfigManager.get config "voice_assistant.auto_stop_timeout"
          (ConfigManager.VFloat 3) with
  | ConfigManager.Returns (ConfigManager.VFloat x) => Some x
  | ConfigManager.Returns (ConfigManager.VInt n) => Some (inject_Z n)
  | ConfigManager.Returns (ConfigManager.VBool b) =>
      Some (if b then 1%Q else 0%Q)
  | _ => None
  end.

(** The [while] loop.  Each entry of [polls] belongs to one test of the loop
    condition that reads the clock: the value read, and what the other
    threads do to the controller during the [sleep] that follows.  [None]
    stands for a loop that has not ended when the entries run out. *)
Fixpoint wait `{Numpy} (cfg : Config) (start_time bound : Q)
    (polls : list (Q * list (App.Device * Lifecycle.op))) (a : App.t)
  : option (App.t * list event) :=
  if negb (App.is_recording a) then Some (a, [])
  else
    match polls with
    | [] => None
    | (now, others) :: rest =>
        if Qltb (now - start_time) bound then
          let '(a1, ev1) := Lifecycle.apply_ops cfg others a in
          match wait cfg start_time bound rest a1 with
          | Some (a2, ev2) => Some (a2, ev1 ++ ev2)
          | None => None
          end
        else Some (a, [])
    end.

(** [_voice_assistant_session].  [timeout] is [auto_stop_timeout];
    [start_time] is the clock read before the loop; [last] is what the other
    threads do between the end of the loop and the final test.  An exception
    ends the method where it is raised. *)
Definition _voice_assistant_session `{Numpy} (cfg : Config) (dev : App.Device)
    (timeout : option Q) (start_time : Q)
    (polls : list (Q * list (App.Device * Lifecycle.op)))
    (last : list (App.Device * Lifecycle.op)) (a : App.t)
  : option (App.t * list event) :=
  let '(a1, ev1) := App.start_recording dev true a in
  match timeout with
  | None => Some (a1, ev1)
  | Some timeout =>
      match wait cfg start_time (timeout + 5) polls a1 with
      | None => None
      | Some (a2, ev2) =>
          let '(a3, ev3) := Lifecycle.apply_ops cfg last a2 in
          let '(a4, ev4) :=
            if App.is_recording a3
            then App.stop_recording_and_transcribe dev a3
            else (a3, []) in
          Some (a4, ev1 ++ ev2 ++ ev3 ++ ev4)
      end
  end.

End VoiceAssistant.

(** ** More concrete inputs for the examples *)

Module Samples.



(** The controller in a session started by the wake word. *)
Definition listening_app : App.t :=
  fst (App.start_recording Scenario.ok true (App.init 2)).

(** A device that cannot be opened. *)
Definition broken : App.Device :=
  {| App.on_open := AudioRecorder.OpenRaises;
     App.on_close := AudioRecorder.CloseOk |}.

(** The push-to-talk chord of the default configuration, alone and with
    other keys held as well. *)
Definition ptt : gset string := {[ "ctrl"%string ]} ∪ {[ "space"%string ]}.

Definition ptt_and_more : gset string :=
  ptt ∪ {[ "a"%string ]} ∪ {[ "shift"%string ]}.

Definition active_handler : PushToTalk.t :=
  {| PushToTalk.is_active := true; PushToTalk.enabled := true |}.

(** A user configuration that changes one hotkey, adds a key of its own and
    replaces a section by a number. *)
Definition user_config : list (string * ConfigManager.value) :=
  [("hotkeys",
    ConfigManager.VDict
      [("push_to_talk", ConfigManager.VList [ConfigManager.VStr "f9"])]);
   ("extra", ConfigManager.VInt 1);
   ("ui", ConfigManager.VInt 0)]%string.

(** A host with three devices, the second an output only. *)
Definition table (i : nat) : option Devices.device_info :=
  match i with
  | 0%nat => Some {| Devices.name := "Microphone";
                     Devices.maxInputChannels := 2 |}
  | 1%nat => Some {| Devices.name := "Speakers";
                     Devices.maxInputChannels := 0 |}
  | 2%nat => Some {| Devices.name := "Headset";
                     Devices.maxInputChannels := 1 |}
  | _ => None
  end.

(** [str.capitalize] on ASCII text. *)
Definition upper_char (c : ascii) : ascii :=
  let n := nat_of_ascii c in
  if ((97 <=? n) && (n <=? 122))%nat then ascii_of_nat (n - 32) else c.

Definition capitalize (s : string) : string :=
  match s with
  | EmptyString => EmptyString
  | String c rest => String (upper_char c) (PyStr.lower rest)
  end.

(** The settings of [behavior.*] as the default configuration has them. *)
Definition behavior : WhisperTranscriber.behavior :=
  {| WhisperTranscriber.remove_filler_words := true;
     WhisperTranscriber.capitalize_sentences := true;
     WhisperTranscriber.auto_punctuation := true |}.

(** A speech model that always hears the same sentence. *)
Definition always (sentence : string) : list Q -> option string :=
  fun _ => Some sentence.

(** A handler whose wake phrase is blank, with a second of audio in a tiny
    buffer. *)
Definition blank_cfg : Config :=
  {| voice_activation_threshold := 1 # 50;
     hotkeys_push_to_talk := ["ctrl"; "space"]%string;
     hotkeys_toggle_recording := ["ctrl"; "shift"; "r"]%string;
     audio_sample_rate := 2;
     voice_assistant_wake_word := "  " |}.

Definition blank_listener : HeySoffy.t :=
  HeySoffy.set_audio_buffer [1 # 2; - (1 # 4)]%Q (HeySoffy.init blank_cfg).

(** Three presses of the toggle chord, a tenth of a second apart, and one
    a second later. *)
Definition toggle_calls : list (App.Device * Q * gset string) :=
  [(Scenario.ok, 1%Q, Scenario.chord); (Scenario.ok, (11 # 10)%Q, Scenario.chord);
   (Scenario.ok, (12 # 10)%Q, Scenario.chord); (Scenario.ok, (22 # 10)%Q, Scenario.chord)].

(** A clipboard host on which everything works, and one on which the paste
    keys fail. *)
Definition working_host : TextInjector.host :=
  {| TextInjector.read_ok := true; TextInjector.copy_ok := true;
     TextInjector.keys_ok := true; TextInjector.type_ok := true;
     TextInjector.restore_ok := true |}.

Definition keys_fail_host : TextInjector.host :=
  {| TextInjector.read_ok := true; TextInjector.copy_ok := true;
     TextInjector.keys_ok := false; TextInjector.type_ok := true;
     TextInjector.restore_ok := true |}.

(** A voice-assistant session that is polled at one second, when speech
    arrives, and again nine seconds after its start. *)
Definition session_polls : list (Q * list (App.Device * Lifecycle.op)) :=
  [(1%Q, [(Scenario.ok, Lifecycle.Frame Scenario.loud 1)]); (9%Q, [])].

(** A configuration whose [voice_assistant] entry is a number. *)
Definition flat_config : list (string * ConfigManager.value) :=
  [("voice_assistant", ConfigManager.VInt 5)]%string.

(** A run in which a start fails on the device and the next one works. *)
Definition bumpy_run : list (App.Device * Lifecycle.op) :=
  [(broken, Lifecycle.Toggle); (Scenario.ok, Lifecycle.PushToTalkStart);
   (Scenario.ok, Lifecycle.Frame Scenario.loud 1)].

End Samples.

(** * Properties *)

(** ** Rational comparisons *)

Lemma Qltb_lt (a b : Q) : Qltb a b = true <-> (a < b)%Q.
Proof.
  unfold Qltb. rewrite negb_true_iff.
  destruct (Qle_bool b a) eqn:E.
  - apply Qle_bool_iff in E. split; [discriminate | intros H; lra].
  - split; [intros _ | reflexivity].
    destruct (Qlt_le_dec a b) as [H | H]; [exact H |].
    apply Qle_bool_iff in H. congruence.
Qed.

Lemma Qltb_ge (a b : Q) : Qltb a b = false <-> (b <= a)%Q.
Proof.
  unfold Qltb. rewrite negb_false_iff. apply Qle_bool_iff.
Qed.

(** ** In exact arithmetic the energy test compares the root mean square *)

Section Energy.

(** For a non-empty chunk whose mean square is [r * r] with [r] not
    negative, i.e. whose root mean square is [r], the two tests compare [r]
    with the threshold. *)
Lemma rms_lt_root chunk threshold r :
  chunk <> [] -> (0 <= r)%Q -> (r * r == Vad.mean_sq chunk)%Q ->
  Vad.rms_lt chunk threshold = true <-> (r < threshold)%Q.
Proof.
  intros Hne Hr Hsq. unfold Vad.rms_lt.
  destruct chunk as [| x xs]; [congruence |].
  rewrite andb_true_iff, !Qltb_lt, <- Hsq. split.
  - intros [Hpos Hlt]. destruct (Qlt_le_dec r threshold) as [H | H];
      [exact H | nra].
  - intros Hlt. split; [lra | nra].
Qed.

Lemma rms_gt_root chunk threshold r :
  chunk <> [] -> (0 <= r)%Q -> (r * r == Vad.mean_sq chunk)%Q ->
  Vad.rms_gt chunk threshold = true <-> (threshold < r)%Q.
Proof.
  intros Hne Hr Hsq. unfold Vad.rms_gt.
  destruct chunk as [| x xs]; [congruence |].
  rewrite orb_true_iff, !Qltb_lt, <- Hsq. split.
  - intros [Hneg | Hlt]; [lra |].
    destruct (Qlt_le_dec threshold r) as [H | H]; [exact H |].
    destruct (Qlt_le_dec threshold 0) as [H0 | H0]; [lra | nra].
  - intros Hlt. destruct (Qlt_le_dec threshold 0) as [H0 | H0];
      [now left | right; nra].
Qed.

End Energy.

(** ** Splitting at whitespace *)

Section Words.
Import PyStr.

(** The words [split] returns are not empty and hold no whitespace. *)
Lemma split_go_words word s :
  Forall (fun c => is_space c = false) word ->
  Forall (fun w => w <> [] /\ Forall (fun c => is_space c = false) w)
    (split_go word s).
Proof.
  revert word. induction s as [| c rest IH]; intros word Hw; simpl.
  - destruct word as [| d word'] eqn:E; [constructor |].
    constructor; [| constructor]. split.
    + intros H. apply (f_equal length) in H.
      rewrite length_rev in H. discriminate.
    + apply Forall_rev. exact Hw.
  - destruct (is_space c) eqn:Hc.
    + destruct word as [| d word'] eqn:E; [apply IH; constructor |].
      constructor; [| apply IH; constructor]. split.
      * intros H. apply (f_equal length) in H.
        rewrite length_rev in H. discriminate.
      * apply Forall_rev. exact Hw.
    + apply IH. constructor; assumption.
Qed.

End Words.

(** ** The recorder, one call at a time *)

Section Recorder.
Import AudioRecorder.

Lemma start_recording_active dev auto_stop s :
  is_recording s = true -> start_recording dev auto_stop s = (false, s, []).
Proof. intros H. unfold start_recording. now rewrite H. Qed.

Lemma start_recording_success dev auto_stop s s' ev :
  start_recording dev auto_stop s = (true, s', ev) ->
  is_recording s = false /\ is_recording s' = true /\ dev = OpenOk.
Proof.
  unfold start_recording. destruct (is_recording s) eqn:E; [discriminate |].
  destruct dev; simpl; intros H; inversion H; subst; auto.
Qed.

Lemma start_recording_failure dev auto_stop s s' ev :
  start_recording dev auto_stop s = (false, s', ev) ->
  is_recording s' = is_recording s.
Proof.
  unfold start_recording. destruct (is_recording s) eqn:E.
  - intros H; inversion H; subst; auto.
  - destruct dev; simpl; intros H; inversion H; subst; auto.
Qed.

Lemma start_many_active reqs s :
  is_recording s = true ->
  start_many reqs s = (replicate (length reqs) false, s).
Proof.
  intros H. induction reqs as [| [dev auto_stop] reqs IH]; simpl; [reflexivity |].
  rewrite (start_recording_active _ _ _ H), IH. reflexivity.
Qed.

Lemma trues_replicate_false n : trues (replicate n false) = 0%nat.
Proof. induction n; simpl; auto. Qed.

Lemma start_many_at_most_one reqs s :
  (trues (fst (start_many reqs s)) <= 1)%nat.
Proof.
  revert s. induction reqs as [| [dev auto_stop] reqs IH]; intros s; simpl.
  - unfold trues. simpl. lia.
  - destruct (start_recording dev auto_stop s) as [[r s'] ev] eqn:E.
    destruct r.
    + apply start_recording_success in E as (_ & Hrec & _).
      rewrite (start_many_active _ _ Hrec). simpl.
      unfold trues. rewrite filter_cons_True by reflexivity. simpl.
      fold (trues (replicate (length reqs) false)).
      rewrite trues_replicate_false. lia.
    + specialize (IH s'). destruct (start_many reqs s') as [rs s''].
      simpl in *. unfold trues in *. rewrite filter_cons_False by discriminate.
      exact IH.
Qed.

Lemma stop_recording_idle dev s :
  is_recording s = false -> stop_recording dev s = (None, s, []).
Proof. intros H. unfold stop_recording. now rewrite H. Qed.

Lemma stop_recording_makes_idle dev s :
  is_recording (snd (fst (stop_recording dev s))) = false.
Proof.
  unfold stop_recording. destruct (is_recording s) eqn:E; simpl; [| exact E].
  destruct (stream s), dev; simpl; destruct (audio_data s); reflexivity.
Qed.

End Recorder.

(** ** The recorder under concurrent start requests *)

Section Interleaving.
Import Threads ThreadsInv.

Lemma sum_wins_insert (l : list thread) i x z :
  l !! i = Some x ->
  (sum_list_with wins (<[i := z]> l) + wins x
   = sum_list_with wins l + wins z)%nat.
Proof.
  revert i. induction l as [| a l IH]; intros [| i] H; simpl in *;
    try discriminate.
  - inversion H; subst. lia.
  - specialize (IH i H). lia.
Qed.

Lemma lookup_moved (l : list thread) i j x z th :
  l !! i = Some x -> <[i := z]> l !! j = Some th ->
  (j = i /\ th = z) \/ (j <> i /\ l !! j = Some th).
Proof.
  intros Hi Hj. destruct (decide (i = j)) as [-> | Hne].
  - rewrite list_lookup_insert_eq in Hj by (eapply lookup_lt_Some; eauto).
    inversion Hj; auto.
  - rewrite list_lookup_insert_ne in Hj by assumption. right; auto.
Qed.

Lemma inv_initial s reqs : inv (initial s reqs).
Proof.
  assert (Hpc : forall j th,
             threads (initial s reqs) !! j = Some th -> at_pc th = AtAcquire).
  { intros j th. simpl. rewrite list_lookup_fmap.
    destruct (reqs !! j) as [[d a] |]; simpl; intros H; inversion H; auto. }
  assert (Hw : total_wins (initial s reqs) = 0%nat).
  { unfold total_wins. simpl. induction reqs as [| [d a] reqs IH]; simpl; auto.
    apply IH. intros j th H. apply (Hpc (S j) th). exact H. }
  split.
  - intros j th H Hb. apply Hpc in H. unfold in_block in Hb.
    rewrite H in Hb. discriminate.
  - rewrite Hw. lia.
  - rewrite Hw. lia.
  - intros. exact Hw.
  - intros j th H Hp. apply Hpc in H. congruence.
Qed.

Lemma total_wins_move y i th p l r a b :
  threads y !! i = Some th -> wins th = a -> wins (at_ p th) = b ->
  (total_wins {| lock := l; recorder := r;
                 threads := <[i := at_ p th]> (threads y) |} + a
   = total_wins y + b)%nat.
Proof.
  intros Hi <- <-. unfold total_wins. simpl. now apply sum_wins_insert.
Qed.

Lemma wins_of th p a :
  at_pc th = p ->
  match p with AtRelease true | Returned true => 1%nat | _ => 0%nat end = a ->
  wins th = a.
Proof. intros Hp <-. unfold wins. now rewrite Hp. Qed.

Lemma in_block_of th p :
  at_pc th = p ->
  in_block th
  = match p with AtAcquire | Returned _ => false | _ => true end.
Proof. intros Hp. unfold in_block. now rewrite Hp. Qed.

(** The cases of a lookup after thread [i] has moved. *)
Ltac moved Hi Hj :=
  destruct (lookup_moved _ _ _ _ _ _ Hi Hj) as [[-> ->] | [? ?]].

Lemma inv_step i y : inv y -> inv (step i y).
Proof.
  intros Hinv. pose proof Hinv as [Hlock Hflag Hone Hpast Hopen].
  unfold step. destruct (threads y !! i) as [th |] eqn:Hi;
    [| exact Hinv].
  assert (Hsole : forall j th', threads y !! j = Some th' ->
             in_block th = true -> in_block th' = true -> j = i).
  { intros j th' Hj Hb Hb'. pose proof (Hlock _ _ Hi Hb) as E1.
    pose proof (Hlock _ _ Hj Hb') as E2. congruence. }
  assert (Hnot : forall j th', threads y !! j = Some th' ->
             in_block th = true -> j <> i -> in_block th' = false).
  { intros j th' Hj Hb Hne. destruct (in_block th') eqn:Hb'; [| reflexivity].
    exfalso. apply Hne. eapply Hsole; eauto. }
  destruct (at_pc th) eqn:Hpc.
  - (* AtAcquire *)
    destruct (lock y) as [holder |] eqn:Hl; [exact Hinv |].
    assert (Hfree : forall j th', threads y !! j = Some th' ->
               in_block th' = false).
    { intros j th' Hj. destruct (in_block th') eqn:Hb; [| reflexivity].
      specialize (Hlock _ _ Hj Hb). congruence. }
    pose proof (total_wins_move y i th AtCheck (Some i) (recorder y) 0 0 Hi
                  (wins_of _ _ _ Hpc eq_refl) eq_refl) as Hs.
    split; simpl.
    + intros j th' Hj Hb. moved Hi Hj; [reflexivity |].
      rewrite (Hfree j th') in Hb by assumption. discriminate.
    + intros H. apply Hflag. lia.
    + lia.
    + intros j th' Hj Hp. moved Hi Hj.
      * simpl in Hp. destruct Hp; discriminate.
      * assert (Hf : in_block th' = false) by eauto.
        destruct Hp as [Hp | Hp]; rewrite (in_block_of _ _ Hp) in Hf;
          discriminate.
    + intros j th' Hj Hp. moved Hi Hj; [discriminate |].
      assert (Hf : in_block th' = false) by eauto.
      rewrite (in_block_of _ _ Hp) in Hf. discriminate.
  - (* AtCheck *)
    assert (Hb : in_block th = true) by now rewrite (in_block_of _ _ Hpc).
    destruct (AudioRecorder.is_recording (recorder y)) eqn:Hrec.
    + pose proof (total_wins_move y i th (AtRelease false) (lock y)
                    (recorder y) 0 0 Hi
                    (wins_of _ _ _ Hpc eq_refl) eq_refl) as Hs.
      split; simpl.
      * intros j th' Hj Hb'. moved Hi Hj; eauto.
      * intros _. exact Hrec.
      * lia.
      * intros j th' Hj Hp. moved Hi Hj.
        -- simpl in Hp. destruct Hp; discriminate.
        -- assert (Hf : in_block th' = false) by eauto.
           destruct Hp as [Hp | Hp]; rewrite (in_block_of _ _ Hp) in Hf;
             discriminate.
      * intros. exact Hrec.
    + assert (Hzero : total_wins y = 0%nat).
      { destruct (total_wins y) eqn:Hw; [reflexivity |].
        assert (Hpos : (0 < S n)%nat) by lia. apply Hflag in Hpos.
        congruence. }
      pose proof (total_wins_move y i th AtSet (lock y) (recorder y) 0 0 Hi
                    (wins_of _ _ _ Hpc eq_refl) eq_refl) as Hs.
      split; simpl.
      * intros j th' Hj Hb'. moved Hi Hj; eauto.
      * lia.
      * lia.
      * intros. lia.
      * intros j th' Hj Hp. moved Hi Hj; [discriminate |].
        assert (Hf : in_block th' = false) by eauto.
        rewrite (in_block_of _ _ Hp) in Hf. discriminate.
  - (* AtSet *)
    assert (Hb : in_block th = true) by now rewrite (in_block_of _ _ Hpc).
    assert (Hzero : total_wins y = 0%nat) by (eapply Hpast; eauto).
    pose proof (total_wins_move y i th AtOpen (lock y)
                  (AudioRecorder.begin_session (auto_stop th) (recorder y))
                  0 0 Hi (wins_of _ _ _ Hpc eq_refl) eq_refl) as Hs.
    split; simpl.
    + intros j th' Hj Hb'. moved Hi Hj; eauto.
    + reflexivity.
    + lia.
    + intros. lia.
    + reflexivity.
  - (* AtOpen *)
    assert (Hb : in_block th = true) by now rewrite (in_block_of _ _ Hpc).
    assert (Hzero : total_wins y = 0%nat) by (eapply Hpast; eauto).
    assert (Hrec : AudioRecorder.is_recording (recorder y) = true)
      by (eapply Hopen; eauto).
    destruct (AudioRecorder.open_device (dev th) (recorder y))
      as [[r s'] ev] eqn:Hdev.
    assert (Hr : r = true -> AudioRecorder.is_recording s' = true).
    { unfold AudioRecorder.open_device in Hdev.
      destruct (dev th); inversion Hdev; subst; simpl; auto; discriminate. }
    assert (Hw' : wins (at_ (AtRelease r) th) = (if r then 1 else 0)%nat)
      by now destruct r.
    pose proof (total_wins_move y i th (AtRelease r) (lock y) s' 0
                  _ Hi (wins_of _ _ _ Hpc eq_refl) Hw') as Hs.
    split; simpl.
    + intros j th' Hj Hb'. moved Hi Hj; eauto.
    + destruct r; [auto | lia].
    + destruct r; lia.
    + intros j th' Hj Hp. moved Hi Hj.
      * simpl in Hp. destruct Hp; discriminate.
      * assert (Hf : in_block th' = false) by eauto.
        destruct Hp as [Hp | Hp]; rewrite (in_block_of _ _ Hp) in Hf;
          discriminate.
    + intros j th' Hj Hp. moved Hi Hj; [discriminate |].
      assert (Hf : in_block th' = false) by eauto.
      rewrite (in_block_of _ _ Hp) in Hf. discriminate.
  - (* AtRelease *)
    assert (Hb : in_block th = true) by now rewrite (in_block_of _ _ Hpc).
    assert (Hw : wins th = (if r then 1 else 0)%nat)
      by (apply (wins_of _ _ _ Hpc); now destruct r).
    assert (Hw' : wins (at_ (Returned r) th) = (if r then 1 else 0)%nat)
      by now destruct r.
    pose proof (total_wins_move y i th (Returned r) None (recorder y)
                  _ _ Hi Hw Hw') as Hs.
    split; simpl.
    + intros j th' Hj Hb'. moved Hi Hj; [discriminate |].
      rewrite (Hnot j th') in Hb' by assumption. discriminate.
    + intros H. apply Hflag. lia.
    + lia.
    + intros j th' Hj Hp. moved Hi Hj.
      * simpl in Hp. destruct Hp; discriminate.
      * assert (Hf : in_block th' = false) by eauto.
        destruct Hp as [Hp | Hp]; rewrite (in_block_of _ _ Hp) in Hf;
          discriminate.
    + intros j th' Hj Hp. moved Hi Hj; [discriminate |].
      assert (Hf : in_block th' = false) by eauto.
      rewrite (in_block_of _ _ Hp) in Hf. discriminate.
  - (* Returned *)
    exact Hinv.
Qed.

Lemma inv_run schedule y : inv y -> inv (run schedule y).
Proof.
  revert y. induction schedule as [| i rest IH]; intros y H; simpl; auto.
  apply IH, inv_step, H.
Qed.

Lemma successes_le_wins y : (successes y <= total_wins y)%nat.
Proof.
  unfold successes, total_wins. induction (threads y) as [| th l IH]; simpl.
  - constructor.
  - destruct (succeeded th) eqn:E.
    + rewrite filter_cons_True by assumption. simpl.
      assert (wins th = 1%nat).
      { unfold succeeded in E. unfold wins.
        destruct (at_pc th) as [| | | | [] | []]; congruence. }
      lia.
    + rewrite filter_cons_False by congruence. lia.
Qed.

End Interleaving.

Section InterleavingResults.
Import Threads ThreadsInv.

Lemma run_at_most_one_success s reqs schedule :
  (successes (run schedule (initial s reqs)) <= 1)%nat.
Proof.
  pose proof (inv_run schedule _ (inv_initial s reqs)) as H.
  pose proof (successes_le_wins (run schedule (initial s reqs))).
  pose proof (inv_one _ H). lia.
Qed.

Lemma run_mutual_exclusion s reqs schedule i j thi thj :
  let y := run schedule (initial s reqs) in
  threads y !! i = Some thi -> threads y !! j = Some thj ->
  in_block thi = true -> in_block thj = true -> i = j.
Proof.
  intros y Hi Hj Bi Bj.
  pose proof (inv_run schedule _ (inv_initial s reqs)) as H.
  pose proof (inv_lock _ H _ _ Hi Bi) as E1.
  pose proof (inv_lock _ H _ _ Hj Bj) as E2.
  fold y in E1, E2. congruence.
Qed.

Lemma held_off_step s i y :
  AudioRecorder.is_recording s = true -> held_off s y -> held_off s (step i y).
Proof.
  intros Hrec [Hr Hall]. unfold step.
  destruct (threads y !! i) as [th |] eqn:Hi; [| split; assumption].
  pose proof (Hall _ _ Hi) as Hth. unfold turned_away in Hth.
  assert (Hmove : forall p l,
             turned_away (at_ p th) = true ->
             held_off s {| lock := l; recorder := recorder y;
                           threads := <[i := at_ p th]> (threads y) |}).
  { intros p l Hp. split; [exact Hr |]. simpl. intros j th' Hj.
    destruct (lookup_moved _ _ _ _ _ _ Hi Hj) as [[_ ->] | [_ Hj']];
      [exact Hp | eauto]. }
  destruct (at_pc th) as [| | | | [] | []] eqn:Hpc; try discriminate.
  - destruct (lock y); [split; assumption | now apply Hmove].
  - replace (AudioRecorder.is_recording (recorder y)) with true
      by now rewrite Hr.
    now apply Hmove.
  - now apply Hmove.
  - split; assumption.
Qed.

Lemma run_while_active s reqs schedule :
  AudioRecorder.is_recording s = true ->
  recorder (run schedule (initial s reqs)) = s
  /\ successes (run schedule (initial s reqs)) = 0%nat.
Proof.
  intros Hrec.
  assert (H0 : held_off s (initial s reqs)).
  { split; [reflexivity |]. simpl. intros j th.
    rewrite list_lookup_fmap.
    destruct (reqs !! j) as [[d a] |]; simpl; intros H; inversion H; auto. }
  assert (H : held_off s (run schedule (initial s reqs))).
  { generalize dependent (initial s reqs). induction schedule as [| i rest IH];
      intros y Hy; simpl; [exact Hy |].
    apply IH. now apply held_off_step. }
  destruct H as [Hr Hall]. split; [exact Hr |].
  unfold successes.
  induction (threads (run schedule (initial s reqs))) as [| th l IHl];
    [reflexivity |].
  rewrite filter_cons_False.
  - apply IHl. intros j th' Hj. apply (Hall (S j)). exact Hj.
  - specialize (Hall 0%nat th eq_refl). unfold turned_away in Hall.
    unfold succeeded. destruct (at_pc th) as [| | | | [] | []]; congruence.
Qed.

(** A thread that runs alone does what the method does. *)
Lemma run_alone d a s :
  let y := run [0; 0; 0; 0; 0]%nat (initial s [(d, a)]) in
  let '(r, s', _) := AudioRecorder.start_recording d a s in
  recorder y = s' /\ threads y = [at_ (Returned r) (request d a)]
  /\ lock y = None.
Proof.
  destruct s as [rec str data sil tmo cb en].
  destruct rec, d; cbv; repeat split; reflexivity.
Qed.

End InterleavingResults.

(** ** C1: one session at a time *)

(** C1.  A [start_recording] call made while a session is active returns
    [False] and leaves the whole recorder state, the accumulated frames
    included, as it was; of any run of [start_recording] requests at most
    one returns [True]; and when the requests come from threads that the
    scheduler interleaves at will, the lock around the test and the
    assignment of the flag keeps at most one thread inside the block and
    lets at most one of them return [True] (none of them, with the recorder
    untouched, when a session was already active). *)
Theorem start_recording_single_session
    (s : AudioRecorder.t)
    (reqs : list (AudioRecorder.open_outcome * bool))
    (schedule : list nat) :
  (AudioRecorder.is_recording s = true ->
   (forall dev auto_stop,
       AudioRecorder.start_recording dev auto_stop s = (false, s, []))
   /\ AudioRecorder.start_many reqs s = (replicate (length reqs) false, s)
   /\ Threads.recorder (Threads.run schedule (Threads.initial s reqs)) = s
   /\ Threads.successes (Threads.run schedule (Threads.initial s reqs))
      = 0%nat)
  /\ (trues (fst (AudioRecorder.start_many reqs s)) <= 1)%nat
  /\ (let y := Threads.run schedule (Threads.initial s reqs) in
      (Threads.successes y <= 1)%nat
      /\ (forall i th, Threads.threads y !! i = Some th ->
                       Threads.in_block th = true -> Threads.lock y = Some i)
      /\ (forall i j thi thj,
             Threads.threads y !! i = Some thi ->
             Threads.threads y !! j = Some thj ->
             Threads.in_block thi = true -> Threads.in_block thj = true ->
             i = j)).
Proof.
  split; [| split; [| split; [| split]]].
  - intros H. split; [| split].
    + intros dev auto_stop. now apply start_recording_active.
    + now apply start_many_active.
    + now apply run_while_active.
  - apply start_many_at_most_one.
  - apply run_at_most_one_success.
  - intros i th. apply ThreadsInv.inv_lock, inv_run, inv_initial.
  - intros i j thi thj. apply run_mutual_exclusion.
Qed.

Lemma start_recording_single_session_witness :
  AudioRecorder.is_recording Scenario.active = true
  /\ AudioRecorder.start_recording AudioRecorder.OpenOk true Scenario.active
     = (false, Scenario.active, [])
  /\ AudioRecorder.audio_data
       (snd (fst (AudioRecorder.start_recording AudioRecorder.OpenOk true
                    Scenario.active)))
     = [Scenario.loud].
Proof.
  split; [reflexivity |].
  destruct (start_recording_single_session Scenario.active [] [])
    as [H _].
  destruct (H eq_refl) as [Hcall _].
  split.
  - apply Hcall.
  - rewrite Hcall. reflexivity.
Defined.

(** Two threads racing from an idle recorder: whatever the schedule, one
    of them at most comes back with [True]. *)
Example two_triggers_race :
  let reqs := [(AudioRecorder.OpenOk, false); (AudioRecorder.OpenOk, true)] in
  let y := Threads.run [0; 1; 0; 1; 0; 1; 0; 1; 0; 1; 1; 1; 1; 1]%nat
             (Threads.initial Scenario.idle reqs) in
  Threads.at_pc <$> Threads.threads y
  = [Threads.Returned true; Threads.Returned false].
Proof. reflexivity. Qed.

(** ** C2: stopping is idempotent *)

(** C2.  [stop_recording] on a recorder that is not recording returns
    [None] and changes no field of the state; and whatever the first
    [stop_recording] did, a second one immediately after it returns [None]
    and changes nothing, so that two calls leave the state one call
    leaves. *)
Theorem stop_recording_idempotent
    (s : AudioRecorder.t) (d1 d2 : AudioRecorder.close_outcome) :
  (AudioRecorder.is_recording s = false ->
   AudioRecorder.stop_recording d1 s = (None, s, []))
  /\ (let s1 := snd (fst (AudioRecorder.stop_recording d1 s)) in
      AudioRecorder.stop_recording d2 s1 = (None, s1, [])).
Proof.
  split.
  - apply stop_recording_idle.
  - apply stop_recording_idle, stop_recording_makes_idle.
Qed.

Lemma stop_recording_idempotent_witness :
  AudioRecorder.is_recording Scenario.idle = false
  /\ AudioRecorder.stop_recording AudioRecorder.CloseOk Scenario.idle
     = (None, Scenario.idle, []).
Proof.
  split; [reflexivity |].
  apply (proj1 (stop_recording_idempotent Scenario.idle
                  AudioRecorder.CloseOk AudioRecorder.CloseOk)).
  reflexivity.
Defined.

(** ** The audio callback *)

Section Callback.
Import AudioRecorder.

(** The callback only appends the frame and moves the silence timer: the
    flag, the stream and the session settings are those of the state it was
    given. *)
Lemma callback_frame `{np : Numpy} cfg chunk now s :
  is_recording s = true ->
  let s' := snd (fst (_audio_callback cfg chunk now s)) in
  audio_data s' = audio_data s ++ [chunk]
  /\ is_recording s' = true
  /\ stream s' = stream s
  /\ auto_stop_enabled s' = auto_stop_enabled s
  /\ auto_stop_callback s' = auto_stop_callback s
  /\ silence_timeout s' = silence_timeout s.
Proof.
  intros H. unfold _audio_callback. rewrite H. simpl.
  destruct (auto_stop_enabled s && auto_stop_callback s); simpl;
    [| repeat split; assumption].
  destruct (rms_below chunk (voice_activation_threshold cfg)); simpl;
    [| repeat split; assumption].
  destruct (silence_start s); simpl; [| repeat split; assumption].
  destruct (Qltb _ _); simpl; repeat split; assumption.
Qed.

Lemma callback_without_auto_stop `{np : Numpy} cfg chunk now s :
  is_recording s = true -> auto_stop_enabled s = false ->
  _audio_callback cfg chunk now s
  = (paContinue, set_audio_data (audio_data s ++ [chunk]) s, []).
Proof.
  intros H1 H2. unfold _audio_callback. rewrite H1. simpl. now rewrite H2.
Qed.

(** The frames a stream delivers are appended in order; a session without
    auto-stop receives all of them. *)
Lemma run_stream_frames `{np : Numpy} cfg inputs s :
  is_recording s = true ->
  exists n,
    audio_data (fst (run_stream cfg inputs s))
    = audio_data s ++ take n (fst <$> inputs)
    /\ is_recording (fst (run_stream cfg inputs s)) = true
    /\ stream (fst (run_stream cfg inputs s)) = stream s
    /\ (auto_stop_enabled s = false -> n = length inputs).
Proof.
  revert s. induction inputs as [| [chunk now] rest IH]; intros s H.
  - exists 0%nat. simpl. rewrite app_nil_r. auto.
  - simpl.
    destruct (callback_frame cfg chunk now s H) as (Ha & Hr & Hs & He & _).
    destruct (_audio_callback cfg chunk now s) as [[flag s'] ev] eqn:E.
    simpl in Ha, Hr, Hs, He. destruct flag.
    + destruct (IH s' Hr) as (n & Hn & Hrec & Hstr & Hall).
      destruct (run_stream cfg rest s') as [s'' ev']. simpl in *.
      exists (S n). simpl. rewrite Hn, Ha, <- app_assoc. simpl.
      repeat split; auto; try congruence.
      intros Hoff. f_equal. apply Hall. congruence.
    + exists 1%nat. simpl. rewrite take_0. repeat split; auto.
      intros Hoff. rewrite (callback_without_auto_stop _ _ _ _ H Hoff) in E.
      discriminate.
Qed.

Lemma start_recording_ok auto_stop s :
  is_recording s = false ->
  start_recording OpenOk auto_stop s
  = (true, set_stream true (begin_session auto_stop s), [PlaySound "start"]).
Proof. intros H. unfold start_recording. now rewrite H. Qed.

Lemma stop_recording_active s :
  is_recording s = true ->
  let '(r, s', ev) := stop_recording CloseOk s in
  r = match audio_data s with
      | [] => None
      | _ :: _ => Some (concat (audio_data s))
      end
  /\ is_recording s' = false /\ stream s' = false
  /\ audio_data s' = audio_data s
  /\ ev = [PlaySound "stop"].
Proof.
  intros H. unfold stop_recording. rewrite H. simpl.
  destruct s as [rec str data sil tmo cb en]. simpl in *.
  destruct str, data; simpl; repeat split; reflexivity.
Qed.

End Callback.

(** ** C3: what a stopped session returns *)

Section StopResult.
Import AudioRecorder.

Lemma controller_stop_outcome dev a :
  AudioRecorder.is_recording (App.audio_recorder a) = true ->
  App.on_close dev = CloseOk ->
  let buffer := concat (audio_data (App.audio_recorder a)) in
  let '(a', ev) := App.stop_recording_and_transcribe dev a in
  AudioRecorder.is_recording (App.audio_recorder a') = false
  /\ (In (SpawnTranscribe buffer) ev
      <-> (App.minimum_audio_length < length buffer)%nat)
  /\ (In (UpdateStatus "No audio captured" "orange") ev
      <-> (length buffer <= App.minimum_audio_length)%nat).
Proof.
  intros Hrec Hdev. unfold App.stop_recording_and_transcribe. rewrite Hdev.
  pose proof (stop_recording_active _ Hrec) as Hstop.
  destruct (stop_recording CloseOk (App.audio_recorder a))
    as [[r s'] ev0].
  destruct Hstop as (Hr & Hidle & _ & _ & Hev). subst ev0.
  unfold App.in_background. simpl.
  destruct (audio_data (App.audio_recorder a)) as [| f fs] eqn:Hdata.
  - subst r. simpl. split; [exact Hidle |].
    unfold App.minimum_audio_length.
    destruct (App.background_mode a); simpl; split; split;
      intros H; try lia; intuition (try discriminate).
  - subst r. cbv zeta. generalize (concat (f :: fs)). intros buf.
    destruct (App.minimum_audio_length <? length buf)%nat eqn:Hlen.
    + apply Nat.ltb_lt in Hlen. simpl App.audio_recorder.
      split; [exact Hidle |].
      destruct (App.background_mode a); simpl; split; split;
        intros H; try lia; intuition (try discriminate).
    + apply Nat.ltb_ge in Hlen. simpl App.audio_recorder.
      split; [exact Hidle |].
      destruct (App.background_mode a); simpl; split; split;
        intros H; try lia; intuition (try discriminate).
Qed.

End StopResult.

(** With the voice tests of [Vad.exact]. *)

Section Exact.
#[local] Existing Instance Vad.exact.

(** C3, as the specification states it, fails: a session that captured
    three one-sample frames is far below the minimum length the controller
    asks for, and [stop_recording] still returns its three samples. *)
Lemma stop_recording_returns_short_buffer :
  let s := fst (AudioRecorder.run_stream Scenario.cfg Scenario.three_frames
                  (snd (fst (AudioRecorder.start_recording
                               AudioRecorder.OpenOk false Scenario.idle)))) in
  AudioRecorder.is_recording s = true
  /\ (length (concat (AudioRecorder.audio_data s))
      < App.minimum_audio_length)%nat
  /\ fst (fst (AudioRecorder.stop_recording AudioRecorder.CloseOk s))
     = Some [1 # 2; 1 # 4; 1 # 8]%Q
  /\ fst (fst (AudioRecorder.stop_recording AudioRecorder.CloseOk s)) <> None.
Proof.
  cbv zeta. split; [reflexivity |]. split; [vm_compute; lia |].
  split; [reflexivity | discriminate].
Qed.

End Exact.

(** C3, amended.  When the device closes without an error, [stop_recording]
    on an active session returns the concatenation, in the order of their
    arrival, of exactly the frames delivered since the matching
    [start_recording] (all frames offered when the session has no
    auto-stop), leaves the recorder idle, and returns [None] only when no
    frame was delivered.  The minimum length is the controller's:
    [stop_recording_and_transcribe] hands the buffer on for transcription
    when it has more than 1000 samples and reports "No audio captured"
    otherwise. *)
Theorem stop_recording_returns_session_frames `{np : Numpy}
    (cfg : Config) (s0 : AudioRecorder.t) (auto_stop : bool)
    (inputs : list (AudioRecorder.frame * Q))
    (a : App.t) (dev : App.Device) :
  AudioRecorder.is_recording s0 = false ->
  let s1 := snd (fst (AudioRecorder.start_recording
                        AudioRecorder.OpenOk auto_stop s0)) in
  let s2 := fst (AudioRecorder.run_stream cfg inputs s1) in
  exists n,
    (auto_stop = false -> n = length inputs)
    /\ let frames := take n (fst <$> inputs) in
       AudioRecorder.audio_data s2 = frames
       /\ (let '(r, s3, _) :=
             AudioRecorder.stop_recording AudioRecorder.CloseOk s2 in
           r = match frames with
               | [] => None
               | _ :: _ => Some (concat frames)
               end
           /\ AudioRecorder.is_recording s3 = false)
       /\ (App.audio_recorder a = s2 ->
           App.on_close dev = AudioRecorder.CloseOk ->
           let '(a', ev) := App.stop_recording_and_transcribe dev a in
           App.is_recording a' = false
           /\ AudioRecorder.is_recording (App.audio_recorder a') = false
           /\ (In (SpawnTranscribe (concat frames)) ev
               <-> (App.minimum_audio_length < length (concat frames))%nat)
           /\ (In (UpdateStatus "No audio captured" "orange") ev
               <-> (length (concat frames)
                    <= App.minimum_audio_length)%nat)).
Proof.
  intros Hidle s1 s2.
  assert (Hs1 : s1 = AudioRecorder.set_stream true
                       (AudioRecorder.begin_session auto_stop s0)).
  { unfold s1. now rewrite start_recording_ok. }
  assert (Hrec1 : AudioRecorder.is_recording s1 = true) by now rewrite Hs1.
  destruct (run_stream_frames cfg inputs s1 Hrec1)
    as (n & Hdata & Hrec2 & _ & Hall).
  fold s2 in Hdata, Hrec2.
  assert (Hempty : AudioRecorder.audio_data s1 = []) by now rewrite Hs1.
  rewrite Hempty in Hdata. simpl in Hdata.
  exists n. split.
  { intros ->. apply Hall. now rewrite Hs1. }
  cbv zeta. split; [exact Hdata |]. split.
  - pose proof (stop_recording_active s2 Hrec2) as Hstop.
    destruct (AudioRecorder.stop_recording AudioRecorder.CloseOk s2)
      as [[r s3] ev].
    destruct Hstop as (Hr & Hi & _). rewrite Hdata in Hr. auto.
  - intros Ha Hdev. rewrite <- Ha in Hrec2.
    pose proof (controller_stop_outcome dev a Hrec2 Hdev) as Hc.
    cbv zeta in Hc. rewrite Ha, Hdata in Hc.
    assert (Hflag : App.is_recording
                      (fst (App.stop_recording_and_transcribe dev a)) = false).
    { unfold App.stop_recording_and_transcribe.
      destruct (AudioRecorder.stop_recording _ _) as [[[samples |] r] ev0];
        [destruct (_ <? _)%nat |]; reflexivity. }
    destruct (App.stop_recording_and_transcribe dev a) as [a' ev].
    simpl in Hflag. tauto.
Qed.

(** With the voice tests of [Vad.exact]. *)

Section Exact.
#[local] Existing Instance Vad.exact.

Lemma stop_recording_returns_session_frames_witness :
  AudioRecorder.is_recording Scenario.idle = false
  /\ exists n,
       (false = false -> n = 3%nat)
       /\ fst (fst (AudioRecorder.stop_recording AudioRecorder.CloseOk
                      (fst (AudioRecorder.run_stream Scenario.cfg
                              Scenario.three_frames
                              (snd (fst (AudioRecorder.start_recording
                                           AudioRecorder.OpenOk false
                                           Scenario.idle)))))))
          = match take n (fst <$> Scenario.three_frames) with
            | [] => None
            | _ :: _ => Some (concat (take n (fst <$> Scenario.three_frames)))
            end.
Proof.
  split; [reflexivity |].
  destruct (stop_recording_returns_session_frames Scenario.cfg Scenario.idle
              false Scenario.three_frames (App.init 2) Scenario.ok eq_refl)
    as (n & Hn & _ & Hstop & _).
  exists n. split; [exact Hn |].
  destruct (AudioRecorder.stop_recording _ _) as [[r s3] ev].
  simpl. destruct Hstop as [Hr _]. exact Hr.
Defined.

(** The scenario of the specification: start without auto-stop, three
    frames, stop. *)
Example three_frames_in_order :
  let s1 := snd (fst (AudioRecorder.start_recording
                        AudioRecorder.OpenOk false Scenario.idle)) in
  let s2 := fst (AudioRecorder.run_stream Scenario.cfg
                   [(Scenario.loud, 1); (Scenario.quiet, 2);
                    (Scenario.loud, 3)]%Q s1) in
  fst (fst (AudioRecorder.stop_recording AudioRecorder.CloseOk s2))
  = Some (Scenario.loud ++ Scenario.quiet ++ Scenario.loud).
Proof. reflexivity. Qed.

End Exact.

(** ** C4: the silence timer and the deferred stop *)

Section AutoStop.
Import AudioRecorder.

Variable cfg : Config.

Lemma callback_voiced `{np : Numpy} chunk now s :
  armed s -> rms_below chunk (voice_activation_threshold cfg) = false ->
  _audio_callback cfg chunk now s
  = (paContinue,
     set_silence_start None (set_audio_data (audio_data s ++ [chunk]) s), []).
Proof.
  intros (H1 & H2 & H3) Hv. unfold _audio_callback. rewrite H1. simpl.
  now rewrite H2, H3, Hv.
Qed.

Lemma callback_silence_begins `{np : Numpy} chunk now s :
  armed s -> silent cfg chunk -> silence_start s = None ->
  _audio_callback cfg chunk now s
  = (paContinue,
     set_silence_start (Some now)
       (set_audio_data (audio_data s ++ [chunk]) s), []).
Proof.
  intros (H1 & H2 & H3) Hv Hs. unfold _audio_callback. rewrite H1. simpl.
  now rewrite H2, H3, Hv, Hs.
Qed.

Lemma callback_silence_expired `{np : Numpy} chunk now s t0 :
  armed s -> silent cfg chunk -> silence_start s = Some t0 ->
  (silence_timeout s < now - t0)%Q ->
  _audio_callback cfg chunk now s
  = (paComplete, set_audio_data (audio_data s ++ [chunk]) s,
     [StartTimer (1 # 100) TriggerAutoStop]).
Proof.
  intros (H1 & H2 & H3) Hv Hs Ht. unfold _audio_callback. rewrite H1. simpl.
  rewrite H2, H3, Hv, Hs. simpl.
  apply Qltb_lt in Ht. now rewrite Ht.
Qed.

Lemma callback_silence_continues `{np : Numpy} chunk now s t0 :
  armed s -> silent cfg chunk -> silence_start s = Some t0 ->
  (now - t0 <= silence_timeout s)%Q ->
  _audio_callback cfg chunk now s
  = (paContinue, set_audio_data (audio_data s ++ [chunk]) s, []).
Proof.
  intros (H1 & H2 & H3) Hv Hs Ht. unfold _audio_callback. rewrite H1. simpl.
  rewrite H2, H3, Hv, Hs. simpl.
  apply Qltb_ge in Ht. now rewrite Ht.
Qed.

(** Whatever the frame, the callback emits nothing unless it completes the
    stream, and then it emits the one timer. *)
Lemma callback_events `{np : Numpy} chunk now s :
  match _audio_callback cfg chunk now s with
  | (paContinue, _, ev) => ev = []
  | (paComplete, _, ev) =>
      ev = [] \/ ev = [StartTimer (1 # 100) TriggerAutoStop]
  end.
Proof.
  unfold _audio_callback.
  destruct (is_recording s); simpl; [| now left].
  destruct (auto_stop_enabled s && auto_stop_callback s); [| reflexivity].
  destruct (rms_below _ _); [| reflexivity].
  destruct (silence_start s); [| reflexivity].
  destruct (Qltb _ _); [now right | reflexivity].
Qed.

Lemma run_stream_events `{np : Numpy} inputs s :
  snd (run_stream cfg inputs s) = []
  \/ snd (run_stream cfg inputs s) = [StartTimer (1 # 100) TriggerAutoStop].
Proof.
  revert s. induction inputs as [| [chunk now] rest IH]; intros s; simpl.
  - now left.
  - pose proof (callback_events chunk now s) as Hev.
    destruct (_audio_callback cfg chunk now s) as [[[] s'] ev].
    + subst ev. specialize (IH s').
      destruct (run_stream cfg rest s') as [s'' ev']. exact IH.
    + exact Hev.
Qed.

Lemma run_stream_at_most_one_timer `{np : Numpy} inputs s :
  (count is_auto_stop_timer (snd (run_stream cfg inputs s)) <= 1)%nat.
Proof.
  destruct (run_stream_events inputs s) as [-> | ->]; vm_compute; lia.
Qed.

Lemma armed_after `{np : Numpy} chunk now s :
  armed s -> armed (snd (fst (_audio_callback cfg chunk now s))).
Proof.
  intros (H1 & H2 & H3).
  destruct (callback_frame cfg chunk now s H1) as (_ & R & _ & E & C & _).
  unfold armed. rewrite R, E, C. auto.
Qed.

(** Silence that outlasts the timeout schedules the stop. *)
Lemma silence_outlasts `{np : Numpy} inputs s t0 :
  armed s -> silence_start s = Some t0 ->
  Forall (fun i => silent cfg (fst i)) inputs ->
  Exists (fun i => (silence_timeout s < snd i - t0)%Q) inputs ->
  snd (run_stream cfg inputs s) = [StartTimer (1 # 100) TriggerAutoStop].
Proof.
  revert s. induction inputs as [| [chunk now] rest IH];
    intros s Ha Hs Hall Hex.
  - inversion Hex.
  - inversion Hall as [| ? ? Hc Hrest]; subst. simpl in Hc. simpl.
    destruct (Qlt_le_dec (silence_timeout s) (now - t0)) as [Hlt | Hle].
    + now rewrite (callback_silence_expired _ _ _ _ Ha Hc Hs Hlt).
    + rewrite (callback_silence_continues _ _ _ _ Ha Hc Hs Hle).
      inversion Hex as [? ? Hhd | ? ? Htl]; subst.
      * simpl in Hhd. lra.
      * specialize (IH (set_audio_data (audio_data s ++ [chunk]) s)).
        destruct (run_stream cfg rest _) as [s'' ev'] eqn:E.
        simpl. apply IH; auto.
Qed.

Lemma callback_in_window `{np : Numpy} lo chunk now s :
  armed s ->
  (forall t0, silence_start s = Some t0 -> (lo <= t0)%Q) ->
  (lo <= now /\ now <= lo + silence_timeout s)%Q ->
  exists s',
    _audio_callback cfg chunk now s = (paContinue, s', [])
    /\ armed s' /\ silence_timeout s' = silence_timeout s
    /\ (forall t0, silence_start s' = Some t0 -> (lo <= t0)%Q).
Proof.
  intros Ha Hs [Hlo Hhi].
  pose proof (armed_after chunk now s Ha) as Ha'.
  destruct (rms_below chunk (voice_activation_threshold cfg)) eqn:Hv.
  - destruct (silence_start s) as [t0 |] eqn:Hst.
    + assert (Hle : (now - t0 <= silence_timeout s)%Q).
      { specialize (Hs t0 eq_refl). lra. }
      pose proof (callback_silence_continues chunk now s t0 Ha Hv Hst Hle) as E.
      rewrite E in Ha'. eexists. split; [exact E |].
      split; [exact Ha' |]. split; [reflexivity |].
      simpl. intros t1 Ht1. apply Hs. congruence.
    + pose proof (callback_silence_begins chunk now s Ha Hv Hst) as E.
      rewrite E in Ha'. eexists. split; [exact E |].
      split; [exact Ha' |]. split; [reflexivity |].
      simpl. intros t1 Ht1. inversion Ht1; subst. exact Hlo.
  - pose proof (callback_voiced chunk now s Ha Hv) as E.
    rewrite E in Ha'. eexists. split; [exact E |].
    split; [exact Ha' |]. split; [reflexivity |].
    simpl. intros t1 Ht1. discriminate.
Qed.

(** Frames that all fall within one timeout of each other never schedule
    the stop. *)
Lemma no_stop_in_window `{np : Numpy} lo inputs s :
  armed s ->
  (forall t0, silence_start s = Some t0 -> (lo <= t0)%Q) ->
  Forall (fun i => (lo <= snd i /\ snd i <= lo + silence_timeout s)%Q) inputs ->
  snd (run_stream cfg inputs s) = [].
Proof.
  revert s. induction inputs as [| [chunk now] rest IH];
    intros s Ha Hs Hall; [reflexivity |].
  inversion Hall as [| ? ? Hnow Hrest]; subst. simpl in Hnow. simpl.
  destruct (callback_in_window lo chunk now s Ha Hs Hnow)
    as (s' & E & Ha' & Htm & Hs').
  rewrite E. specialize (IH s' Ha' Hs').
  destruct (run_stream cfg rest s') as [s'' ev']. simpl in *.
  apply IH. rewrite Htm. exact Hrest.
Qed.

End AutoStop.

(** The application registers the auto-stop callback when it is built, and
    no method of the recorder or of the controller unregisters it: every
    session started with auto-stop is armed. *)
Lemma callback_stays_registered `{np : Numpy} cfg dev auto_stop chunk now
    (a : App.t) :
  AudioRecorder.auto_stop_callback (App.audio_recorder (App.init 2)) = true
  /\ (AudioRecorder.auto_stop_callback (App.audio_recorder a) = true ->
      AudioRecorder.auto_stop_callback
        (App.audio_recorder (fst (App.start_recording dev auto_stop a))) = true
      /\ AudioRecorder.auto_stop_callback
           (App.audio_recorder (fst (App.stop_recording_and_transcribe dev a)))
         = true
      /\ AudioRecorder.auto_stop_callback
           (snd (fst (AudioRecorder._audio_callback cfg chunk now
                        (App.audio_recorder a)))) = true).
Proof.
  split; [reflexivity |]. intros H. split; [| split].
  - unfold App.start_recording, AudioRecorder.start_recording.
    destruct (AudioRecorder.is_recording (App.audio_recorder a));
      [exact H |].
    destruct (App.on_open dev); exact H.
  - unfold App.stop_recording_and_transcribe, AudioRecorder.stop_recording.
    destruct (AudioRecorder.is_recording (App.audio_recorder a)); simpl;
      [| exact H].
    destruct (AudioRecorder.stream (App.audio_recorder a)),
      (App.on_close dev),
      (AudioRecorder.audio_data (App.audio_recorder a));
      simpl; try destruct (_ <? _)%nat; exact H.
  - unfold AudioRecorder._audio_callback.
    destruct (negb _); [exact H |]. simpl.
    destruct (_ && _); [| exact H].
    destruct (rms_below _ _); [| exact H].
    destruct (AudioRecorder.silence_start _); [| exact H].
    destruct (Qltb _ _); exact H.
Qed.

Lemma armed_session timeout s :
  AudioRecorder.auto_stop_callback s = true ->
  AudioRecorder.is_recording s = false ->
  let s' := snd (fst (AudioRecorder.start_recording AudioRecorder.OpenOk
                        true s)) in
  AudioRecorder.armed s' /\ AudioRecorder.silence_start s' = None
  /\ (AudioRecorder.silence_timeout s = timeout ->
      AudioRecorder.silence_timeout s' = timeout).
Proof.
  intros Hcb Hidle. rewrite (start_recording_ok _ _ Hidle). simpl.
  unfold AudioRecorder.armed. simpl. auto.
Qed.

(** C4.  In a session with auto-stop armed, the audio callback appends the
    frame and never stops the session itself; a frame for which the test
    [rms < threshold] fails, as NumPy evaluates it, clears the silence
    timer; a silent frame, one for which the test holds, met with
    the timer unset sets it to the current time; a silent frame met with the
    timer set leaves it, and when the time elapsed since then exceeds
    [silence_timeout] it starts the timer that will call the stop later and
    completes the stream.  A stream therefore schedules at most one stop;
    silence that outlasts the timeout schedules exactly one, and after a
    voiced frame nothing is scheduled for as long as the frames stay within
    one timeout of it. *)
Theorem auto_stop_after_silence `{np : Numpy}
    (cfg : Config) (s : AudioRecorder.t)
    (chunk : AudioRecorder.frame) (now : Q)
    (inputs : list (AudioRecorder.frame * Q)) :
  AudioRecorder.armed s ->
  let flag := fst (fst (AudioRecorder._audio_callback cfg chunk now s)) in
  let s' := snd (fst (AudioRecorder._audio_callback cfg chunk now s)) in
  let ev := snd (AudioRecorder._audio_callback cfg chunk now s) in
  let timer := StartTimer (1 # 100) TriggerAutoStop in
  (AudioRecorder.is_recording s' = true
   /\ AudioRecorder.stream s' = AudioRecorder.stream s
   /\ AudioRecorder.audio_data s' = AudioRecorder.audio_data s ++ [chunk])
  /\ (rms_below chunk (voice_activation_threshold cfg) = false ->
      AudioRecorder.silence_start s' = None
      /\ flag = AudioRecorder.paContinue /\ ev = [])
  /\ (AudioRecorder.silent cfg chunk ->
      AudioRecorder.silence_start s = None ->
      AudioRecorder.silence_start s' = Some now
      /\ flag = AudioRecorder.paContinue /\ ev = [])
  /\ (AudioRecorder.silent cfg chunk ->
      forall t0, AudioRecorder.silence_start s = Some t0 ->
      AudioRecorder.silence_start s' = Some t0
      /\ ((AudioRecorder.silence_timeout s < now - t0)%Q ->
          flag = AudioRecorder.paComplete /\ ev = [timer])
      /\ ((now - t0 <= AudioRecorder.silence_timeout s)%Q ->
          flag = AudioRecorder.paContinue /\ ev = []))
  /\ (count is_auto_stop_timer
        (snd (AudioRecorder.run_stream cfg inputs s)) <= 1)%nat
  /\ (AudioRecorder.silence_start s = None ->
      AudioRecorder.silent cfg chunk ->
      Forall (fun i => AudioRecorder.silent cfg (fst i)) inputs ->
      Exists (fun i => (AudioRecorder.silence_timeout s < snd i - now)%Q)
        inputs ->
      snd (AudioRecorder.run_stream cfg ((chunk, now) :: inputs) s) = [timer])
  /\ (rms_below chunk (voice_activation_threshold cfg) = false ->
      Forall (fun i => (now <= snd i
                        /\ snd i <= now + AudioRecorder.silence_timeout s)%Q)
        inputs ->
      snd (AudioRecorder.run_stream cfg ((chunk, now) :: inputs) s) = []).
Proof.
  intros Ha. cbv zeta.
  pose proof (callback_frame cfg chunk now s (proj1 Ha))
    as (Hdata & Hrec & Hstr & _).
  split; [auto |]. split; [| split; [| split; [| split; [| split]]]].
  - intros Hv. now rewrite (callback_voiced cfg chunk now s Ha Hv).
  - intros Hv Hs. now rewrite (callback_silence_begins cfg chunk now s Ha Hv Hs).
  - intros Hv t0 Hs.
    destruct (Qlt_le_dec (AudioRecorder.silence_timeout s) (now - t0))
      as [Hlt | Hle].
    + rewrite (callback_silence_expired cfg chunk now s t0 Ha Hv Hs Hlt).
      simpl. repeat split; auto; intros; lra.
    + rewrite (callback_silence_continues cfg chunk now s t0 Ha Hv Hs Hle).
      simpl. repeat split; auto; intros; lra.
  - apply run_stream_at_most_one_timer.
  - intros Hs Hv Hall Hex. simpl.
    rewrite (callback_silence_begins cfg chunk now s Ha Hv Hs).
    pose proof (armed_after cfg chunk now s Ha) as Ha'.
    rewrite (callback_silence_begins cfg chunk now s Ha Hv Hs) in Ha'.
    simpl in Ha'.
    pose proof (silence_outlasts cfg inputs _ now Ha' eq_refl Hall Hex) as H.
    destruct (AudioRecorder.run_stream cfg inputs _) as [s'' ev']. exact H.
  - intros Hv Hall. simpl.
    rewrite (callback_voiced cfg chunk now s Ha Hv).
    pose proof (armed_after cfg chunk now s Ha) as Ha'.
    rewrite (callback_voiced cfg chunk now s Ha Hv) in Ha'. simpl in Ha'.
    assert (Hnone : forall t0,
               AudioRecorder.silence_start
                 (AudioRecorder.set_silence_start None
                    (AudioRecorder.set_audio_data
                       (AudioRecorder.audio_data s ++ [chunk]) s)) = Some t0 ->
               (now <= t0)%Q) by (intros t0 H; discriminate).
    pose proof (no_stop_in_window cfg now inputs _ Ha' Hnone Hall) as H.
    destruct (AudioRecorder.run_stream cfg inputs _) as [s'' ev']. exact H.
Qed.

(** With the voice tests of [Vad.exact]. *)

Section Exact.
#[local] Existing Instance Vad.exact.

Lemma auto_stop_after_silence_witness :
  AudioRecorder.armed Scenario.listening
  /\ snd (AudioRecorder.run_stream Scenario.cfg
            [(Scenario.quiet, 0); (Scenario.quiet, 1);
             (Scenario.quiet, 21 # 10); (Scenario.quiet, 3)]%Q
            Scenario.listening)
     = [StartTimer (1 # 100) TriggerAutoStop].
Proof.
  assert (Ha : AudioRecorder.armed Scenario.listening)
    by (repeat split; reflexivity).
  split; [exact Ha |].
  destruct (auto_stop_after_silence Scenario.cfg Scenario.listening
              Scenario.quiet 0
              [(Scenario.quiet, 1); (Scenario.quiet, 21 # 10);
               (Scenario.quiet, 3)]%Q Ha)
    as (_ & _ & _ & _ & _ & Hstop & _).
  apply Hstop.
  - reflexivity.
  - reflexivity.
  - repeat constructor.
  - apply Exists_cons_tl, Exists_cons_hd. reflexivity.
Defined.

(** The scenario of the specification, timeout 2.0 s.  Silent frames every
    half second: the frame at 2.0 s is not yet past the timeout, the one at
    2.5 s schedules the stop, and the stream ends there. *)
Example silence_for_more_than_two_seconds :
  AudioRecorder.run_stream Scenario.cfg
    [(Scenario.quiet, 0); (Scenario.quiet, 1 # 2); (Scenario.quiet, 1);
     (Scenario.quiet, 3 # 2); (Scenario.quiet, 2); (Scenario.quiet, 5 # 2);
     (Scenario.quiet, 3)]%Q
    Scenario.listening
  = (AudioRecorder.set_silence_start (Some 0%Q)
       (AudioRecorder.set_audio_data (replicate 6 Scenario.quiet)
          Scenario.listening),
     [StartTimer (1 # 100) TriggerAutoStop]).
Proof. reflexivity. Qed.

(** One voiced frame at 1.9 s: the timer restarts at 2.0 s and nothing is
    scheduled at 2.0 s, nor for the two seconds that follow. *)
Example voice_at_one_point_nine :
  snd (AudioRecorder.run_stream Scenario.cfg
         [(Scenario.quiet, 0); (Scenario.quiet, 1);
          (Scenario.loud, 19 # 10); (Scenario.quiet, 2);
          (Scenario.quiet, 3); (Scenario.quiet, 4)]%Q
         Scenario.listening)
  = [].
Proof. reflexivity. Qed.

End Exact.

(** ** The controller *)

Section Controller.

Lemma stop_clears_flags dev a :
  let a' := fst (App.stop_recording_and_transcribe dev a) in
  App.is_recording a' = false /\ App.is_toggle_mode a' = false
  /\ App.background_mode a' = App.background_mode a
  /\ App.audio_recorder a'
     = snd (fst (AudioRecorder.stop_recording (App.on_close dev)
                   (App.audio_recorder a))).
Proof.
  unfold App.stop_recording_and_transcribe.
  destruct (AudioRecorder.stop_recording _ _) as [[[samples |] r] ev0];
    [destruct (_ <? _)%nat |]; simpl; auto.
Qed.

Lemma count_app p (l k : list event) :
  count p (l ++ k) = (count p l + count p k)%nat.
Proof. unfold count. now rewrite filter_app, length_app. Qed.

Lemma recorder_stop_events dev r :
  count is_processing_status
    (snd (AudioRecorder.stop_recording dev r)) = 0%nat.
Proof.
  unfold AudioRecorder.stop_recording.
  destruct (negb _); [reflexivity |]. simpl.
  destruct (AudioRecorder.stream r), dev, (AudioRecorder.audio_data r);
    reflexivity.
Qed.

Lemma recorder_start_events dev auto_stop r :
  count is_processing_status
    (snd (AudioRecorder.start_recording dev auto_stop r)) = 0%nat.
Proof.
  unfold AudioRecorder.start_recording.
  destruct (AudioRecorder.is_recording r); [reflexivity |].
  destruct dev; reflexivity.
Qed.

(** Every run of the stop path announces itself once. *)
Lemma stop_announced dev a :
  count is_processing_status
    (snd (App.stop_recording_and_transcribe dev a)) = 1%nat.
Proof.
  unfold App.stop_recording_and_transcribe.
  pose proof (recorder_stop_events (App.on_close dev) (App.audio_recorder a))
    as H0.
  destruct (AudioRecorder.stop_recording _ _) as [[audio r] ev0].
  simpl in H0. unfold App.in_background. simpl.
  destruct audio as [samples |]; [destruct (_ <? _)%nat |];
    destruct (App.background_mode a); simpl;
    rewrite !count_app, H0; reflexivity.
Qed.

Lemma start_not_announced dev auto_stop a :
  count is_processing_status
    (snd (App.start_recording dev auto_stop a)) = 0%nat.
Proof.
  unfold App.start_recording.
  pose proof (recorder_start_events (App.on_open dev) auto_stop
                (App.audio_recorder a)) as H0.
  destruct (AudioRecorder.start_recording _ _ _) as [[[] r] ev0];
    simpl in *; unfold App.in_background; simpl.
  - destruct (App.background_mode a); rewrite !count_app, H0; reflexivity.
  - rewrite count_app, H0. reflexivity.
Qed.

Lemma start_sets_recording dev auto_stop a :
  App.on_open dev = AudioRecorder.OpenOk ->
  AudioRecorder.is_recording (App.audio_recorder a) = false ->
  let a' := fst (App.start_recording dev auto_stop a) in
  App.is_recording a' = true
  /\ App.is_toggle_mode a' = App.is_toggle_mode a
  /\ AudioRecorder.is_recording (App.audio_recorder a') = true.
Proof.
  intros Hdev Hidle. unfold App.start_recording.
  rewrite Hdev, (start_recording_ok _ _ Hidle). simpl. auto.
Qed.

End Controller.

(** ** C5: toggle mode takes precedence over the push-to-talk release *)

(** C5.  While a recording is active in toggle mode, the push-to-talk
    deactivation path does not run the stop path: [on_push_to_talk_end]
    returns with the controller unchanged and no effect, and so do the
    push-to-talk handler and the key-release handler of the hotkey manager,
    which reach the controller only through it.  In any state,
    [on_push_to_talk_end] runs the stop path (exactly once) if and only if a
    recording is active and toggle mode is off; otherwise it does nothing. *)
Theorem push_to_talk_release_yields_to_toggle
    (cfg : Config) (dev : App.Device) (a : App.t)
    (keys : gset string) (h : PushToTalk.t)
    (e : HotkeyManager.key_event) (m : HotkeyManager.t) :
  (App.is_recording a = true -> App.is_toggle_mode a = true ->
   App.on_push_to_talk_end dev a = (a, [])
   /\ (snd (fst (PushToTalk.check_activation cfg dev keys h a)) = a
       /\ snd (PushToTalk.check_activation cfg dev keys h a) = [])
   /\ (snd (fst (HotkeyManager._on_key_release cfg e m a)) = a
       /\ snd (HotkeyManager._on_key_release cfg e m a) = []))
  /\ (count is_processing_status (snd (App.on_push_to_talk_end dev a)) = 1%nat
      <-> App.is_recording a = true /\ App.is_toggle_mode a = false)
  /\ (count is_processing_status (snd (App.on_push_to_talk_end dev a)) = 0%nat
      <-> App.on_push_to_talk_end dev a = (a, [])).
Proof.
  assert (Hptt : forall d ks hh,
             App.is_recording a = true -> App.is_toggle_mode a = true ->
             snd (fst (PushToTalk.check_activation cfg d ks hh a)) = a
             /\ snd (PushToTalk.check_activation cfg d ks hh a) = []).
  { intros d ks hh Hrec Htog. unfold PushToTalk.check_activation.
    destruct (negb (PushToTalk.enabled hh)); [auto |].
    unfold App.on_push_to_talk_start, App.on_push_to_talk_end.
    rewrite Hrec, Htog. simpl.
    destruct (chord_held _ _), (PushToTalk.is_active hh); simpl; auto. }
  split; [| split].
  - intros Hrec Htog. split; [| split].
    + unfold App.on_push_to_talk_end. now rewrite Hrec, Htog.
    + now apply Hptt.
    + unfold HotkeyManager._on_key_release.
      destruct (negb (HotkeyManager.enabled m)); [auto |].
      destruct (HotkeyManager.key_name e) as [k |]; [| auto].
      destruct (bool_decide (k = EmptyString)); [auto |].
      destruct (Hptt (HotkeyManager.device e)
                  (HotkeyManager.current_keys m ∖ {[k]})
                  (HotkeyManager.push_to_talk m) Hrec Htog) as [H1 H2].
      destruct (PushToTalk.check_activation _ _ _ _ _) as [[[r p] a1] ev1].
      simpl in *. auto.
  - unfold App.on_push_to_talk_end.
    destruct (App.is_recording a), (App.is_toggle_mode a); simpl;
      rewrite ?stop_announced; split; intros H;
      try discriminate; try (destruct H; discriminate); auto.
  - unfold App.on_push_to_talk_end.
    destruct (App.is_recording a && negb (App.is_toggle_mode a)).
    + rewrite stop_announced. split; [discriminate |].
      intros H. pose proof (stop_announced dev a) as Hc. rewrite H in Hc.
      discriminate.
    + split; reflexivity.
Qed.

Lemma push_to_talk_release_yields_to_toggle_witness :
  let a := fst (App.toggle_recording Scenario.ok (App.init 2)) in
  App.is_recording a = true /\ App.is_toggle_mode a = true
  /\ App.on_push_to_talk_end Scenario.ok a = (a, []).
Proof.
  cbv zeta. split; [reflexivity |]. split; [reflexivity |].
  apply (push_to_talk_release_yields_to_toggle Scenario.cfg Scenario.ok
           (fst (App.toggle_recording Scenario.ok (App.init 2)))
           ∅ PushToTalk.init
           {| HotkeyManager.key_name := None; HotkeyManager.at_time := 0;
              HotkeyManager.device := Scenario.ok |}
           HotkeyManager.init); reflexivity.
Defined.

(** ** C10: the stop path clears both flags *)

(** C10.  Every run of [stop_recording_and_transcribe] leaves both
    [is_recording] and [is_toggle_mode] false, whatever the controller and
    the recorder held, whether or not audio was captured and whether or not
    the device closed cleanly; this holds for each trigger that reaches the
    stop path (the toggle, the push-to-talk release, the auto-stop timer).
    After it, a push-to-talk press starts a session outside toggle mode and
    the release stops it. *)
Theorem stop_clears_recording_and_toggle
    (dev dev1 dev2 : App.Device) (a : App.t) :
  let a' := fst (App.stop_recording_and_transcribe dev a) in
  (App.is_recording a' = false /\ App.is_toggle_mode a' = false)
  /\ (App.is_recording a = true ->
      App.is_recording (fst (App.toggle_recording dev a)) = false
      /\ App.is_toggle_mode (fst (App.toggle_recording dev a)) = false)
  /\ (App.is_recording a = true ->
      App.is_recording (fst (App._on_auto_stop_triggered dev a)) = false
      /\ App.is_toggle_mode (fst (App._on_auto_stop_triggered dev a)) = false)
  /\ (App.is_recording a = true -> App.is_toggle_mode a = false ->
      App.is_recording (fst (App.on_push_to_talk_end dev a)) = false
      /\ App.is_toggle_mode (fst (App.on_push_to_talk_end dev a)) = false)
  /\ (App.on_open dev1 = AudioRecorder.OpenOk ->
      let a1 := fst (App.on_push_to_talk_start dev1 a') in
      let a2 := fst (App.on_push_to_talk_end dev2 a1) in
      (App.is_recording a1 = true /\ App.is_toggle_mode a1 = false)
      /\ (App.is_recording a2 = false /\ App.is_toggle_mode a2 = false)
      /\ count is_processing_status
           (snd (App.on_push_to_talk_end dev2 a1)) = 1%nat).
Proof.
  cbv zeta.
  pose proof (stop_clears_flags dev a) as (Hrec & Htog & _ & Hr).
  split; [auto |]. split; [| split; [| split]].
  - intros H. unfold App.toggle_recording. simpl. rewrite H.
    pose proof (stop_clears_flags dev (App.set_is_toggle_mode true a))
      as (H1 & H2 & _). auto.
  - intros H. unfold App._on_auto_stop_triggered. rewrite H. auto.
  - intros H1 H2. unfold App.on_push_to_talk_end. rewrite H1, H2. simpl. auto.
  - intros Hdev.
    assert (Hidle : AudioRecorder.is_recording
                      (App.audio_recorder
                         (fst (App.stop_recording_and_transcribe dev a)))
                    = false).
    { rewrite Hr. apply stop_recording_makes_idle. }
    unfold App.on_push_to_talk_start at 1 2 3 4 5. rewrite Hrec. simpl.
    pose proof (start_sets_recording dev1 false _ Hdev Hidle)
      as (S1 & S2 & _). cbv zeta in S1, S2. rewrite Htog in S2.
    split; [auto |].
    unfold App.on_push_to_talk_end. rewrite S1, S2. simpl.
    pose proof (stop_clears_flags dev2
                  (fst (App.start_recording dev1 false
                          (fst (App.stop_recording_and_transcribe dev a)))))
      as (H1 & H2 & _).
    split; [auto |]. apply stop_announced.
Qed.

Lemma stop_clears_recording_and_toggle_witness :
  let a := fst (App.toggle_recording Scenario.ok (App.init 2)) in
  App.is_recording a = true
  /\ App.is_toggle_mode a = true
  /\ App.is_recording (fst (App.toggle_recording Scenario.ok a)) = false
  /\ App.is_toggle_mode (fst (App.toggle_recording Scenario.ok a)) = false.
Proof.
  cbv zeta. split; [reflexivity |]. split; [reflexivity |].
  apply (stop_clears_recording_and_toggle Scenario.ok Scenario.ok Scenario.ok
           (fst (App.toggle_recording Scenario.ok (App.init 2)))).
  reflexivity.
Defined.

(** The whole path, key by key: the toggle chord starts a recording in
    toggle mode; pressing and releasing the push-to-talk keys afterwards
    leaves it running. *)
Example toggle_survives_push_to_talk_release :
  let '(_, a, _) :=
    HotkeyManager.run Scenario.cfg
      [Scenario.press "ctrl" 100; Scenario.press "shift" 100;
       Scenario.press "r" 100;
       Scenario.release "r" 101; Scenario.release "shift" 101;
       Scenario.press "space" 102;
       Scenario.release "space" 103; Scenario.release "ctrl" 103]
      HotkeyManager.init (App.init 2) in
  App.is_recording a = true /\ App.is_toggle_mode a = true
  /\ AudioRecorder.is_recording (App.audio_recorder a) = true.
Proof. vm_compute. repeat split; reflexivity. Qed.

(** ** C6: the toggle handler *)

Section Toggle.
Import ToggleRecording.

(** The handler fires exactly when it is enabled, the chord is held and
    more than [debounce_delay] has passed since the last fire. *)
Lemma toggle_fires_iff cfg dev now keys h a :
  fst (fst (fst (check_activation cfg dev now keys h a))) = true
  <-> enabled h = true
      /\ chord_held (normalized_list (hotkeys_toggle_recording cfg))
           (normalized_set keys) = true
      /\ (debounce_delay h < now - last_toggle_time h)%Q.
Proof.
  unfold check_activation. rewrite <- Qltb_lt.
  destruct (enabled h); simpl; [| intuition discriminate].
  destruct (chord_held _ _); simpl; [| intuition discriminate].
  destruct (Qltb _ _); simpl.
  - destruct (App.on_toggle_recording dev a). simpl. intuition.
  - intuition discriminate.
Qed.

Lemma toggle_quiet cfg dev now keys h a :
  fst (fst (fst (check_activation cfg dev now keys h a))) = false ->
  check_activation cfg dev now keys h a = (false, h, a, []).
Proof.
  unfold check_activation.
  destruct (negb (enabled h)); [reflexivity |].
  destruct (_ && _); [| reflexivity].
  destruct (App.on_toggle_recording dev a). discriminate.
Qed.

Lemma toggle_fire cfg dev now keys h a :
  fst (fst (fst (check_activation cfg dev now keys h a))) = true ->
  check_activation cfg dev now keys h a
  = (true, set_last_toggle_time now h,
     fst (App.toggle_recording dev a), snd (App.toggle_recording dev a)).
Proof.
  unfold check_activation.
  destruct (negb (enabled h)); [discriminate |].
  destruct (_ && _); [| discriminate].
  unfold App.on_toggle_recording.
  destruct (App.toggle_recording dev a). reflexivity.
Qed.

(** The debounce: once the handler has fired at [t1], an event no later
    than [debounce_delay] after [t1] does nothing at all. *)
Lemma toggle_debounce cfg dev1 dev2 t1 t2 keys1 keys2 h a :
  let '(r1, h1, a1, _) := check_activation cfg dev1 t1 keys1 h a in
  r1 = true -> (t2 - t1 <= debounce_delay h)%Q ->
  check_activation cfg dev2 t2 keys2 h1 a1 = (false, h1, a1, []).
Proof.
  destruct (check_activation cfg dev1 t1 keys1 h a) as [[[r1 h1] a1] ev1] eqn:E.
  intros -> Hle.
  assert (Hf : fst (fst (fst (check_activation cfg dev1 t1 keys1 h a))) = true)
    by now rewrite E.
  rewrite (toggle_fire _ _ _ _ _ _ Hf) in E. inversion E; subst.
  apply toggle_quiet.
  destruct (fst (fst (fst (check_activation cfg dev2 t2 keys2
                             (set_last_toggle_time t1 h)
                             (fst (App.toggle_recording dev1 a))))))
    eqn:E2; [| reflexivity].
  apply toggle_fires_iff in E2 as (_ & _ & Hlt). simpl in Hlt. lra.
Qed.

End Toggle.

(** C6 does not hold of [check_activation]: the handler keeps no record of
    the chord having been held, so a key event that arrives while the chord
    is still down, one second after the fire, fires again.  Here the chord
    is ctrl+shift+r, the first event comes at time 1000 and the second (a
    repeat of a held key) at time 1001; both calls return [True], and the
    recording the first one started is stopped by the second. *)
Theorem toggle_fires_again_while_chord_held :
  let '(r1, h1, a1, _) :=
    ToggleRecording.check_activation Scenario.cfg Scenario.ok 1000
      Scenario.chord ToggleRecording.init (App.init 2) in
  let '(r2, h2, a2, _) :=
    ToggleRecording.check_activation Scenario.cfg Scenario.ok 1001
      Scenario.chord h1 a1 in
  r1 = true /\ r2 = true
  /\ App.is_recording a1 = true /\ App.is_recording a2 = false
  /\ ToggleRecording.last_toggle_time h2 = 1001%Q.
Proof. vm_compute. repeat split; reflexivity. Qed.

(** The single-file version of the application does what the claim says:
    once it has fired, no key press fires again until a key of the chord has
    been released. *)
Lemma monolith_fires_once_per_chord cfg keys m :
  Monolith.toggle_mode_active m = true ->
  fst (Monolith.presses cfg keys m) = 0%nat.
Proof.
  revert m. induction keys as [| [k now] rest IH]; intros m H; [reflexivity |].
  simpl. unfold Monolith._on_key_press.
  destruct (bool_decide (k = EmptyString)).
  - specialize (IH m H).
    destruct (Monolith.presses cfg rest m) as [n m2]. simpl in *.
    now rewrite IH.
  - rewrite H, andb_false_r. simpl.
    specialize (IH {| Monolith.current_keys := {[k]} ∪ Monolith.current_keys m;
                      Monolith.toggle_mode_active := true;
                      Monolith.last_toggle_time :=
                        Monolith.last_toggle_time m |}
                  eq_refl).
    destruct (Monolith.presses cfg rest _) as [n m2]. simpl in *.
    now rewrite IH.
Qed.

Example monolith_key_repeat_toggles_once :
  fst (Monolith.presses Scenario.cfg
         [("ctrl", 1000); ("shift", 1000); ("r", 1000); ("r", 1001);
          ("r", 1002)]%string%Q
         Monolith.init) = 1%nat.
Proof. vm_compute. reflexivity. Qed.

(** The same through the keyboard listener: the chord is pressed and the
    last key repeats one second later, with no release in between. *)
Example key_repeat_toggles_twice :
  let '(_, a, ev) :=
    HotkeyManager.run Scenario.cfg
      [Scenario.press "ctrl" 1000; Scenario.press "shift" 1000;
       Scenario.press "r" 1000; Scenario.press "r" 1001]
      HotkeyManager.init (App.init 2) in
  App.is_recording a = false
  /\ count is_toggle_start_or_stop ev = 2%nat.
Proof. vm_compute. repeat split; reflexivity. Qed.

(** ** C7: the rolling buffer *)

Section RollingBuffer.
Import HeySoffy.

Lemma length_last_n {A} (n : nat) (l : list A) :
  (length (last_n n l) <= n)%nat.
Proof. unfold last_n. rewrite length_drop. lia. Qed.

Lemma last_n_all {A} (n : nat) (l : list A) :
  (length l <= n)%nat -> last_n n l = l.
Proof.
  intros H. unfold last_n. replace (length l - n)%nat with 0%nat by lia.
  reflexivity.
Qed.

Lemma last_n_suffix {A} (n : nat) (l : list A) :
  take (length l - n) l ++ last_n n l = l.
Proof. unfold last_n. apply take_drop. Qed.

(** Keeping the last [n] twice, with an append in between, keeps the last
    [n] of the whole. *)
Lemma last_n_app {A} (n : nat) (l k : list A) :
  last_n n (last_n n l ++ k) = last_n n (l ++ k).
Proof.
  unfold last_n. rewrite !length_app, length_drop.
  destruct (decide (length l <= n)%nat) as [Hle | Hgt].
  - replace (length l - n)%nat with 0%nat by lia. simpl.
    now replace (length l - 0)%nat with (length l) by lia.
  - rewrite !drop_app, length_drop, drop_drop.
    replace (length l - n + (length l - (length l - n) + length k - n))%nat
      with (length l + length k - n)%nat by lia.
    f_equal. f_equal. lia.
Qed.

Lemma slice_from_negative {A} (m : Z) (l : list A) :
  0 < m -> Py.slice_from (- m) l = last_n (Z.to_nat m) l.
Proof.
  intros Hm. unfold Py.slice_from, last_n.
  destruct (Z.ltb_spec (- m) 0) as [_ | H]; [| lia].
  f_equal. lia.
Qed.

Lemma int_below (x : Q) : 0 < Py.int x -> (inject_Z (Py.int x) <= x)%Q.
Proof.
  destruct x as [n d]. unfold Py.int, Qle. simpl. intros H.
  assert (Hn : 0 <= n).
  { destruct (Z.le_gt_cases 0 n) as [Hn | Hn]; [exact Hn |].
    pose proof (Z.quot_opp_l n (Z.pos d) ltac:(lia)) as Ho.
    pose proof (Z.quot_pos (- n) (Z.pos d) ltac:(lia) ltac:(lia)). lia. }
  rewrite Z.quot_div_nonneg in * by lia.
  rewrite Z.mul_1_r, Z.mul_comm. apply Z.mul_div_le. lia.
Qed.

Lemma extend_buffer_last_n chunk h :
  0 < max_samples h ->
  audio_buffer (extend_buffer chunk h)
  = last_n (Z.to_nat (max_samples h)) (audio_buffer h ++ chunk).
Proof.
  intros Hm. unfold extend_buffer.
  destruct (Z.ltb_spec (max_samples h)
              (Z.of_nat (length (audio_buffer h ++ chunk)))) as [Hgt | Hle];
    simpl.
  - now apply slice_from_negative.
  - symmetry. apply last_n_all. lia.
Qed.

Lemma extend_buffer_settings chunk h :
  max_samples (extend_buffer chunk h) = max_samples h
  /\ last_detection_time (extend_buffer chunk h) = last_detection_time h
  /\ cooldown_period (extend_buffer chunk h) = cooldown_period h
  /\ wake_word (extend_buffer chunk h) = wake_word h.
Proof.
  unfold extend_buffer, max_samples. destruct (_ <? _); simpl; auto.
Qed.

Lemma listen_pass_buffer `{np : Numpy} cfg transcribe p h :
  let h' := fst (listen_pass cfg transcribe p h) in
  audio_buffer h'
  = match read p with
    | Some chunk => audio_buffer (extend_buffer chunk h)
    | None => audio_buffer h
    end
  /\ max_samples h' = max_samples h
  /\ cooldown_period h' = cooldown_period h.
Proof.
  unfold listen_pass. destruct (read p) as [chunk |]; [| simpl; auto].
  destruct (extend_buffer_settings chunk h) as (Hm & _ & Hc & _).
  destruct (_detect_voice_activity cfg chunk); [| simpl; auto].
  destruct (Qltb _ _); [| simpl; auto].
  destruct (_check_for_wake_word _ _); simpl; auto.
Qed.

Lemma listen_worker_buffer `{np : Numpy} cfg transcribe passes h :
  0 < max_samples h ->
  Z.of_nat (length (audio_buffer h)) <= max_samples h ->
  audio_buffer (fst (_listen_worker cfg transcribe passes h))
  = last_n (Z.to_nat (max_samples h))
      (audio_buffer h ++ concat (omap read passes)).
Proof.
  revert h. induction passes as [| p rest IH]; intros h Hm Hlen; simpl.
  - rewrite app_nil_r. symmetry. apply last_n_all. lia.
  - destruct (listen_pass_buffer cfg transcribe p h) as (Hb & Hmax & _).
    destruct (listen_pass cfg transcribe p h) as [h1 ev1]. simpl in Hb, Hmax.
    specialize (IH h1).
    destruct (_listen_worker cfg transcribe rest h1) as [h2 ev2]. simpl in *.
    rewrite Hmax in IH. rewrite IH; [| exact Hm |].
    + rewrite Hb. destruct (read p) as [chunk |]; simpl; [| reflexivity].
      rewrite extend_buffer_last_n by exact Hm.
      rewrite app_assoc. apply last_n_app.
    + rewrite Hb. destruct (read p) as [chunk |]; [| exact Hlen].
      rewrite extend_buffer_last_n by exact Hm.
      pose proof (length_last_n (Z.to_nat (max_samples h))
                    (audio_buffer h ++ chunk)). lia.
Qed.

(** With the fixed three-second duration the capacity is three times the
    sample rate. *)
Lemma init_capacity cfg :
  max_samples (init cfg) = 3 * audio_sample_rate cfg.
Proof.
  unfold max_samples, init, Py.int. simpl.
  rewrite Z.quot_1_r. destruct (audio_sample_rate cfg); reflexivity.
Qed.

End RollingBuffer.

(** C7.  After every append the rolling buffer holds at most
    [int(buffer_duration * sample_rate)] samples, hence at most
    [buffer_duration * sample_rate], and they are the most recent samples in
    their order of arrival; after any number of passes of the listening
    loop the buffer is the tail of everything read so far, cut to that
    length.  (The capacity is positive whenever the stream could be opened
    at all.) *)
Theorem rolling_buffer_bounded `{np : Numpy}
    (cfg : Config) (transcribe : list Q -> option string)
    (h : HeySoffy.t) (chunk : list Q) (passes : list HeySoffy.pass) :
  0 < HeySoffy.max_samples h ->
  let h1 := HeySoffy.extend_buffer chunk h in
  let hN := fst (HeySoffy._listen_worker cfg transcribe passes h) in
  Z.of_nat (length (HeySoffy.audio_buffer h1)) <= HeySoffy.max_samples h
  /\ (inject_Z (Z.of_nat (length (HeySoffy.audio_buffer h1)))
      <= HeySoffy.buffer_duration h * inject_Z (HeySoffy.sample_rate h))%Q
  /\ HeySoffy.audio_buffer h1
     = last_n (Z.to_nat (HeySoffy.max_samples h))
         (HeySoffy.audio_buffer h ++ chunk)
  /\ (Z.of_nat (length (HeySoffy.audio_buffer h)) <= HeySoffy.max_samples h ->
      Z.of_nat (length (HeySoffy.audio_buffer hN)) <= HeySoffy.max_samples h
      /\ HeySoffy.audio_buffer hN
         = last_n (Z.to_nat (HeySoffy.max_samples h))
             (HeySoffy.audio_buffer h ++ concat (omap HeySoffy.read passes))).
Proof.
  intros Hm. cbv zeta.
  pose proof (extend_buffer_last_n chunk h Hm) as Hb.
  assert (Hlen : Z.of_nat (length (HeySoffy.audio_buffer
                                     (HeySoffy.extend_buffer chunk h)))
                 <= HeySoffy.max_samples h).
  { rewrite Hb.
    pose proof (length_last_n (Z.to_nat (HeySoffy.max_samples h))
                  (HeySoffy.audio_buffer h ++ chunk)). lia. }
  split; [exact Hlen |]. split; [| split; [exact Hb |]].
  - pose proof (int_below _ Hm) as Hq. fold (HeySoffy.max_samples h) in Hq.
    apply Qle_trans with (inject_Z (HeySoffy.max_samples h)); [| exact Hq].
    rewrite <- Zle_Qle. exact Hlen.
  - intros H0.
    pose proof (listen_worker_buffer cfg transcribe passes h Hm H0) as HN.
    split; [| exact HN]. rewrite HN.
    pose proof (length_last_n (Z.to_nat (HeySoffy.max_samples h))
                  (HeySoffy.audio_buffer h
                   ++ concat (omap HeySoffy.read passes))). lia.
Qed.

(** With the voice tests of [Vad.exact]. *)

Section Exact.
#[local] Existing Instance Vad.exact.

Lemma rolling_buffer_bounded_witness :
  0 < HeySoffy.max_samples (HeySoffy.init Scenario.tiny_cfg)
  /\ HeySoffy.audio_buffer
       (HeySoffy.extend_buffer Scenario.ramp (HeySoffy.init Scenario.tiny_cfg))
     = last_n 6 ([] ++ Scenario.ramp).
Proof.
  split; [reflexivity |].
  apply (rolling_buffer_bounded Scenario.tiny_cfg Scenario.deaf
           (HeySoffy.init Scenario.tiny_cfg) Scenario.ramp []).
  reflexivity.
Defined.

(** Far more appends than the capacity: two hundred chunks of seven samples
    into a buffer of six; only the last six samples remain. *)
Example many_appends :
  HeySoffy.audio_buffer
    (fst (HeySoffy._listen_worker Scenario.tiny_cfg Scenario.deaf
            (replicate 200
               {| HeySoffy.read := Some Scenario.ramp; HeySoffy.now := 0;
                  HeySoffy.app := App.init 2 |})
            (HeySoffy.init Scenario.tiny_cfg)))
  = [2; 3; 4; 5; 6; 7]%Q.
Proof. vm_compute. reflexivity. Qed.

End Exact.

(** ** C8: the wake phrase as a run of consecutive words *)

Section WakePhrase.
Import HeySoffy.

Lemma length_slice {A} i j (l : list A) :
  length (Py.slice i j l) = Nat.min (j - i) (length l - i).
Proof. unfold Py.slice. now rewrite length_take, length_drop. Qed.

Lemma phrase_in_spec wake_words text_words :
  phrase_in wake_words text_words = true
  <-> exists i,
        Py.slice i (i + length wake_words) text_words = wake_words.
Proof.
  unfold phrase_in. rewrite existsb_exists. split.
  - intros (i & _ & Hi). exists i. now apply bool_decide_eq_true in Hi.
  - intros (i & Hi).
    destruct wake_words as [| w ws].
    + exists 0%nat. split.
      * apply in_seq. simpl. lia.
      * apply bool_decide_eq_true. reflexivity.
    + exists i. split.
      * pose proof (f_equal length Hi) as Hlen.
        rewrite length_slice in Hlen. simpl in Hlen.
        apply in_seq. simpl. lia.
      * now apply bool_decide_eq_true.
Qed.

Lemma check_needs_a_second transcribe h :
  Z.of_nat (length (audio_buffer h)) < sample_rate h ->
  _check_for_wake_word transcribe h = false.
Proof.
  intros H. unfold _check_for_wake_word.
  destruct (Z.ltb_spec (Z.of_nat (length (audio_buffer h))) (sample_rate h));
    [reflexivity | lia].
Qed.

(** The speech model is given at most the trailing two and a half seconds
    of the buffer. *)
Lemma trailing_audio_window h audio :
  0 < Py.int (inject_Z (sample_rate h) * (5 # 2)) ->
  trailing_audio h = Some audio ->
  Z.of_nat (length audio) <= Py.int (inject_Z (sample_rate h) * (5 # 2)).
Proof.
  intros Hpos. unfold trailing_audio.
  rewrite (slice_from_negative _ _ Hpos).
  destruct (max_abs _) as [peak |]; [| discriminate].
  intros H. inversion H; subst.
  pose proof (length_last_n
                (Z.to_nat (Py.int (inject_Z (sample_rate h) * (5 # 2))))
                (audio_buffer h)) as Hlen.
  destruct (Qltb 0 peak); rewrite ?length_map; lia.
Qed.

End WakePhrase.

(** C8.  Once a second of audio is buffered and the speech model has
    returned a text for the trailing window, [_check_for_wake_word] answers
    [True] exactly when the words of the wake phrase occur at some position
    [i] as consecutive words of the recognized text, both lowercased and
    split at whitespace: [text_words[i:i+len(wake_words)] == wake_words]. *)
Theorem wake_word_check_finds_phrase
    (transcribe : list Q -> option string) (h : HeySoffy.t)
    (audio : list Q) (text : string) :
  HeySoffy.sample_rate h <= Z.of_nat (length (HeySoffy.audio_buffer h)) ->
  HeySoffy.trailing_audio h = Some audio ->
  transcribe audio = Some text ->
  let wake_words := PyStr.split (HeySoffy.wake_word h) in
  let text_words := PyStr.split (PyStr.strip (PyStr.lower text)) in
  HeySoffy._check_for_wake_word transcribe h = true
  <-> exists i,
        Py.slice i (i + length wake_words) text_words = wake_words.
Proof.
  intros Hlen Haudio Htext. cbv zeta.
  unfold HeySoffy._check_for_wake_word.
  destruct (Z.ltb_spec (Z.of_nat (length (HeySoffy.audio_buffer h)))
              (HeySoffy.sample_rate h)) as [Hlt | _]; [lia |].
  rewrite Haudio, Htext. apply phrase_in_spec.
Qed.

Lemma wake_word_check_finds_phrase_witness :
  HeySoffy.sample_rate Scenario.heard
  <= Z.of_nat (length (HeySoffy.audio_buffer Scenario.heard))
  /\ (HeySoffy._check_for_wake_word
        (Scenario.hears "  Well, HEY   Soffy please ") Scenario.heard = true
      <-> exists i,
            Py.slice i (i + 2) ["well,"; "hey"; "soffy"; "please"]%string
            = ["hey"; "soffy"]%string).
Proof.
  split; [vm_compute; discriminate |].
  apply (wake_word_check_finds_phrase
           (Scenario.hears "  Well, HEY   Soffy please ") Scenario.heard
           (default [] (HeySoffy.trailing_audio Scenario.heard))
           "  Well, HEY   Soffy please ").
  - vm_compute. discriminate.
  - reflexivity.
  - reflexivity.
Defined.

Example wake_phrase_heard :
  HeySoffy._check_for_wake_word
    (Scenario.hears "  Well, HEY   Soffy please ") Scenario.heard = true
  /\ HeySoffy._check_for_wake_word
       (Scenario.hears "hey there soffy") Scenario.heard = false
  /\ HeySoffy._check_for_wake_word Scenario.deaf Scenario.heard = false.
Proof. vm_compute. repeat split; reflexivity. Qed.

(** ** C9: the cooldown between wake-word activations *)

Section Cooldown.
Import HeySoffy.

Variable cfg : Config.

Lemma wake_sound_once a : count is_wake_sound (_on_wake_word_detected a) = 1%nat.
Proof.
  unfold _on_wake_word_detected, App.on_voice_assistant_activated.
  destruct (negb (App.is_recording a)); reflexivity.
Qed.

(** Within the cooldown the pass only extends the buffer: the speech model
    plays no part in it. *)
Lemma listen_pass_within_cooldown `{np : Numpy} transcribe p h :
  (now p - last_detection_time h <= cooldown_period h)%Q ->
  listen_pass cfg transcribe p h
  = (match read p with
     | Some chunk => extend_buffer chunk h
     | None => h
     end, []).
Proof.
  intros Hle. unfold listen_pass.
  destruct (read p) as [chunk |]; [| reflexivity].
  destruct (extend_buffer_settings chunk h) as (_ & Hl & Hc & _).
  rewrite Hl, Hc. apply Qltb_ge in Hle. rewrite Hle.
  destruct (_detect_voice_activity cfg chunk); reflexivity.
Qed.

(** A pass either leaves [last_detection_time] alone and activates nothing,
    or it is a detection: voice, cooldown over, phrase found. *)
Lemma listen_pass_cases `{np : Numpy} transcribe p h :
  let '(h', ev) := listen_pass cfg transcribe p h in
  cooldown_period h' = cooldown_period h
  /\ ((last_detection_time h' = last_detection_time h /\ ev = [])
      \/ (last_detection_time h' = now p
          /\ ev = _on_wake_word_detected (app p)
          /\ (cooldown_period h < now p - last_detection_time h)%Q
          /\ exists chunk,
               read p = Some chunk
               /\ _detect_voice_activity cfg chunk = true
               /\ _check_for_wake_word transcribe (extend_buffer chunk h)
                  = true)).
Proof.
  unfold listen_pass. destruct (read p) as [chunk |]; [| simpl; auto].
  destruct (extend_buffer_settings chunk h) as (_ & Hl & Hc & _).
  destruct (_detect_voice_activity cfg chunk) eqn:Hv; [| simpl; auto].
  rewrite Hl, Hc.
  destruct (Qltb _ _) eqn:Hq; [| simpl; auto].
  destruct (_check_for_wake_word _ _) eqn:Hw; [| simpl; auto].
  simpl. split; [exact Hc |]. right. apply Qltb_lt in Hq.
  repeat split; auto. exists chunk. auto.
Qed.

Lemma quiet_during_cooldown `{np : Numpy} transcribe passes h :
  Forall (fun q => (now q - last_detection_time h <= cooldown_period h)%Q)
    passes ->
  snd (_listen_worker cfg transcribe passes h) = []
  /\ last_detection_time (fst (_listen_worker cfg transcribe passes h))
     = last_detection_time h.
Proof.
  revert h. induction passes as [| p rest IH]; intros h Hall; [now simpl |].
  inversion Hall as [| ? ? Hp Hrest]; subst. simpl.
  rewrite (listen_pass_within_cooldown transcribe p h Hp).
  set (h1 := match read p with
             | Some chunk => extend_buffer chunk h
             | None => h
             end).
  assert (Hsame : last_detection_time h1 = last_detection_time h
                  /\ cooldown_period h1 = cooldown_period h).
  { unfold h1. destruct (read p) as [chunk |]; [| auto].
    destruct (extend_buffer_settings chunk h) as (_ & Hl & Hc & _). auto. }
  destruct Hsame as [Hl Hc].
  specialize (IH h1). rewrite Hl, Hc in IH. specialize (IH Hrest).
  destruct (_listen_worker cfg transcribe rest h1) as [h2 ev2].
  simpl in *. exact IH.
Qed.

(** A detection: voice, the cooldown over and the phrase found.  The pass
    records its time and activates: the chime, and the hand-off to the
    controller, which spawns a session unless it is recording. *)
Lemma listen_pass_detection `{np : Numpy} transcribe p h chunk :
  read p = Some chunk ->
  _detect_voice_activity cfg chunk = true ->
  (cooldown_period h < now p - last_detection_time h)%Q ->
  _check_for_wake_word transcribe (extend_buffer chunk h) = true ->
  listen_pass cfg transcribe p h
  = (set_last_detection_time (now p) (extend_buffer chunk h),
     PlaySound "wake_word"
     :: (if App.is_recording (app p) then []
         else [SpawnVoiceAssistantSession])).
Proof.
  intros Hread Hv Hlt Hw. unfold listen_pass. rewrite Hread, Hv.
  destruct (extend_buffer_settings chunk h) as (_ & Hl & Hc & _).
  rewrite Hl, Hc. apply Qltb_lt in Hlt. rewrite Hlt, Hw.
  unfold _on_wake_word_detected, App.on_voice_assistant_activated.
  destruct (App.is_recording (app p)); reflexivity.
Qed.

End Cooldown.

(** C9.  A pass of the listening loop made within the cooldown of the last
    detection only extends the buffer, whatever the speech model would have
    answered: the phrase check is not run.  [last_detection_time] changes
    only in a pass that activates, which needs voice, the cooldown over and
    the phrase found, and then it becomes the time of that pass.  Such a
    pass does activate: it plays the chime and hands over to the controller,
    which spawns the voice-assistant session unless it is recording.  After
    it, no pass whose time is within the cooldown of it activates again,
    whatever it reads and whatever the speech model answers: of detections
    closer than the cooldown, exactly one activates, and the effects of the
    whole run are those of that one activation. *)
Theorem wake_word_cooldown `{np : Numpy}
    (cfg : Config) (transcribe other : list Q -> option string)
    (p : HeySoffy.pass) (rest : list HeySoffy.pass) (h : HeySoffy.t)
    (chunk : list Q) :
  let h1 := fst (HeySoffy.listen_pass cfg transcribe p h) in
  let ev1 := snd (HeySoffy.listen_pass cfg transcribe p h) in
  let activation :=
    PlaySound "wake_word"
    :: (if App.is_recording (HeySoffy.app p) then []
        else [SpawnVoiceAssistantSession]) in
  ((HeySoffy.now p - HeySoffy.last_detection_time h
    <= HeySoffy.cooldown_period h)%Q ->
   HeySoffy.listen_pass cfg other p h = HeySoffy.listen_pass cfg transcribe p h
   /\ ev1 = []
   /\ HeySoffy.last_detection_time h1 = HeySoffy.last_detection_time h)
  /\ ((HeySoffy.last_detection_time h1 = HeySoffy.last_detection_time h
       /\ ev1 = [])
      \/ (HeySoffy.last_detection_time h1 = HeySoffy.now p
          /\ ev1 = activation
          /\ (HeySoffy.cooldown_period h
              < HeySoffy.now p - HeySoffy.last_detection_time h)%Q
          /\ exists heard,
               HeySoffy.read p = Some heard
               /\ HeySoffy._detect_voice_activity cfg heard = true
               /\ HeySoffy._check_for_wake_word transcribe
                    (HeySoffy.extend_buffer heard h) = true))
  /\ (HeySoffy.read p = Some chunk ->
      HeySoffy._detect_voice_activity cfg chunk = true ->
      (HeySoffy.cooldown_period h
       < HeySoffy.now p - HeySoffy.last_detection_time h)%Q ->
      HeySoffy._check_for_wake_word transcribe
        (HeySoffy.extend_buffer chunk h) = true ->
      ev1 = activation
      /\ HeySoffy.last_detection_time h1 = HeySoffy.now p
      /\ (Forall (fun q => (HeySoffy.now q - HeySoffy.now p
                            <= HeySoffy.cooldown_period h)%Q) rest ->
          snd (HeySoffy._listen_worker cfg transcribe (p :: rest) h)
          = activation
          /\ HeySoffy.last_detection_time
               (fst (HeySoffy._listen_worker cfg transcribe (p :: rest) h))
             = HeySoffy.now p)).
Proof.
  cbv zeta. pose proof (listen_pass_cases cfg transcribe p h) as Hcases.
  split; [| split].
  - intros Hle.
    rewrite !(listen_pass_within_cooldown cfg _ p h Hle). simpl.
    split; [reflexivity |]. split; [reflexivity |].
    destruct (HeySoffy.read p) as [heard |]; [| reflexivity].
    apply (extend_buffer_settings heard h).
  - destruct (HeySoffy.listen_pass cfg transcribe p h) as [h1 ev1].
    simpl. destruct Hcases as (_ & [[Hl ->] | (Hl & -> & Hlt & Hex)]).
    + left. split; [exact Hl | reflexivity].
    + right. split; [exact Hl |]. split; [| split; [exact Hlt | exact Hex]].
      unfold HeySoffy._on_wake_word_detected,
        App.on_voice_assistant_activated.
      destruct (App.is_recording (HeySoffy.app p)); reflexivity.
  - intros Hread Hv Hlt Hw.
    pose proof (listen_pass_detection cfg transcribe p h chunk Hread Hv Hlt Hw)
      as Hpass.
    rewrite Hpass. simpl. split; [reflexivity |]. split; [reflexivity |].
    intros Hall.
    destruct (extend_buffer_settings chunk h) as (_ & _ & Hc & _).
    assert (Hrest : Forall (fun q =>
              (HeySoffy.now q
               - HeySoffy.last_detection_time
                   (HeySoffy.set_last_detection_time (HeySoffy.now p)
                      (HeySoffy.extend_buffer chunk h))
               <= HeySoffy.cooldown_period
                    (HeySoffy.set_last_detection_time (HeySoffy.now p)
                       (HeySoffy.extend_buffer chunk h)))%Q) rest).
    { simpl. rewrite Hc. exact Hall. }
    destruct (quiet_during_cooldown cfg transcribe rest _ Hrest) as [Hev Hld].
    cbn [HeySoffy._listen_worker]. rewrite Hpass.
    destruct (HeySoffy._listen_worker cfg transcribe rest _) as [h2 ev2].
    simpl in *. subst ev2. rewrite app_nil_r. auto.
Qed.

(** With the voice tests of [Vad.exact]. *)

Section Exact.
#[local] Existing Instance Vad.exact.

Lemma wake_word_cooldown_witness :
  snd (HeySoffy._listen_worker Scenario.tiny_cfg (Scenario.hears "hey soffy")
         [Scenario.loud_pass 100; Scenario.loud_pass 101;
          Scenario.loud_pass 103]
         Scenario.heard)
  = [PlaySound "wake_word"; SpawnVoiceAssistantSession].
Proof.
  apply (wake_word_cooldown Scenario.tiny_cfg (Scenario.hears "hey soffy")
           Scenario.deaf (Scenario.loud_pass 100)
           [Scenario.loud_pass 101; Scenario.loud_pass 103] Scenario.heard
           [1 # 2; - (1 # 4)]%Q).
  - reflexivity.
  - reflexivity.
  - reflexivity.
  - reflexivity.
  - repeat constructor; vm_compute; discriminate.
Defined.

(** After the cooldown the phrase activates again. *)
Example wake_again_after_cooldown :
  count is_wake_sound
    (snd (HeySoffy._listen_worker Scenario.tiny_cfg
            (Scenario.hears "hey soffy")
            [Scenario.loud_pass 100; Scenario.loud_pass 101;
             Scenario.loud_pass 103; Scenario.loud_pass (1031 # 10)]
            Scenario.heard)) = 2%nat.
Proof. vm_compute. reflexivity. Qed.

End Exact.


(** * Further properties of the code *)

(** ** The controller and its recorder stay in step *)

Section InStep.
Import Lifecycle.

Context `{np : Numpy}.

Lemma in_step_start dev auto_stop a :
  in_step a -> in_step (fst (App.start_recording dev auto_stop a)).
Proof.
  intros H. pose proof H as [Hflag Hstream].
  unfold App.start_recording, AudioRecorder.start_recording.
  destruct (AudioRecorder.is_recording (App.audio_recorder a)) eqn:Hrec.
  - simpl. split; simpl; rewrite ?Hrec; auto.
  - destruct (App.on_open dev); simpl; split; simpl; auto; discriminate.
Qed.

Lemma in_step_stop dev a :
  in_step (fst (App.stop_recording_and_transcribe dev a)).
Proof.
  destruct (stop_clears_flags dev a) as (Hrec & _ & _ & Hr).
  split.
  - rewrite Hrec, Hr. symmetry. apply stop_recording_makes_idle.
  - rewrite Hr, stop_recording_makes_idle. discriminate.
Qed.

Lemma in_step_toggle_mode v a : in_step a -> in_step (App.set_is_toggle_mode v a).
Proof. intros H. exact H. Qed.

Lemma in_step_callback cfg chunk now a :
  in_step a ->
  in_step (App.set_audio_recorder
             (snd (fst (AudioRecorder._audio_callback cfg chunk now
                          (App.audio_recorder a)))) a).
Proof.
  intros [Hflag Hstream]. unfold in_step. simpl.
  destruct (AudioRecorder.is_recording (App.audio_recorder a)) eqn:Hrec.
  - destruct (callback_frame cfg chunk now _ Hrec) as (_ & R & S & _).
    rewrite R, S. auto.
  - unfold AudioRecorder._audio_callback. rewrite Hrec. simpl.
    rewrite Hrec. split; [exact Hflag | discriminate].
Qed.

Lemma in_step_op cfg dev o a : in_step a -> in_step (fst (apply_op cfg dev o a)).
Proof.
  intros H. destruct o; simpl.
  - unfold App.on_push_to_talk_start. destruct (negb _); [| exact H].
    now apply in_step_start.
  - unfold App.on_push_to_talk_end. destruct (_ && _); [| exact H].
    apply in_step_stop.
  - unfold App.on_toggle_recording, App.toggle_recording.
    destruct (App.is_recording (App.set_is_toggle_mode true a)).
    + apply in_step_stop.
    + apply in_step_start, in_step_toggle_mode, H.
  - unfold App._on_auto_stop_triggered. destruct (App.is_recording a);
      [apply in_step_stop | exact H].
  - now apply in_step_start.
  - apply in_step_stop.
  - pose proof (in_step_callback cfg chunk now a H) as Hc.
    destruct (AudioRecorder._audio_callback cfg chunk now _) as [[f r] ev].
    exact Hc.
Qed.

Lemma in_step_ops cfg ops a : in_step a -> in_step (fst (apply_ops cfg ops a)).
Proof.
  revert a. induction ops as [| [dev o] rest IH]; intros a H; [exact H |].
  simpl. pose proof (in_step_op cfg dev o a H) as H1.
  destruct (apply_op cfg dev o a) as [a1 ev1]. simpl in H1.
  specialize (IH a1 H1). destruct (apply_ops cfg rest a1) as [a2 ev2].
  exact IH.
Qed.

Lemma in_step_push_to_talk cfg dev keys h a :
  in_step a ->
  in_step (snd (fst (PushToTalk.check_activation cfg dev keys h a))).
Proof.
  intros H. unfold PushToTalk.check_activation.
  destruct (negb (PushToTalk.enabled h)); [exact H |].
  destruct (_ && negb _).
  - pose proof (in_step_op cfg dev PushToTalkStart a H) as H1. simpl in H1.
    destruct (App.on_push_to_talk_start dev a). exact H1.
  - destruct (negb _ && _); [| exact H].
    pose proof (in_step_op cfg dev PushToTalkEnd a H) as H1. simpl in H1.
    destruct (App.on_push_to_talk_end dev a). exact H1.
Qed.

Lemma in_step_toggle cfg dev now keys h a :
  in_step a ->
  in_step (snd (fst (ToggleRecording.check_activation cfg dev now keys h a))).
Proof.
  intros H. unfold ToggleRecording.check_activation.
  destruct (negb (ToggleRecording.enabled h)); [exact H |].
  destruct (_ && _); [| exact H].
  pose proof (in_step_op cfg dev Toggle a H) as H1. simpl in H1.
  destruct (App.on_toggle_recording dev a). exact H1.
Qed.

Lemma in_step_keys cfg actions m a :
  in_step a -> in_step (snd (fst (HotkeyManager.run cfg actions m a))).
Proof.
  revert m a. induction actions as [| act rest IH]; intros m a H; [exact H |].
  simpl.
  assert (H1 : in_step
                 (snd (fst match act with
                           | HotkeyManager.Press e =>
                               HotkeyManager._on_key_press cfg e m a
                           | HotkeyManager.Release e =>
                               HotkeyManager._on_key_release cfg e m a
                           end))).
  { destruct act as [e | e].
    - unfold HotkeyManager._on_key_press.
      destruct (negb _); [exact H |].
      destruct (HotkeyManager.key_name e) as [k |]; [| exact H].
      destruct (bool_decide _); [exact H |].
      pose proof (in_step_push_to_talk cfg (HotkeyManager.device e)
                    ({[k]} ∪ HotkeyManager.current_keys m)
                    (HotkeyManager.push_to_talk m) a H) as Hp.
      destruct (PushToTalk.check_activation _ _ _ _ _) as [[[r p] a1] ev1].
      simpl in Hp.
      pose proof (in_step_toggle cfg (HotkeyManager.device e)
                    (HotkeyManager.at_time e)
                    ({[k]} ∪ HotkeyManager.current_keys m)
                    (HotkeyManager.toggle_recording m) a1 Hp) as Ht.
      destruct (ToggleRecording.check_activation _ _ _ _ _ _)
        as [[[r2 g] a2] ev2].
      exact Ht.
    - unfold HotkeyManager._on_key_release.
      destruct (negb _); [exact H |].
      destruct (HotkeyManager.key_name e) as [k |]; [| exact H].
      destruct (bool_decide _); [exact H |].
      pose proof (in_step_push_to_talk cfg (HotkeyManager.device e)
                    (HotkeyManager.current_keys m ∖ {[k]})
                    (HotkeyManager.push_to_talk m) a H) as Hp.
      destruct (PushToTalk.check_activation _ _ _ _ _) as [[[r p] a1] ev1].
      exact Hp. }
  destruct (match act with
            | HotkeyManager.Press e => _
            | HotkeyManager.Release e => _
            end) as [[m1 a1] ev1].
  simpl in H1. specialize (IH m1 a1 H1).
  destruct (HotkeyManager.run cfg rest m1 a1) as [[m2 a2] ev2]. exact IH.
Qed.

End InStep.

(** X1.  From the state the application is built in, after any run of
    controller operations (push-to-talk start and end, toggle, auto-stop,
    start, stop, audio frames) and after any run of keyboard events, each
    meeting any device outcome, the controller's [is_recording] equals the
    recorder's [is_recording]. *)
Theorem controller_flag_is_recorder_flag `{np : Numpy}
    (cfg : Config) (timeout : Q)
    (ops : list (App.Device * Lifecycle.op))
    (actions : list HotkeyManager.key_action) (m : HotkeyManager.t) :
  let a := fst (Lifecycle.apply_ops cfg ops (App.init timeout)) in
  let b := snd (fst (HotkeyManager.run cfg actions m a)) in
  App.is_recording a = AudioRecorder.is_recording (App.audio_recorder a)
  /\ App.is_recording b = AudioRecorder.is_recording (App.audio_recorder b).
Proof.
  cbv zeta.
  assert (H0 : Lifecycle.in_step (App.init timeout))
    by (split; [reflexivity | discriminate]).
  pose proof (in_step_ops cfg ops _ H0) as H1.
  pose proof (in_step_keys cfg actions m _ H1) as H2.
  split; [apply H1 | apply H2].
Qed.

(** X2.  Along the same runs, whenever the recorder is recording it holds
    an open stream: no failure of the device on an earlier start or stop
    leaves a session without its stream. *)
Theorem recording_holds_stream `{np : Numpy}
    (cfg : Config) (timeout : Q)
    (ops : list (App.Device * Lifecycle.op))
    (actions : list HotkeyManager.key_action) (m : HotkeyManager.t) :
  let a := fst (Lifecycle.apply_ops cfg ops (App.init timeout)) in
  let b := snd (fst (HotkeyManager.run cfg actions m a)) in
  (AudioRecorder.is_recording (App.audio_recorder a) = true ->
   AudioRecorder.stream (App.audio_recorder a) = true)
  /\ (AudioRecorder.is_recording (App.audio_recorder b) = true ->
      AudioRecorder.stream (App.audio_recorder b) = true).
Proof.
  cbv zeta.
  assert (H0 : Lifecycle.in_step (App.init timeout))
    by (split; [reflexivity | discriminate]).
  pose proof (in_step_ops cfg ops _ H0) as H1.
  pose proof (in_step_keys cfg actions m _ H1) as H2.
  split; [apply H1 | apply H2].
Qed.

(** With the voice tests of [Vad.exact]. *)

Section Exact.
#[local] Existing Instance Vad.exact.

Lemma recording_holds_stream_witness :
  let a := fst (Lifecycle.apply_ops Scenario.cfg Samples.bumpy_run
                  (App.init 2)) in
  AudioRecorder.is_recording (App.audio_recorder a) = true
  /\ AudioRecorder.stream (App.audio_recorder a) = true.
Proof.
  cbv zeta. split; [reflexivity |].
  apply (recording_holds_stream Scenario.cfg 2 Samples.bumpy_run []
           HotkeyManager.init).
  reflexivity.
Defined.

End Exact.

(** ** Auto-stop, from the silent frames to the stopped session *)

Section AutoStopPath.
Import AudioRecorder.

Lemma run_stream_keeps `{np : Numpy} cfg inputs s :
  is_recording s = true ->
  is_recording (fst (run_stream cfg inputs s)) = true
  /\ auto_stop_callback (fst (run_stream cfg inputs s)) = auto_stop_callback s.
Proof.
  revert s. induction inputs as [| [chunk now] rest IH]; intros s H;
    [now split |].
  simpl.
  destruct (callback_frame cfg chunk now s H) as (_ & R & _ & _ & C & _).
  destruct (_audio_callback cfg chunk now s) as [[[] s'] ev]; simpl in *.
  - destruct (IH s' R) as [IH1 IH2].
    destruct (run_stream cfg rest s') as [s'' ev']. simpl in *.
    split; congruence.
  - split; assumption.
Qed.

Lemma run_stream_silence `{np : Numpy} cfg chunk now inputs s :
  armed s -> silence_start s = None -> silent cfg chunk ->
  Forall (fun i => silent cfg (fst i)) inputs ->
  Exists (fun i => (silence_timeout s < snd i - now)%Q) inputs ->
  snd (run_stream cfg ((chunk, now) :: inputs) s)
  = [StartTimer (1 # 100) TriggerAutoStop].
Proof.
  intros Ha Hs Hv Hall Hex. simpl.
  rewrite (callback_silence_begins cfg chunk now s Ha Hv Hs).
  pose proof (armed_after cfg chunk now s Ha) as Ha'.
  rewrite (callback_silence_begins cfg chunk now s Ha Hv Hs) in Ha'.
  simpl in Ha'.
  pose proof (silence_outlasts cfg inputs _ now Ha' eq_refl Hall Hex) as H.
  destruct (run_stream cfg inputs _) as [s'' ev']. exact H.
Qed.

End AutoStopPath.

(** X3.  In a session with auto-stop armed and the silence timer unset,
    silent frames (frames for which the callback's test [rms < threshold]
    holds, as NumPy evaluates it) that go on for longer than
    [silence_timeout] end the session once the timer the callback started
    has expired: the
    controller and the recorder are idle, toggle mode is off, and the stop
    path has run exactly once.  When the device closes cleanly, what was
    captured is handed to transcription exactly when it has more than 1000
    samples. *)
Theorem silence_ends_the_session `{np : Numpy}
    (cfg : Config) (dev : App.Device) (a : App.t)
    (chunk : AudioRecorder.frame) (now : Q)
    (inputs : list (AudioRecorder.frame * Q)) :
  App.is_recording a = true ->
  AudioRecorder.armed (App.audio_recorder a) ->
  AudioRecorder.silence_start (App.audio_recorder a) = None ->
  AudioRecorder.silent cfg chunk ->
  Forall (fun i => AudioRecorder.silent cfg (fst i)) inputs ->
  Exists (fun i => (AudioRecorder.silence_timeout (App.audio_recorder a)
                    < snd i - now)%Q) inputs ->
  let captured :=
    concat (AudioRecorder.audio_data
              (fst (AudioRecorder.run_stream cfg ((chunk, now) :: inputs)
                      (App.audio_recorder a)))) in
  let a' := fst (Lifecycle.stream_then_timers cfg dev
                   ((chunk, now) :: inputs) a) in
  let ev := snd (Lifecycle.stream_then_timers cfg dev
                   ((chunk, now) :: inputs) a) in
  App.is_recording a' = false
  /\ App.is_toggle_mode a' = false
  /\ AudioRecorder.is_recording (App.audio_recorder a') = false
  /\ count is_processing_status ev = 1%nat
  /\ (App.on_close dev = AudioRecorder.CloseOk ->
      (In (SpawnTranscribe captured) ev
       <-> (App.minimum_audio_length < length captured)%nat)).
Proof.
  intros Hrec Ha Hs Hv Hall Hex. cbv zeta.
  unfold Lifecycle.stream_then_timers.
  pose proof (run_stream_silence cfg chunk now inputs _ Ha Hs Hv Hall Hex)
    as Hev.
  pose proof (run_stream_keeps cfg ((chunk, now) :: inputs) _ (proj1 Ha))
    as [Hr Hcb].
  destruct (AudioRecorder.run_stream cfg ((chunk, now) :: inputs)
              (App.audio_recorder a)) as [r started].
  simpl in Hev, Hr, Hcb. subst started. simpl.
  unfold Lifecycle._trigger_auto_stop. simpl.
  rewrite Hcb, (proj2 (proj2 Ha)).
  unfold App._on_auto_stop_triggered. simpl. rewrite Hrec.
  pose proof (stop_clears_flags dev (App.set_audio_recorder r a))
    as (F1 & F2 & _ & F4).
  pose proof (stop_announced dev (App.set_audio_recorder r a)) as Hone.
  pose proof (controller_stop_outcome dev (App.set_audio_recorder r a) Hr)
    as Hout.
  destruct (App.stop_recording_and_transcribe dev (App.set_audio_recorder r a))
    as [a2 ev2].
  simpl in *. rewrite app_nil_r.
  split; [exact F1 |]. split; [exact F2 |].
  split; [rewrite F4; apply stop_recording_makes_idle |].
  split; [exact Hone |].
  intros Hdev. specialize (Hout Hdev). apply Hout.
Qed.

(** With the voice tests of [Vad.exact]. *)

Section Exact.
#[local] Existing Instance Vad.exact.

Lemma silence_ends_the_session_witness :
  App.is_recording Samples.listening_app = true
  /\ App.is_recording
       (fst (Lifecycle.stream_then_timers Scenario.cfg Scenario.ok
               [(Scenario.quiet, 0); (Scenario.quiet, 1);
                (Scenario.quiet, 21 # 10)]%Q
               Samples.listening_app)) = false.
Proof.
  split; [reflexivity |].
  apply (silence_ends_the_session Scenario.cfg Scenario.ok
           Samples.listening_app Scenario.quiet 0
           [(Scenario.quiet, 1); (Scenario.quiet, 21 # 10)]%Q).
  - reflexivity.
  - repeat split; reflexivity.
  - reflexivity.
  - reflexivity.
  - repeat constructor.
  - apply Exists_cons_tl, Exists_cons_hd. reflexivity.
Defined.

End Exact.


(** With the voice tests of [Vad.exact]. *)

Section Exact.
#[local] Existing Instance Vad.exact.


End Exact.

(** ** Toggle mode left behind by a failed start *)

(** X5.  [toggle_recording] sets toggle mode before it tries to start.  When
    that start fails on the device, toggle mode stays on with no session;
    a push-to-talk session started afterwards is then not stopped by the
    key release. *)
Theorem failed_toggle_start_blocks_push_to_talk_release
    (dev_fail dev_ok dev : App.Device) (a : App.t) :
  App.is_recording a = false ->
  AudioRecorder.is_recording (App.audio_recorder a) = false ->
  App.on_open dev_fail <> AudioRecorder.OpenOk ->
  App.on_open dev_ok = AudioRecorder.OpenOk ->
  let a1 := fst (App.toggle_recording dev_fail a) in
  let a2 := fst (App.on_push_to_talk_start dev_ok a1) in
  (App.is_recording a1 = false /\ App.is_toggle_mode a1 = true)
  /\ App.is_recording a2 = true
  /\ App.on_push_to_talk_end dev a2 = (a2, []).
Proof.
  intros Hrec Hidle Hfail Hok. cbv zeta.
  assert (H1 : App.is_recording (fst (App.toggle_recording dev_fail a)) = false
               /\ App.is_toggle_mode (fst (App.toggle_recording dev_fail a))
                  = true
               /\ AudioRecorder.is_recording
                    (App.audio_recorder
                       (fst (App.toggle_recording dev_fail a))) = false).
  { unfold App.toggle_recording. simpl. rewrite Hrec.
    unfold App.start_recording, AudioRecorder.start_recording. simpl.
    rewrite Hidle. destruct (App.on_open dev_fail); simpl; auto.
    congruence. }
  destruct H1 as (R1 & T1 & I1).
  split; [auto |].
  unfold App.on_push_to_talk_start. rewrite R1. simpl.
  destruct (start_sets_recording dev_ok false _ Hok I1) as (R2 & T2 & _).
  cbv zeta in R2, T2. rewrite T1 in T2.
  split; [exact R2 |].
  unfold App.on_push_to_talk_end. now rewrite R2, T2.
Qed.

Lemma failed_toggle_start_blocks_push_to_talk_release_witness :
  App.is_recording (App.init 2) = false
  /\ App.on_push_to_talk_end Scenario.ok
       (fst (App.on_push_to_talk_start Scenario.ok
               (fst (App.toggle_recording Samples.broken (App.init 2)))))
     = (fst (App.on_push_to_talk_start Scenario.ok
               (fst (App.toggle_recording Samples.broken (App.init 2)))), []).
Proof.
  split; [reflexivity |].
  apply (failed_toggle_start_blocks_push_to_talk_release Samples.broken
           Scenario.ok Scenario.ok (App.init 2));
    try reflexivity; discriminate.
Defined.

(** ** Push-to-talk: one start per hold, and [reset] *)

Section PushToTalkHold.
Import PushToTalk.

Lemma chord_held_more keys base current :
  chord_held keys (normalized_set base) = true -> base ⊆ current ->
  chord_held keys (normalized_set current) = true.
Proof.
  unfold chord_held, normalized_set. rewrite !andb_true_iff.
  intros [Hne Hsub] Hmore. split; [exact Hne |].
  apply bool_decide_eq_true in Hsub. apply bool_decide_eq_true.
  set_solver.
Qed.

Lemma check_activation_rising cfg dev keys h a :
  enabled h = true -> is_active h = false ->
  chord_held (normalized_list (hotkeys_push_to_talk cfg))
    (normalized_set keys) = true ->
  check_activation cfg dev keys h a
  = (true, set_is_active true h,
     fst (App.on_push_to_talk_start dev a),
     snd (App.on_push_to_talk_start dev a)).
Proof.
  intros He Ha Hc. unfold check_activation. rewrite He, Ha, Hc. simpl.
  now destruct (App.on_push_to_talk_start dev a).
Qed.

Lemma check_activation_held cfg dev keys h a :
  enabled h = true -> is_active h = true ->
  chord_held (normalized_list (hotkeys_push_to_talk cfg))
    (normalized_set keys) = true ->
  check_activation cfg dev keys h a = (false, h, a, []).
Proof.
  intros He Ha Hc. unfold check_activation. now rewrite He, Ha, Hc.
Qed.

Lemma checks_held cfg dev base events h a :
  enabled h = true -> is_active h = true ->
  chord_held (normalized_list (hotkeys_push_to_talk cfg))
    (normalized_set base) = true ->
  Forall (fun keys => base ⊆ keys) events ->
  PushToTalkExt.checks cfg dev events h a
  = (replicate (length events) false, h, a, []).
Proof.
  intros He Ha Hc Hall. induction Hall as [| keys rest Hk Hrest IH];
    [reflexivity |].
  simpl.
  rewrite (check_activation_held cfg dev keys h a He Ha
             (chord_held_more _ _ _ Hc Hk)), IH.
  reflexivity.
Qed.

End PushToTalkHold.

(** X6.  While the push-to-talk chord stays held, whatever other keys are
    pressed along with it, a run of key events fires
    [on_push_to_talk_start] on the first event only: the first
    [check_activation] returns [True], every later one returns [False] and
    touches neither the handler nor the controller. *)
Theorem push_to_talk_starts_once_while_held
    (cfg : Config) (dev : App.Device) (base first : gset string)
    (rest : list (gset string)) (h : PushToTalk.t) (a : App.t) :
  PushToTalk.enabled h = true ->
  PushToTalk.is_active h = false ->
  chord_held (normalized_list (hotkeys_push_to_talk cfg))
    (normalized_set base) = true ->
  Forall (fun keys => base ⊆ keys) (first :: rest) ->
  PushToTalkExt.checks cfg dev (first :: rest) h a
  = (true :: replicate (length rest) false,
     PushToTalk.set_is_active true h,
     fst (App.on_push_to_talk_start dev a),
     snd (App.on_push_to_talk_start dev a)).
Proof.
  intros He Ha Hc Hall. inversion Hall as [| ? ? Hfirst Hrest]; subst.
  simpl.
  rewrite (check_activation_rising cfg dev first h a He Ha
             (chord_held_more _ _ _ Hc Hfirst)).
  rewrite (checks_held cfg dev base rest (PushToTalk.set_is_active true h)
             _ He eq_refl Hc Hrest).
  now rewrite app_nil_r.
Qed.

Lemma push_to_talk_starts_once_while_held_witness :
  chord_held (normalized_list (hotkeys_push_to_talk Scenario.cfg))
    (normalized_set Samples.ptt) = true
  /\ fst (fst (fst (PushToTalkExt.checks Scenario.cfg Scenario.ok
                      [Samples.ptt; Samples.ptt_and_more; Samples.ptt]
                      PushToTalk.init (App.init 2))))
     = [true; false; false].
Proof.
  split; [vm_compute; reflexivity |].
  rewrite (push_to_talk_starts_once_while_held Scenario.cfg Scenario.ok
             Samples.ptt Samples.ptt [Samples.ptt_and_more; Samples.ptt]
             PushToTalk.init (App.init 2)).
  - reflexivity.
  - reflexivity.
  - reflexivity.
  - vm_compute. reflexivity.
  - repeat constructor; unfold Samples.ptt_and_more; set_solver.
Defined.

(** X7.  [reset] leaves the handler inactive, and a second [reset] does
    nothing.  On an inactive handler it does nothing at all.  On an active
    one it clears the flag and calls [on_push_to_talk_end]: a recording that
    is not in toggle mode is stopped through the controller's stop path,
    a recording in toggle mode survives, and a controller that is not
    recording is left alone.  After a [reset] the handler is armed again:
    the next key event that finds the chord held fires
    [on_push_to_talk_start]. *)
Theorem reset_deactivates_and_rearms
    (cfg : Config) (dev dev' : App.Device) (keys : gset string)
    (h : PushToTalk.t) (a : App.t) :
  let h1 := fst (fst (PushToTalkExt.reset dev h a)) in
  let a1 := snd (fst (PushToTalkExt.reset dev h a)) in
  let ev1 := snd (PushToTalkExt.reset dev h a) in
  PushToTalk.is_active h1 = false
  /\ PushToTalkExt.reset dev' h1 a1 = (h1, a1, [])
  /\ (PushToTalk.is_active h = false -> h1 = h /\ a1 = a /\ ev1 = [])
  /\ (PushToTalk.is_active h = true ->
      h1 = PushToTalk.set_is_active false h
      /\ (App.is_recording a = true -> App.is_toggle_mode a = false ->
          a1 = fst (App.stop_recording_and_transcribe dev a)
          /\ ev1 = snd (App.stop_recording_and_transcribe dev a)
          /\ App.is_recording a1 = false
          /\ count is_processing_status ev1 = 1%nat)
      /\ (App.is_recording a = false -> a1 = a /\ ev1 = []))
  /\ (App.is_recording a = true -> App.is_toggle_mode a = true ->
      a1 = a /\ ev1 = [])
  /\ (PushToTalk.enabled h = true ->
      chord_held (normalized_list (hotkeys_push_to_talk cfg))
        (normalized_set keys) = true ->
      PushToTalk.check_activation cfg dev' keys h1 a1
      = (true, PushToTalk.set_is_active true h1,
         fst (App.on_push_to_talk_start dev' a1),
         snd (App.on_push_to_talk_start dev' a1))).
Proof.
  cbv zeta.
  assert (Hoff : PushToTalk.is_active
                   (fst (fst (PushToTalkExt.reset dev h a))) = false).
  { unfold PushToTalkExt.reset. destruct (PushToTalk.is_active h) eqn:E.
    - destruct (App.on_push_to_talk_end dev a). reflexivity.
    - exact E. }
  assert (Hen : PushToTalk.enabled (fst (fst (PushToTalkExt.reset dev h a)))
                = PushToTalk.enabled h).
  { unfold PushToTalkExt.reset. destruct (PushToTalk.is_active h).
    - destruct (App.on_push_to_talk_end dev a). reflexivity.
    - reflexivity. }
  split; [exact Hoff |]. split; [| split; [| split; [| split]]].
  - unfold PushToTalkExt.reset at 1. now rewrite Hoff.
  - intros Hi. unfold PushToTalkExt.reset. rewrite Hi. auto.
  - intros Hi. unfold PushToTalkExt.reset. rewrite Hi.
    unfold App.on_push_to_talk_end. split; [| split].
    + destruct (_ && _); [| reflexivity].
      destruct (App.stop_recording_and_transcribe dev a). reflexivity.
    + intros Hrec Htog. rewrite Hrec, Htog. simpl.
      destruct (stop_clears_flags dev a) as (Hstop & _).
      pose proof (stop_announced dev a) as Hshown.
      destruct (App.stop_recording_and_transcribe dev a) as [a' ev'].
      simpl in *. auto.
    + intros Hrec. rewrite Hrec. simpl. auto.
  - intros Hrec Htog. unfold PushToTalkExt.reset.
    destruct (PushToTalk.is_active h); [| auto].
    unfold App.on_push_to_talk_end. rewrite Hrec, Htog. auto.
  - intros He Hc. apply check_activation_rising; [congruence | exact Hoff |
                                                    exact Hc].
Qed.

Lemma reset_deactivates_and_rearms_witness :
  let recording := fst (App.start_recording Scenario.ok false (App.init 2)) in
  PushToTalk.is_active Samples.active_handler = true
  /\ PushToTalk.enabled Samples.active_handler = true
  /\ App.is_recording recording = true
  /\ App.is_recording
       (snd (fst (PushToTalkExt.reset Scenario.ok Samples.active_handler
                    recording))) = false
  /\ fst (fst (fst (PushToTalk.check_activation Scenario.cfg Scenario.ok
                      Samples.ptt
                      (fst (fst (PushToTalkExt.reset Scenario.ok
                                   Samples.active_handler recording)))
                      (snd (fst (PushToTalkExt.reset Scenario.ok
                                   Samples.active_handler recording))))))
     = true.
Proof.
  cbv zeta.
  split; [reflexivity |]. split; [reflexivity |]. split; [reflexivity |].
  destruct (reset_deactivates_and_rearms Scenario.cfg Scenario.ok Scenario.ok
              Samples.ptt Samples.active_handler
              (fst (App.start_recording Scenario.ok false (App.init 2))))
    as (_ & _ & _ & Hactive & _ & Harm).
  split.
  - destruct (Hactive eq_refl) as (_ & Hstop & _).
    apply Hstop; reflexivity.
  - rewrite Harm; [reflexivity | reflexivity | vm_compute; reflexivity].
Defined.

(** ** Key names *)

Section KeyNames.
Import HotkeyManagerExt.

Lemma keys_after_press_release (n : string) (keys : gset string) :
  ({[ n ]} ∪ keys) ∖ {[ n ]} = keys ∖ {[ n ]}.
Proof. set_solver. Qed.

End KeyNames.

(** X8.  A key with a printable character is named by that character in
    lower case.  For any other key, [_get_key_name] goes by the lower-case
    form of the key's name: the left and the right variant of
    a modifier get the same name (ctrl, alt, shift, and win for both the cmd
    and the win keys) however the name is capitalised, and every other name
    is returned in lower case.  The set of pressed keys therefore does not
    tell the two sides apart: when one key has been pressed and another
    with the same name is released, the name is gone from the set, whatever
    was held before. *)
Theorem modifier_sides_share_a_name
    (cfg : Config) (side other k : HotkeyManagerExt.key)
    (key_name n variant base : string)
    (t1 t2 : Q) (dev1 dev2 : App.Device)
    (m : HotkeyManager.t) (a : App.t) :
  (match HotkeyManagerExt.char k with
   | Some (Some c) => c = EmptyString \/ PyStrExt.isprintable c = false
   | _ => True
   end ->
   HotkeyManagerExt.name k = Some key_name ->
   (In (variant, base)
      [("ctrl_l", "ctrl"); ("ctrl_r", "ctrl");
       ("alt_l", "alt"); ("alt_r", "alt");
       ("shift_l", "shift"); ("shift_r", "shift");
       ("cmd", "win"); ("cmd_l", "win"); ("cmd_r", "win");
       ("win", "win"); ("win_l", "win"); ("win_r", "win")]%string ->
    PyStr.lower key_name = variant ->
    HotkeyManagerExt._get_key_name k = Some base)
   /\ (~ In (PyStr.lower key_name)
           ["ctrl_l"; "ctrl_r"; "alt_l"; "alt_r"; "shift_l"; "shift_r";
            "cmd"; "cmd_l"; "cmd_r"; "win"; "win_l"; "win_r"]%string ->
       HotkeyManagerExt._get_key_name k = Some (PyStr.lower key_name)))
  /\ (forall c,
        HotkeyManagerExt.char k = Some (Some c) -> c <> EmptyString ->
        PyStrExt.isprintable c = true ->
        HotkeyManagerExt._get_key_name k = Some (PyStr.lower c))
  /\ (HotkeyManager.enabled m = true -> n <> EmptyString ->
      HotkeyManagerExt._get_key_name side = Some n ->
      HotkeyManagerExt._get_key_name other = Some n ->
      let m1 := fst (fst (HotkeyManagerExt.on_press cfg side t1 dev1 m a)) in
      let a1 := snd (fst (HotkeyManagerExt.on_press cfg side t1 dev1 m a)) in
      let m2 :=
        fst (fst (HotkeyManagerExt.on_release cfg other t2 dev2 m1 a1)) in
      HotkeyManager.current_keys m1 = {[ n ]} ∪ HotkeyManager.current_keys m
      /\ HotkeyManager.current_keys m2
         = HotkeyManager.current_keys m ∖ {[ n ]}).
Proof.
  split.
  { intros Hchar Hname.
    assert (Hget : HotkeyManagerExt._get_key_name k
                   = Some (HotkeyManagerExt.mapped
                             HotkeyManagerExt.name_mapping
                             (PyStr.lower key_name))).
    { unfold HotkeyManagerExt._get_key_name. rewrite Hname.
      destruct (HotkeyManagerExt.char k) as [[c |] |]; try reflexivity.
      destruct Hchar as [-> | Hp]; [reflexivity |].
      rewrite Hp, andb_false_r. reflexivity. }
    rewrite Hget. split.
    - intros Hin <-. simpl in Hin.
      repeat (destruct Hin as [Hin | Hin];
              [injection Hin as <- <-; reflexivity |]).
      destruct Hin.
    - intros Hout. unfold HotkeyManagerExt.name_mapping. simpl.
      repeat (destruct (bool_decide _) eqn:E;
              [apply bool_decide_eq_true in E; exfalso; apply Hout;
               rewrite <- E; simpl; tauto | clear E]).
      reflexivity. }
  split.
  { intros c Hc Hne Hp. unfold HotkeyManagerExt._get_key_name.
    rewrite Hc, Hp, (bool_decide_eq_false_2 _ Hne). reflexivity. }
  intros Hen Hn Hs Ho. cbv zeta.
  assert (Hne : bool_decide (n = EmptyString) = false)
    by now apply bool_decide_eq_false.
  assert (H1 : HotkeyManager.current_keys
                 (fst (fst (HotkeyManagerExt.on_press cfg side t1 dev1 m a)))
               = {[ n ]} ∪ HotkeyManager.current_keys m
               /\ HotkeyManager.enabled
                    (fst (fst (HotkeyManagerExt.on_press cfg side t1 dev1
                                 m a))) = true).
  { unfold HotkeyManagerExt.on_press, HotkeyManager._on_key_press. simpl.
    rewrite Hen, Hs, Hne. simpl.
    destruct (PushToTalk.check_activation _ _ _ _ _) as [[[r p] a1] ev1].
    destruct (ToggleRecording.check_activation _ _ _ _ _ _)
      as [[[r2 g] a2] ev2].
    simpl. auto. }
  destruct H1 as [Hk1 He1]. split; [exact Hk1 |].
  unfold HotkeyManagerExt.on_release, HotkeyManager._on_key_release. simpl.
  rewrite He1, Ho, Hne. simpl.
  destruct (PushToTalk.check_activation _ _ _ _ _) as [[[r p] a1] ev1].
  simpl. rewrite Hk1. apply keys_after_press_release.
Qed.

Lemma modifier_sides_share_a_name_witness :
  HotkeyManagerExt._get_key_name (HotkeyManagerExt.special "Ctrl_R")
  = Some "ctrl"%string
  /\ HotkeyManagerExt._get_key_name (HotkeyManagerExt.special "F5")
     = Some "f5"%string
  /\ HotkeyManager.current_keys
       (fst (fst (HotkeyManagerExt.on_release Scenario.cfg
                    (HotkeyManagerExt.special "ctrl_r") 2 Scenario.ok
                    (fst (fst (HotkeyManagerExt.on_press Scenario.cfg
                                 (HotkeyManagerExt.special "ctrl_l") 1
                                 Scenario.ok HotkeyManager.init (App.init 2))))
                    (snd (fst (HotkeyManagerExt.on_press Scenario.cfg
                                 (HotkeyManagerExt.special "ctrl_l") 1
                                 Scenario.ok HotkeyManager.init
                                 (App.init 2)))))))
     = ∅ ∖ {[ "ctrl"%string ]}.
Proof.
  destruct (modifier_sides_share_a_name Scenario.cfg
              (HotkeyManagerExt.special "ctrl_l")
              (HotkeyManagerExt.special "ctrl_r")
              (HotkeyManagerExt.special "Ctrl_R") "Ctrl_R" "ctrl"
              "ctrl_r" "ctrl" 1 2
              Scenario.ok Scenario.ok HotkeyManager.init (App.init 2))
    as (Hname & _ & Hkeys).
  destruct (modifier_sides_share_a_name Scenario.cfg
              (HotkeyManagerExt.special "ctrl_l")
              (HotkeyManagerExt.special "ctrl_r")
              (HotkeyManagerExt.special "F5") "F5" "ctrl"
              "ctrl_r" "ctrl" 1 2
              Scenario.ok Scenario.ok HotkeyManager.init (App.init 2))
    as [Hother _].
  split; [| split].
  - apply (Hname I eq_refl); [simpl; tauto | reflexivity].
  - apply (Hother I eq_refl). simpl. intuition discriminate.
  - apply Hkeys; try reflexivity; discriminate.
Defined.

(** Both control keys down for push-to-talk, one of them released: the
    session is stopped although a control key and the space bar are still
    held. *)
Example releasing_one_side_ends_push_to_talk :
  let press k t m a :=
    HotkeyManagerExt.on_press Scenario.cfg k t Scenario.ok m a in
  let '(m1, a1, _) :=
    press (HotkeyManagerExt.special "ctrl_l") 1%Q HotkeyManager.init
      (App.init 2) in
  let '(m2, a2, _) := press (HotkeyManagerExt.special "ctrl_r") 2%Q m1 a1 in
  let '(m3, a3, _) := press (HotkeyManagerExt.special "space") 3%Q m2 a2 in
  let '(m4, a4, _) :=
    HotkeyManagerExt.on_release Scenario.cfg
      (HotkeyManagerExt.special "ctrl_r") 4 Scenario.ok m3 a3 in
  App.is_recording a3 = true /\ App.is_recording a4 = false.
Proof. vm_compute. split; reflexivity. Qed.

(** ** The list of audio devices *)

Section DeviceList.
Import Devices.

Lemma scan_spec query i n d :
  In d (scan query i n)
  <-> (i <= index d < i + n)%nat
      /\ (forall j, (i <= j <= index d)%nat -> query j <> None)
      /\ exists info,
           query (index d) = Some info
           /\ 0 < maxInputChannels info
           /\ device_name d = name info
           /\ channels d = maxInputChannels info.
Proof.
  revert i. induction n as [| n IH]; intros i; simpl.
  - split; [tauto | intros [H _]; lia].
  - destruct (query i) as [info |] eqn:Hq.
    + rewrite in_app_iff, IH. split.
      * intros [Hhere | (Hr & Hall & Hinfo)].
        -- destruct (Z.ltb_spec 0 (maxInputChannels info)) as [Hpos | _];
             [| destruct Hhere].
           destruct Hhere as [<- | []]. simpl.
           split; [lia |]. split.
           ++ intros j Hj. assert (j = i) by lia. subst. congruence.
           ++ exists info. auto.
        -- split; [lia |]. split; [| exact Hinfo].
           intros j Hj. destruct (decide (j = i)) as [-> | Hne];
             [congruence | apply Hall; lia].
      * intros (Hr & Hall & info' & Hq' & Hpos & Hn & Hc).
        destruct (decide (index d = i)) as [Hi | Hi].
        -- left. rewrite Hi, Hq in Hq'. inversion Hq'; subst info'.
           destruct (Z.ltb_spec 0 (maxInputChannels info)); [| lia].
           left. destruct d as [di dn dc]. simpl in *. congruence.
        -- right. split; [lia |]. split; [intros j Hj; apply Hall; lia |].
           exists info'. auto.
    + split; [intros [] |].
      intros (Hr & Hall & _). exfalso. apply (Hall i); [lia | exact Hq].
Qed.

Lemma scan_sorted query i n :
  Forall (fun d => (i <= index d)%nat) (scan query i n)
  /\ StronglySorted lt (map index (scan query i n)).
Proof.
  revert i. induction n as [| n IH]; intros i; simpl.
  - split; constructor.
  - destruct (query i) as [info |]; [| split; constructor].
    destruct (IH (S i)) as [Hge Hsorted].
    assert (Hge' : Forall (fun d => (i <= index d)%nat) (scan query (S i) n)).
    { apply List.Forall_forall. intros d Hd.
      apply (proj1 (List.Forall_forall _ _) Hge) in Hd. lia. }
    destruct (0 <? maxInputChannels info); simpl.
    + split; [constructor; [simpl; lia | exact Hge'] |].
      constructor; [exact Hsorted |].
      apply List.Forall_forall. intros x Hx. apply in_map_iff in Hx.
      destruct Hx as (d & <- & Hd).
      apply (proj1 (List.Forall_forall _ _) Hge) in Hd. lia.
    + split; assumption.
Qed.

End DeviceList.

(** X9.  [get_audio_devices] returns exactly the devices with at least one
    input channel among those queried before the first query that fails
    (all of them when none fails), each with its position in the host's
    table as index and the host's name and channel count, in increasing
    order of index; when the device count cannot be read it returns the
    empty list. *)
Theorem get_audio_devices_lists_inputs
    (count : Z) (query : nat -> option Devices.device_info)
    (d : Devices.device) :
  (In d (Devices.get_audio_devices (Some count) query)
   <-> Z.of_nat (Devices.index d) < count
       /\ (forall j, (j <= Devices.index d)%nat -> query j <> None)
       /\ exists info,
            query (Devices.index d) = Some info
            /\ 0 < Devices.maxInputChannels info
            /\ Devices.device_name d = Devices.name info
            /\ Devices.channels d = Devices.maxInputChannels info)
  /\ StronglySorted lt
       (map Devices.index (Devices.get_audio_devices (Some count) query))
  /\ Devices.get_audio_devices None query = [].
Proof.
  split; [| split; [apply scan_sorted | reflexivity]].
  unfold Devices.get_audio_devices. rewrite scan_spec. split.
  - intros (Hr & Hall & Hinfo). split; [lia |]. split; [| exact Hinfo].
    intros j Hj. apply Hall. lia.
  - intros (Hr & Hall & Hinfo). split; [lia |]. split; [| exact Hinfo].
    intros j Hj. apply Hall. lia.
Qed.

Lemma get_audio_devices_lists_inputs_witness :
  In {| Devices.index := 2; Devices.device_name := "Headset";
        Devices.channels := 1 |}
    (Devices.get_audio_devices (Some 5) Samples.table)
  /\ Devices.get_audio_devices (Some 5) Samples.table
     = [{| Devices.index := 0; Devices.device_name := "Microphone";
           Devices.channels := 2 |};
        {| Devices.index := 2; Devices.device_name := "Headset";
           Devices.channels := 1 |}].
Proof.
  split; [| reflexivity].
  apply (get_audio_devices_lists_inputs 5 Samples.table).
  split; [reflexivity |]. split.
  - intros [| [| [| j]]] Hj; simpl in *; [discriminate .. | lia].
  - eexists. repeat split; reflexivity.
Defined.

(** ** The configuration store *)

Section ConfigStore.
Import ConfigManager ConfigPath.

Lemma find_assign d key v key' :
  find (assign d key v) key'
  = if bool_decide (key = key') then Some v else find d key'.
Proof.
  induction d as [| [k x] rest IH]; simpl.
  - reflexivity.
  - destruct (bool_decide (k = key)) eqn:E; simpl.
    + apply bool_decide_eq_true in E. subst k.
      destruct (bool_decide (key = key')); reflexivity.
    + rewrite IH. apply bool_decide_eq_false in E.
      destruct (bool_decide (k = key')) eqn:E1; [| reflexivity].
      apply bool_decide_eq_true in E1. subst k.
      destruct (bool_decide (key = key')) eqn:E2; [| reflexivity].
      apply bool_decide_eq_true in E2. congruence.
Qed.

Lemma find_assign_same d key v : find (assign d key v) key = Some v.
Proof. rewrite find_assign. now rewrite bool_decide_eq_true_2. Qed.

Lemma find_assign_other d key v key' :
  key <> key' -> find (assign d key v) key' = find d key'.
Proof. intros H. rewrite find_assign. now rewrite bool_decide_eq_false_2. Qed.

(** What is stored under the path comes back. *)
Lemma get_from_stored v keys default x :
  stored v keys = Some x -> is_none x = false ->
  get_from v keys default = Returns x.
Proof.
  revert v. induction keys as [| key rest IH]; intros v Hs Hx; simpl in *.
  - congruence.
  - destruct v; try discriminate.
    destruct (find entries key) as [y |]; [| discriminate].
    assert (Hy : is_none y = false).
    { destruct y; try reflexivity. destruct rest; simpl in Hs;
        [inversion Hs; subst; discriminate | discriminate]. }
    destruct y; try discriminate; apply IH; assumption.
Qed.

(** A missing last key, or [None] stored at the end, gives the default. *)
Lemma get_from_missing v prefix key default d :
  stored v prefix = Some (VDict d) ->
  find d key = None \/ find d key = Some VNone ->
  get_from v (prefix ++ [key]) default = Returns default.
Proof.
  revert v. induction prefix as [| k rest IH]; intros v Hs Hk; simpl in *.
  - inversion Hs; subst. destruct Hk as [-> | ->]; [| reflexivity].
    destruct default; reflexivity.
  - destruct v; try discriminate.
    destruct (find entries k) as [y |]; [| discriminate].
    assert (Hy : is_none y = false).
    { destruct y; try reflexivity. destruct rest; discriminate. }
    destruct y; try discriminate; apply IH; assumption.
Qed.

(** A path that runs into a value that is neither a dictionary nor [None]
    raises. *)
Lemma get_from_blocked v prefix key rest default x :
  stored v prefix = Some x -> is_dict x = false -> is_none x = false ->
  get_from v (prefix ++ key :: rest) default = Raises.
Proof.
  revert v. induction prefix as [| k more IH]; intros v Hs Hd Hn;
    simpl in *.
  - inversion Hs; subst. destruct x; try reflexivity; discriminate.
  - destruct v; try discriminate.
    destruct (find entries k) as [y |]; [| discriminate].
    assert (Hy : is_none y = false).
    { destruct y; try reflexivity.
      destruct more; simpl in Hs; [inversion Hs; subst; discriminate |
                                    discriminate]. }
    destruct y; try discriminate; apply IH; assumption.
Qed.

(** A missing section with a default that is neither a dictionary nor
    [None] raises as well: the default is searched for the next key. *)
Lemma get_from_default_searched v prefix key next rest default d :
  stored v prefix = Some (VDict d) -> find d key = None ->
  is_dict default = false -> is_none default = false ->
  get_from v (prefix ++ key :: next :: rest) default = Raises.
Proof.
  revert v. induction prefix as [| k more IH]; intros v Hs Hk Hd Hn;
    simpl in *.
  - inversion Hs; subst. rewrite Hk.
    destruct default; try discriminate; reflexivity.
  - destruct v; try discriminate.
    destruct (find entries k) as [y |]; [| discriminate].
    assert (Hy : is_none y = false).
    { destruct y; try reflexivity. destruct more; discriminate. }
    destruct y; try discriminate; apply IH; assumption.
Qed.

End ConfigStore.

Section ConfigStoreMore.
Import ConfigManager ConfigPath.

Lemma split_sep_go_nonempty sep skip cur s :
  PyStrExt.split_sep_go sep skip cur s <> [].
Proof.
  revert skip cur. induction s as [| c rest IH]; intros skip cur; simpl.
  - discriminate.
  - destruct skip; [| apply IH].
    destruct (PyStrExt.starts_with sep (c :: rest)); [discriminate | apply IH].
Qed.

Lemma split_sep_nonempty sep s : PyStrExt.split_sep sep s <> [].
Proof.
  unfold PyStrExt.split_sep. intros H. apply map_eq_nil in H.
  exact (split_sep_go_nonempty _ _ _ _ H).
Qed.

Lemma set_in_get config keys v config' default :
  keys <> [] -> set_in config keys v = Returns config' ->
  get_from (VDict config') keys default
  = Returns (if is_none v then default else v).
Proof.
  revert config config'. induction keys as [| key rest IH];
    intros config config' Hne Hset; [congruence |].
  destruct rest as [| key2 rest].
  - simpl in Hset. inversion Hset; subst. simpl.
    rewrite find_assign_same. destruct v; reflexivity.
  - assert (Hsub : exists sub,
               set_in match find config key with
                      | Some (VDict d) => d
                      | _ => []
                      end (key2 :: rest) v = Returns sub
               /\ config' = assign config key (VDict sub)).
    { simpl in Hset. simpl.
      destruct (find config key) as [[] |]; try discriminate.
      - destruct (match rest with [] => _ | _ :: _ => _ end) as [sub |];
          [| discriminate].
        inversion Hset; subst. eauto.
      - destruct (match rest with [] => _ | _ :: _ => _ end) as [sub |];
          [| discriminate].
        inversion Hset; subst. eauto. }
    destruct Hsub as (sub & Hsub & ->).
    change (get_from (VDict (assign config key (VDict sub)))
              (key :: key2 :: rest) default)
      with (match find (assign config key (VDict sub)) key with
            | Some VNone => Returns default
            | Some x => get_from x (key2 :: rest) default
            | None => match default with
                      | VNone => Returns default
                      | _ => get_from default (key2 :: rest) default
                      end
            end).
    rewrite find_assign_same. eapply IH; [discriminate | exact Hsub].
Qed.

Lemma set_in_frame config key rest v config' key' :
  set_in config (key :: rest) v = Returns config' -> key <> key' ->
  find config' key' = find config key'.
Proof.
  intros Hset Hne. destruct rest as [| key2 rest].
  - simpl in Hset. inversion Hset; subst. now apply find_assign_other.
  - simpl in Hset.
    destruct (find config key) as [[] |]; try discriminate;
      destruct (match rest with [] => _ | _ :: _ => _ end) as [sub |];
      try discriminate; inversion Hset; subst;
      now apply find_assign_other.
Qed.

Lemma find_absent (l : list (string * value)) key :
  ~ In key (map fst l) -> find l key = None.
Proof.
  induction l as [| [k x] rest IH]; simpl; intros H; [reflexivity |].
  rewrite bool_decide_eq_false_2 by tauto. apply IH. tauto.
Qed.

Lemma merge_loop_find l result key :
  NoDup (map fst l) ->
  find (merge_loop l result) key
  = match find l key with
    | Some v => Some (merged v (find result key))
    | None => find result key
    end.
Proof.
  revert result. induction l as [| [k x] rest IH]; intros result Hnd;
    [reflexivity |].
  simpl in Hnd. apply NoDup_cons in Hnd as [Hk Hrest]. simpl.
  rewrite (IH _ Hrest), find_assign.
  destruct (bool_decide (k = key)) eqn:E.
  - apply bool_decide_eq_true in E. subst key.
    rewrite find_absent; [reflexivity |].
    intros Hin. apply Hk. apply list_elem_of_In. exact Hin.
  - reflexivity.
Qed.

Lemma merged_dicts l d :
  merged (VDict l) (Some (VDict d)) = VDict (merge_loop l d).
Proof. reflexivity. Qed.

End ConfigStoreMore.

(** X10.  [get] returns what is stored under the dotted path whenever the
    path leads through dictionaries to a value that is not [None]; and it
    returns the default when the dictionaries on the way are there and the
    last key is missing or holds [None]. *)
Theorem get_returns_stored_or_default
    (config : list (string * ConfigManager.value)) (key_path : string)
    (default : ConfigManager.value) :
  (forall x,
      ConfigPath.stored (ConfigManager.VDict config)
        (PyStrExt.split_sep "." key_path) = Some x ->
      ConfigPath.is_none x = false ->
      ConfigManager.get config key_path default = ConfigManager.Returns x)
  /\ (forall prefix key d,
         PyStrExt.split_sep "." key_path = prefix ++ [key] ->
         ConfigPath.stored (ConfigManager.VDict config) prefix
         = Some (ConfigManager.VDict d) ->
         ConfigManager.find d key = None
         \/ ConfigManager.find d key = Some ConfigManager.VNone ->
         ConfigManager.get config key_path default
         = ConfigManager.Returns default).
Proof.
  split.
  - intros x Hs Hx. now apply get_from_stored.
  - intros prefix key d Hsplit Hs Hk. unfold ConfigManager.get.
    rewrite Hsplit. eapply get_from_missing; eauto.
Qed.

Lemma get_returns_stored_or_default_witness :
  ConfigManager.get ConfigManager.default_config "audio.sample_rate"
    (ConfigManager.VInt 8000)
  = ConfigManager.Returns (ConfigManager.VInt 16000)
  /\ ConfigManager.get ConfigManager.default_config "audio.device_index"
       (ConfigManager.VInt 3)
     = ConfigManager.Returns (ConfigManager.VInt 3).
Proof.
  destruct (get_returns_stored_or_default ConfigManager.default_config
              "audio.sample_rate" (ConfigManager.VInt 8000)) as [H1 _].
  destruct (get_returns_stored_or_default ConfigManager.default_config
              "audio.device_index" (ConfigManager.VInt 3)) as [_ H2].
  split.
  - apply H1; reflexivity.
  - eapply (H2 ["audio"%string] "device_index"%string);
      [reflexivity | reflexivity | right; reflexivity].
Defined.

(** X11.  [get] raises instead of returning the default in two cases: when
    the path continues past a stored value that is neither a dictionary nor
    [None] (a number, a string, a list), and when a key that is not the
    last one is missing while the default is neither a dictionary nor
    [None], because the default itself is then searched for the next
    key. *)
Theorem get_raises_on_blocked_path
    (config : list (string * ConfigManager.value)) (key_path : string)
    (default : ConfigManager.value) :
  (forall prefix key rest x,
      PyStrExt.split_sep "." key_path = prefix ++ key :: rest ->
      ConfigPath.stored (ConfigManager.VDict config) prefix = Some x ->
      ConfigPath.is_dict x = false -> ConfigPath.is_none x = false ->
      ConfigManager.get config key_path default = ConfigManager.Raises)
  /\ (forall prefix key next rest d,
         PyStrExt.split_sep "." key_path = prefix ++ key :: next :: rest ->
         ConfigPath.stored (ConfigManager.VDict config) prefix
         = Some (ConfigManager.VDict d) ->
         ConfigManager.find d key = None ->
         ConfigPath.is_dict default = false ->
         ConfigPath.is_none default = false ->
         ConfigManager.get config key_path default = ConfigManager.Raises).
Proof.
  split.
  - intros prefix key rest x Hsplit Hs Hd Hn. unfold ConfigManager.get.
    rewrite Hsplit. eapply get_from_blocked; eauto.
  - intros prefix key next rest d Hsplit Hs Hk Hd Hn.
    unfold ConfigManager.get. rewrite Hsplit.
    eapply get_from_default_searched; eauto.
Qed.

Lemma get_raises_on_blocked_path_witness :
  ConfigManager.get ConfigManager.default_config "audio.sample_rate.unit"
    ConfigManager.VNone = ConfigManager.Raises
  /\ ConfigManager.get ConfigManager.default_config "plugins.enabled"
       (ConfigManager.VBool true) = ConfigManager.Raises.
Proof.
  destruct (get_raises_on_blocked_path ConfigManager.default_config
              "audio.sample_rate.unit" ConfigManager.VNone) as [H1 _].
  destruct (get_raises_on_blocked_path ConfigManager.default_config
              "plugins.enabled" (ConfigManager.VBool true)) as [_ H2].
  split.
  - eapply (H1 ["audio"; "sample_rate"]%string "unit"%string []);
      reflexivity.
  - eapply (H2 [] "plugins"%string "enabled"%string []); reflexivity.
Defined.

(** X12.  After a [set] that returns, [get] on the same path returns the
    value that was set, or the default when that value is [None]; and [set]
    changes nothing under any other top-level key. *)
Theorem set_then_get
    (config config' : list (string * ConfigManager.value))
    (key_path : string) (v default : ConfigManager.value) :
  ConfigManager.set config key_path v = ConfigManager.Returns config' ->
  ConfigManager.get config' key_path default
  = ConfigManager.Returns (if ConfigPath.is_none v then default else v)
  /\ (forall key rest other,
         PyStrExt.split_sep "." key_path = key :: rest -> key <> other ->
         ConfigManager.find config' other = ConfigManager.find config other).
Proof.
  intros Hset. split.
  - unfold ConfigManager.get. eapply set_in_get; [| exact Hset].
    apply split_sep_nonempty.
  - intros key rest other Hsplit Hne. unfold ConfigManager.set in Hset.
    rewrite Hsplit in Hset. eapply set_in_frame; eauto.
Qed.

Lemma set_then_get_witness :
  (exists config',
      ConfigManager.set ConfigManager.default_config "audio.sample_rate"
        (ConfigManager.VInt 44100) = ConfigManager.Returns config'
      /\ ConfigManager.get config' "audio.sample_rate" (ConfigManager.VInt 0)
         = ConfigManager.Returns (ConfigManager.VInt 44100)).
Proof.
  eexists. split; [reflexivity |].
  apply (set_then_get ConfigManager.default_config _ "audio.sample_rate"
           (ConfigManager.VInt 44100) (ConfigManager.VInt 0)).
  reflexivity.
Defined.

(** X13.  [_deep_merge] keeps every key of the defaults.  Under a key of
    the loaded dictionary it stores the loaded value, except that two
    dictionaries are merged in turn; under every other key it keeps the
    default. *)
Theorem deep_merge_lookup
    (default loaded : list (string * ConfigManager.value)) (key : string) :
  NoDup (map fst loaded) ->
  ConfigManager.find (ConfigManager._deep_merge default loaded) key
  = match ConfigManager.find loaded key, ConfigManager.find default key with
    | Some (ConfigManager.VDict l), Some (ConfigManager.VDict d) =>
        Some (ConfigManager.VDict (ConfigManager._deep_merge d l))
    | Some v, _ => Some v
    | None, kept => kept
    end
  /\ (ConfigManager.find default key <> None ->
      ConfigManager.find (ConfigManager._deep_merge default loaded) key
      <> None).
Proof.
  intros Hnd. unfold ConfigManager._deep_merge.
  rewrite (merge_loop_find loaded default key Hnd).
  split.
  - destruct (ConfigManager.find loaded key) as [v |]; [| reflexivity].
    destruct v; try reflexivity.
    destruct (ConfigManager.find default key) as [[] |]; reflexivity.
  - intros Hd. destruct (ConfigManager.find loaded key); [discriminate |].
    exact Hd.
Qed.

Lemma deep_merge_lookup_witness :
  NoDup (map fst Samples.user_config)
  /\ ConfigManager.get
       (ConfigManager._deep_merge ConfigManager.default_config
          Samples.user_config)
       "hotkeys.toggle_recording" ConfigManager.VNone
     = ConfigManager.Returns
         (ConfigManager.VList
            [ConfigManager.VStr "ctrl"; ConfigManager.VStr "shift";
             ConfigManager.VStr "r"])
  /\ ConfigManager.find
       (ConfigManager._deep_merge ConfigManager.default_config
          Samples.user_config) "ui"
     = Some (ConfigManager.VInt 0).
Proof.
  assert (Hnd : NoDup (map fst Samples.user_config)).
  { simpl. repeat (constructor; [set_solver |]). constructor. }
  split; [exact Hnd |]. split; [reflexivity |].
  rewrite (proj1 (deep_merge_lookup ConfigManager.default_config
                    Samples.user_config "ui" Hnd)).
  reflexivity.
Defined.

(** ** The switches of the individual sounds *)

Section SoundSwitches.
Import ConfigManager ConfigPath.

Lemma get_after_sibling_set config section d key v config' other default :
  find config section = Some (VDict d) ->
  set_in config [section; key] v = Returns config' ->
  key <> other ->
  get_from (VDict config') [section; other] default
  = get_from (VDict config) [section; other] default.
Proof.
  intros Hs Hset Hne. simpl in Hset. rewrite Hs in Hset.
  inversion Hset; subst. simpl.
  rewrite find_assign_same, Hs, find_assign_other by assumption.
  reflexivity.
Qed.

Lemma plays_after_switch config d switch sound v config' available :
  find config "sounds" = Some (VDict d) ->
  PyStrExt.split_sep "." (append "sounds." switch) = ["sounds"; switch]%string ->
  PyStrExt.split_sep "." (append "sounds." sound) = ["sounds"; sound]%string ->
  switch <> sound -> switch <> "enabled"%string ->
  set config (append "sounds." switch) v = Returns config' ->
  SoundManager.plays config' sound available
  = SoundManager.plays config sound available.
Proof.
  intros Hs Hsw Hso Hne Hen Hset. unfold set in Hset. rewrite Hsw in Hset.
  unfold SoundManager.plays, get. rewrite Hso.
  change (PyStrExt.split_sep "." "sounds.enabled")
    with ["sounds"; "enabled"]%string.
  rewrite !(get_after_sibling_set config "sounds" d switch v config' _ _
              Hs Hset) by assumption.
  reflexivity.
Qed.

End SoundSwitches.

(** X14.  [play_sound] looks up [sounds.start], [sounds.stop] and
    [sounds.wake_word]; the settings are stored under
    [sounds.start_recording], [sounds.stop_recording] and
    [sounds.wake_word_detected].  Whatever value is set for any of these
    three switches, whether a sound is played stays as it was; with the
    default configuration every available sound is played. *)
Theorem sound_switches_have_no_effect
    (config config' : list (string * ConfigManager.value))
    (d : list (string * ConfigManager.value))
    (switch sound : string) (v : ConfigManager.value) (available : bool) :
  ConfigManager.find config "sounds" = Some (ConfigManager.VDict d) ->
  In switch ["start_recording"; "stop_recording"; "wake_word_detected"]%string ->
  In sound ["start"; "stop"; "wake_word"]%string ->
  ConfigManager.set config (append "sounds." switch) v
  = ConfigManager.Returns config' ->
  SoundManager.plays config' sound available
  = SoundManager.plays config sound available
  /\ SoundManager.plays ConfigManager.default_config sound available
     = available.
Proof.
  intros Hs Hsw Hso Hset.
  assert (Hdefault : SoundManager.plays ConfigManager.default_config sound
                       available = available).
  { simpl in Hso.
    destruct Hso as [<- | [<- | [<- | []]]]; destruct available; reflexivity. }
  split; [| exact Hdefault].
  simpl in Hsw, Hso.
  destruct Hsw as [<- | [<- | [<- | []]]];
    destruct Hso as [<- | [<- | [<- | []]]];
    match type of Hset with
    | ConfigManager.set _ (append _ ?sw) _ = _ =>
        match goal with
        | |- SoundManager.plays _ ?so _ = _ =>
            apply (plays_after_switch config d sw so v config' available Hs);
            [reflexivity | reflexivity | discriminate | discriminate
             | exact Hset]
        end
    end.
Qed.

Lemma sound_switches_have_no_effect_witness :
  exists config',
    ConfigManager.set ConfigManager.default_config "sounds.start_recording"
      (ConfigManager.VBool false) = ConfigManager.Returns config'
    /\ SoundManager.plays config' "start" true
       = SoundManager.plays ConfigManager.default_config "start" true.
Proof.
  eexists. split; [reflexivity |].
  eapply (sound_switches_have_no_effect ConfigManager.default_config _ _
            "start_recording" "start" (ConfigManager.VBool false) true).
  - reflexivity.
  - left; reflexivity.
  - left; reflexivity.
  - reflexivity.
Defined.

(** ** Post-processing of the transcribed text *)

Section PostProcessing.
Import PyStr PyStrExt WhisperTranscriber.

Lemma list_ascii_of_append a b :
  list_ascii_of_string (append a b)
  = list_ascii_of_string a ++ list_ascii_of_string b.
Proof. induction a as [| c a IH]; simpl; [reflexivity | now rewrite IH]. Qed.

Lemma split_go_word acc w s :
  Forall (fun c => is_space c = false) w ->
  split_go acc (w ++ s) = split_go (rev w ++ acc) s.
Proof.
  revert acc. induction w as [| c w IH]; intros acc Hw; [reflexivity |].
  inversion Hw as [| ? ? Hc Hw']; subst. simpl. rewrite Hc, IH by assumption.
  now rewrite <- app_assoc.
Qed.

Lemma split_words text : Forall word (split text).
Proof.
  unfold split. apply Forall_map.
  eapply List.Forall_impl; [| apply (split_go_words [] _); constructor].
  intros w [Hne Hw]. split.
  - destruct w; [congruence | discriminate].
  - now rewrite list_ascii_of_string_of_list_ascii.
Qed.

Lemma split_one p : word p -> split p = [p].
Proof.
  intros [Hne Hw]. unfold split.
  rewrite <- (app_nil_r (list_ascii_of_string p)), split_go_word by assumption.
  rewrite app_nil_r. simpl.
  destruct (rev (list_ascii_of_string p)) as [| c r] eqn:E.
  - apply (f_equal (@rev ascii)) in E. rewrite rev_involutive in E.
    destruct p; [congruence | discriminate].
  - rewrite <- E, rev_involutive. simpl.
    now rewrite string_of_list_ascii_of_string.
Qed.

(** Joining words with a space and splitting again gives the words back. *)
Lemma split_join ps : Forall word ps -> split (join " " ps) = ps.
Proof.
  induction ps as [| p ps IH]; intros H; [reflexivity |].
  inversion H as [| ? ? Hp Hps]; subst.
  destruct ps as [| q ps]; [now apply split_one |].
  specialize (IH Hps). destruct Hp as [Hne Hw].
  change (join " " (p :: q :: ps))
    with (append p (append " " (join " " (q :: ps)))).
  unfold split in *. rewrite !list_ascii_of_append.
  rewrite split_go_word by assumption. rewrite app_nil_r.
  change (list_ascii_of_string " " ++ ?l) with (" "%char :: l).
  cbn [split_go].
  change (is_space " ") with true. cbv iota.
  destruct (rev (list_ascii_of_string p)) as [| c r] eqn:E.
  - apply (f_equal (@rev ascii)) in E. rewrite rev_involutive in E.
    destruct p; [congruence | discriminate].
  - rewrite <- E, rev_involutive. cbn [map].
    now rewrite string_of_list_ascii_of_string, IH.
Qed.

Lemma lower_char_space c : lower_char c = " "%char -> c = " "%char.
Proof.
  destruct c as [[] [] [] [] [] [] [] []]; vm_compute; congruence.
Qed.

Lemma lower_you_know w : word w -> lower w <> "you know"%string.
Proof.
  intros [_ Hw] H.
  destruct w as [| c1 [| c2 [| c3 [| c4 w]]]]; try discriminate.
  simpl in H. injection H as _ _ _ H4 _.
  apply lower_char_space in H4. subst c4.
  simpl in Hw. inversion Hw as [| ? ? _ H1]; subst.
  inversion H1 as [| ? ? _ H2]; subst. inversion H2 as [| ? ? _ H3]; subst.
  inversion H3 as [| ? ? Hs _]; subst. discriminate.
Qed.

Lemma endswith_appended text c :
  endswith (append text (String c EmptyString)) (String c EmptyString) = true.
Proof.
  unfold endswith. rewrite list_ascii_of_append, rev_app_distr. simpl.
  now rewrite bool_decide_eq_true_2.
Qed.

Lemma punctuate_ends text :
  punctuate text = EmptyString
  \/ endswith (punctuate text) "." = true
  \/ endswith (punctuate text) "!" = true
  \/ endswith (punctuate text) "?" = true.
Proof.
  unfold punctuate.
  destruct (bool_decide (text = EmptyString)) eqn:E; simpl.
  - left. now apply bool_decide_eq_true in E.
  - destruct (endswith text ".") eqn:E1; simpl; [right; left; exact E1 |].
    destruct (endswith text "!") eqn:E2; simpl; [right; right; left; exact E2 |].
    destruct (endswith text "?") eqn:E3; simpl; [right; right; right; exact E3 |].
    right. left. apply endswith_appended.
Qed.

Lemma only_fillers_removed ws :
  Forall (fun w => kept w = false) ws -> List.filter kept ws = [].
Proof.
  induction 1 as [| w ws Hw _ IH]; [reflexivity |]. simpl. now rewrite Hw.
Qed.

End PostProcessing.

(** X15.  The filler-word step of [_post_process_text] keeps exactly the
    words whose lower-case form is not in the list, in their order and
    separated by single spaces; no word of its result is a filler word.
    The entry ['you know'] of the list is never matched, since no word
    returned by [split] holds a space. *)
Theorem filler_words_removed_word_by_word (text : string) :
  PyStr.split (WhisperTranscriber.remove_fillers text)
  = List.filter WhisperTranscriber.kept (PyStr.split text)
  /\ Forall (fun w => PyStr.lower w ∉ WhisperTranscriber.filler_words)
       (PyStr.split (WhisperTranscriber.remove_fillers text))
  /\ Forall (fun w => PyStr.lower w <> "you know"%string) (PyStr.split text).
Proof.
  assert (H1 : PyStr.split (WhisperTranscriber.remove_fillers text)
               = List.filter WhisperTranscriber.kept (PyStr.split text)).
  { unfold WhisperTranscriber.remove_fillers. apply split_join.
    apply List.Forall_forall. intros w Hw. apply List.filter_In in Hw as [Hw _].
    exact (proj1 (List.Forall_forall _ _) (split_words text) w Hw). }
  split; [exact H1 |]. split.
  - rewrite H1. apply List.Forall_forall. intros w Hw.
    apply List.filter_In in Hw as [_ Hk]. unfold WhisperTranscriber.kept in Hk.
    apply negb_true_iff, bool_decide_eq_false in Hk. exact Hk.
  - eapply List.Forall_impl; [| apply split_words].
    intros w Hw. now apply lower_you_know.
Qed.

(** X16.  With [behavior.auto_punctuation] on, the text [_post_process_text]
    returns is empty or ends with a full stop, an exclamation mark or a
    question mark, whatever the other two settings are. *)
Theorem post_processed_text_is_punctuated
    (capitalize : string -> string) (b : WhisperTranscriber.behavior)
    (text : string) :
  WhisperTranscriber.auto_punctuation b = true ->
  let r := WhisperTranscriber._post_process_text capitalize b text in
  r = EmptyString
  \/ PyStrExt.endswith r "." = true
  \/ PyStrExt.endswith r "!" = true
  \/ PyStrExt.endswith r "?" = true.
Proof.
  intros Hp. cbv zeta. unfold WhisperTranscriber._post_process_text.
  destruct (bool_decide (text = EmptyString)) eqn:E.
  - left. now apply bool_decide_eq_true in E.
  - rewrite Hp. apply punctuate_ends.
Qed.

Lemma post_processed_text_is_punctuated_witness :
  WhisperTranscriber._post_process_text Samples.capitalize Samples.behavior
    "um hello world. uh you know it is"
  = "Hello world. You know it is."%string
  /\ PyStrExt.endswith
       (WhisperTranscriber._post_process_text Samples.capitalize
          Samples.behavior "um hello world. uh you know it is") "." = true.
Proof.
  split; [reflexivity |].
  destruct (post_processed_text_is_punctuated Samples.capitalize
              Samples.behavior "um hello world. uh you know it is"
              eq_refl) as [H | [H | [H | H]]];
    [discriminate H | exact H | discriminate H | discriminate H].
Defined.

(** X17.  When the transcriber returns a text with something other than
    whitespace in it, [_transcribe_and_paste] adds it to the log, then pastes
    it, then reports success, and ends with the delayed status reset; these
    are all its effects.  It pastes nothing else: whatever it pastes is that
    text, logged immediately before the paste, pasted once.  When the speech
    model hears nothing but filler words and [behavior.remove_filler_words]
    is on, the transcription is empty: nothing is logged or pasted and the
    status reads "No speech detected". *)
Theorem fillers_only_is_no_speech
    (capitalize : string -> string) (b : WhisperTranscriber.behavior)
    (model : list Q -> option string) (audio_data audio : list Q)
    (raw : string) (a : App.t) :
  let effects :=
    Transcription._transcribe_and_paste capitalize b model audio_data a in
  (forall t,
     WhisperTranscriber.transcribe capitalize b model audio_data = Some t ->
     PyStr.strip t <> EmptyString ->
     effects
     = [Transcription.AddTranscriptionToLog t; Transcription.PasteText t;
        Transcription.Shown (UpdateStatus "Text pasted successfully" "green")]
       ++ map Transcription.Shown (App.in_background a [PopupStatus "Pasted!"])
       ++ [Transcription.Shown ResetStatusDelayed])
  /\ (forall t, In (Transcription.PasteText t) effects ->
      PyStr.strip t <> EmptyString
      /\ WhisperTranscriber.transcribe capitalize b model audio_data = Some t
      /\ In (Transcription.AddTranscriptionToLog t) effects
      /\ exists rest,
           effects
           = Transcription.AddTranscriptionToLog t
             :: Transcription.PasteText t :: rest
           /\ List.filter Transcription.is_paste rest = [])
  /\ (length (List.filter Transcription.is_paste effects) <= 1)%nat
  /\ (WhisperTranscriber.remove_filler_words b = true ->
      WhisperTranscriber.prepared audio_data = Some audio ->
      model audio = Some raw ->
      Forall (fun w => WhisperTranscriber.kept w = false)
        (PyStr.split (PyStr.strip raw)) ->
      WhisperTranscriber.transcribe capitalize b model audio_data
      = Some EmptyString
      /\ effects
         = [Transcription.Shown (UpdateStatus "No speech detected" "orange")]
           ++ map Transcription.Shown
                (App.in_background a [PopupStatus "No speech"])
           ++ [Transcription.Shown ResetStatusDelayed]).
Proof.
  cbv zeta. unfold Transcription._transcribe_and_paste, App.in_background.
  split; [| split; [| split]].
  - intros t Ht Hs. rewrite Ht.
    destruct (bool_decide (t = EmptyString)) eqn:E1;
      [apply bool_decide_eq_true in E1; subst t; now destruct Hs |].
    rewrite (bool_decide_eq_false_2 _ Hs). simpl.
    destruct (App.background_mode a); reflexivity.
  - intros t.
    destruct (WhisperTranscriber.transcribe capitalize b model audio_data)
      as [t' |];
      [| destruct (App.background_mode a); simpl; intuition discriminate].
    destruct (bool_decide (t' = EmptyString)) eqn:E1;
      [destruct (App.background_mode a); simpl; intuition discriminate |].
    destruct (bool_decide (PyStr.strip t' = EmptyString)) eqn:E2;
      [destruct (App.background_mode a); simpl; intuition discriminate |].
    apply bool_decide_eq_false in E2.
    destruct (App.background_mode a); simpl;
      (intros [H | [H | H]]; [discriminate H | | intuition discriminate]);
      injection H as <-;
      (split; [exact E2 |]); (split; [reflexivity |]);
      (split; [now left |]); eexists; split; reflexivity.
  - destruct (WhisperTranscriber.transcribe capitalize b model audio_data)
      as [t' |]; [| destruct (App.background_mode a); simpl; lia].
    destruct (negb (bool_decide (t' = EmptyString))
              && negb (bool_decide (PyStr.strip t' = EmptyString)));
      destruct (App.background_mode a); simpl; lia.
  - intros Hb Hprep Hmodel Hfill.
    assert (Ht : WhisperTranscriber.transcribe capitalize b model audio_data
                 = Some EmptyString).
    { unfold WhisperTranscriber.transcribe. rewrite Hprep, Hmodel. f_equal.
      unfold WhisperTranscriber._post_process_text.
      destruct (bool_decide (PyStr.strip raw = EmptyString)) eqn:E;
        [now apply bool_decide_eq_true in E |].
      rewrite Hb. unfold WhisperTranscriber.remove_fillers.
      rewrite (only_fillers_removed _ Hfill). simpl.
      destruct (WhisperTranscriber.capitalize_sentences b),
        (WhisperTranscriber.auto_punctuation b); reflexivity. }
    split; [exact Ht |]. rewrite Ht.
    destruct (App.background_mode a); reflexivity.
Qed.

Lemma fillers_only_is_no_speech_witness :
  WhisperTranscriber.transcribe Samples.capitalize Samples.behavior
    (Samples.always " Um like uh ") Scenario.loud = Some EmptyString
  /\ Transcription._transcribe_and_paste Samples.capitalize Samples.behavior
       (Samples.always " Um like uh ") Scenario.loud (App.init 2)
     = [Transcription.Shown (UpdateStatus "No speech detected" "orange");
        Transcription.Shown ResetStatusDelayed].
Proof.
  apply (fillers_only_is_no_speech Samples.capitalize Samples.behavior
           (Samples.always " Um like uh ") Scenario.loud
           (map (fun x => x / (1 # 2))%Q Scenario.loud)
           " Um like uh " (App.init 2)).
  - reflexivity.
  - reflexivity.
  - reflexivity.
  - repeat constructor.
Defined.

(** ** The audio handed to the speech model *)

Section Normalisation.

Lemma max_fold_spec rest m0 :
  let r := fold_left (fun m y => if Qltb m (Qabs y) then Qabs y else m)
             rest m0 in
  (m0 <= r)%Q /\ Forall (fun x => (Qabs x <= r)%Q) rest
  /\ (r = m0 \/ Exists (fun x => Qabs x = r) rest).
Proof.
  revert m0. induction rest as [| y rest IH]; intros m0; simpl.
  - split; [lra |]. split; [constructor | now left].
  - destruct (Qltb m0 (Qabs y)) eqn:E.
    + apply Qltb_lt in E. destruct (IH (Qabs y)) as (H1 & H2 & H3).
      split; [lra |]. split; [constructor; assumption |].
      right. destruct H3 as [-> | H3]; [now left | now right].
    + apply Qltb_ge in E. destruct (IH m0) as (H1 & H2 & H3).
      split; [exact H1 |]. split; [constructor; [lra | assumption] |].
      destruct H3 as [H3 | H3]; [now left | right; now right].
Qed.

Lemma max_abs_spec audio m :
  HeySoffy.max_abs audio = Some m ->
  Forall (fun x => (Qabs x <= m)%Q) audio
  /\ Exists (fun x => Qabs x = m) audio.
Proof.
  destruct audio as [| x rest]; [discriminate |]. simpl.
  intros H. injection H as <-.
  destruct (max_fold_spec rest (Qabs x)) as (H1 & H2 & H3). cbv zeta in *.
  split; [constructor; assumption |].
  destruct H3 as [H3 | H3]; [left; now rewrite H3 | now right].
Qed.

(** Dividing by the peak gives audio of peak amplitude one. *)
Lemma scaled_to_peak audio m :
  HeySoffy.max_abs audio = Some m ->
  peak_normalized
    (if Qltb 0 m then map (fun x => (x / m)%Q) audio else audio).
Proof.
  intros H. destruct (max_abs_spec _ _ H) as [Hall Hex].
  destruct (Qltb 0 m) eqn:E.
  - apply Qltb_lt in E. split.
    + apply Forall_map. eapply List.Forall_impl; [| exact Hall].
      intros x Hx. cbv beta in *. apply Qabs_Qle_condition in Hx as [Hlo Hhi].
      apply Qabs_Qle_condition. split.
      * apply Qle_shift_div_l; [exact E | lra].
      * apply Qle_shift_div_r; [exact E | lra].
    + right. apply List.Exists_exists in Hex as (x & Hin & Hx).
      apply List.Exists_exists. exists (x / m)%Q. split.
      * apply in_map_iff. exists x. split; [reflexivity | exact Hin].
      * unfold Qdiv. rewrite Qabs_Qmult, Hx.
        rewrite (Qabs_pos (/ m)) by (apply Qinv_le_0_compat; lra).
        apply Qmult_inv_r. lra.
  - apply Qltb_ge in E. split.
    + eapply List.Forall_impl; [| exact Hall]. intros x Hx. cbv beta in *. lra.
    + left. eapply List.Forall_impl; [| exact Hall]. intros x Hx.
      cbv beta in *. apply Qabs_Qle_condition in Hx. lra.
Qed.

End Normalisation.

(** X18.  Both users of the speech model hand it audio scaled to peak
    amplitude one: whatever [transcribe] passes on, and whatever the
    wake-word check takes from the rolling buffer, has every sample in
    [[-1, 1]], with a sample of absolute value one unless all are zero, and
    has as many samples as the audio it was made from.  Empty audio never
    reaches the model. *)
Theorem speech_model_gets_normalized_audio
    (audio_data : list Q) (h : HeySoffy.t) (audio : list Q) :
  (WhisperTranscriber.prepared audio_data = Some audio ->
   peak_normalized audio /\ audio <> []
   /\ length audio = length audio_data)
  /\ (HeySoffy.trailing_audio h = Some audio ->
      peak_normalized audio /\ audio <> []
      /\ (length audio <= length (HeySoffy.audio_buffer h))%nat).
Proof.
  split.
  - unfold WhisperTranscriber.prepared.
    destruct (HeySoffy.max_abs audio_data) as [m |] eqn:E; [| discriminate].
    intros H. injection H as <-. split; [now apply scaled_to_peak |].
    destruct audio_data as [| x rest]; [discriminate |].
    destruct (Qltb 0 m); simpl; [| auto].
    split; [discriminate | now rewrite length_map].
  - unfold HeySoffy.trailing_audio.
    set (tail := Py.slice_from _ _).
    destruct (HeySoffy.max_abs tail) as [m |] eqn:E; [| discriminate].
    intros H. injection H as <-. split; [now apply scaled_to_peak |].
    assert (Hlen : (length tail <= length (HeySoffy.audio_buffer h))%nat).
    { unfold tail, Py.slice_from.
      destruct (_ <? _)%Z; rewrite length_skipn; lia. }
    destruct tail as [| x rest]; [discriminate |].
    destruct (Qltb 0 m); simpl in *; [| split; [discriminate | lia]].
    split; [discriminate | rewrite length_map; lia].
Qed.

Lemma speech_model_gets_normalized_audio_witness :
  peak_normalized (map (fun x => x / (1 # 2))%Q Scenario.loud)
  /\ peak_normalized (map (fun x => x / (1 # 2))%Q [1 # 2; - (1 # 4)]%Q).
Proof.
  split.
  - apply (speech_model_gets_normalized_audio Scenario.loud
             Samples.blank_listener
             (map (fun x => x / (1 # 2))%Q Scenario.loud)).
    reflexivity.
  - apply (speech_model_gets_normalized_audio Scenario.loud
             Samples.blank_listener
             (map (fun x => x / (1 # 2))%Q [1 # 2; - (1 # 4)]%Q)).
    reflexivity.
Defined.

(** ** A blank wake phrase *)

Section BlankPhrase.
Import PyStr HeySoffy.

Lemma lower_char_keeps_space c :
  is_space c = true -> is_space (lower_char c) = true.
Proof.
  destruct c as [[] [] [] [] [] [] [] []]; vm_compute; congruence.
Qed.

Lemma split_go_blank s :
  Forall (fun c => is_space c = true) s -> split_go [] s = [].
Proof.
  induction 1 as [| c s Hc _ IH]; [reflexivity |]. simpl. now rewrite Hc.
Qed.

Lemma list_ascii_of_lower s :
  list_ascii_of_string (lower s) = map lower_char (list_ascii_of_string s).
Proof. induction s as [| c s IH]; simpl; [reflexivity | now rewrite IH]. Qed.

Lemma split_lower_blank s :
  Forall (fun c => is_space c = true) (list_ascii_of_string s) ->
  split (lower s) = [].
Proof.
  intros H. unfold split. rewrite list_ascii_of_lower, split_go_blank;
    [reflexivity |].
  apply Forall_map. eapply List.Forall_impl; [| exact H].
  intros c Hc. now apply lower_char_keeps_space.
Qed.

Lemma phrase_in_nil text_words : phrase_in [] text_words = true.
Proof.
  unfold phrase_in. simpl length.
  replace (Z.to_nat (Z.of_nat (length text_words) - Z.of_nat 0 + 1))
    with (S (length text_words)) by lia.
  reflexivity.
Qed.

End BlankPhrase.

(** X19.  When the configured wake phrase is empty or holds nothing but
    whitespace, [_check_for_wake_word] answers [True] for whatever the speech
    model returns, the empty text included, as soon as the buffer holds a
    second of audio. *)
Theorem blank_wake_phrase_matches_any_answer
    (cfg : Config) (transcribe : list Q -> option string) (h : HeySoffy.t)
    (audio : list Q) (text : string) :
  Forall (fun c => PyStr.is_space c = true)
    (list_ascii_of_string (voice_assistant_wake_word cfg)) ->
  HeySoffy.wake_word h = HeySoffy.wake_word (HeySoffy.init cfg) ->
  HeySoffy.sample_rate h <= Z.of_nat (length (HeySoffy.audio_buffer h)) ->
  HeySoffy.trailing_audio h = Some audio ->
  transcribe audio = Some text ->
  HeySoffy._check_for_wake_word transcribe h = true.
Proof.
  intros Hblank Hw Hlen Haudio Htext. unfold HeySoffy._check_for_wake_word.
  destruct (_ <? _) eqn:E; [apply Z.ltb_lt in E; lia |].
  rewrite Haudio, Htext, Hw. simpl HeySoffy.wake_word.
  rewrite (split_lower_blank _ Hblank). apply phrase_in_nil.
Qed.

Lemma blank_wake_phrase_matches_any_answer_witness :
  HeySoffy._check_for_wake_word (Samples.always "good morning")
    Samples.blank_listener = true.
Proof.
  apply (blank_wake_phrase_matches_any_answer Samples.blank_cfg
           (Samples.always "good morning") Samples.blank_listener
           (map (fun x => x / (1 # 2))%Q [1 # 2; - (1 # 4)]%Q)
           "good morning").
  - repeat constructor.
  - reflexivity.
  - simpl. lia.
  - reflexivity.
  - reflexivity.
Defined.

(** ** The toggle handler over a run of calls *)

Section ToggleRun.
Import ToggleRecording ToggleRecordingExt.

(** Every fire of a run comes more than [debounce_delay] after the last
    toggle time the run started from, and the fires are that far apart from
    one another. *)
Lemma fires_spaced cfg calls :
  forall h a,
    (0 <= debounce_delay h)%Q ->
    Forall (fun t => (debounce_delay h < t - last_toggle_time h)%Q)
      (fires cfg calls h a)
    /\ StronglySorted (fun t1 t2 => (debounce_delay h < t2 - t1)%Q)
         (fires cfg calls h a).
Proof.
  induction calls as [| [[dev now] keys] rest IH]; intros h a Hd; simpl.
  - split; constructor.
  - destruct (check_activation cfg dev now keys h a)
      as [[[r h'] a'] ev] eqn:E.
    destruct r.
    + assert (Hf : fst (fst (fst (check_activation cfg dev now keys h a)))
                   = true) by now rewrite E.
      pose proof (proj1 (toggle_fires_iff _ _ _ _ _ _) Hf) as (_ & _ & Hlt).
      rewrite (toggle_fire _ _ _ _ _ _ Hf) in E. inversion E; subst.
      destruct (IH (set_last_toggle_time now h)
                  (fst (App.toggle_recording dev a)) Hd) as [H1 H2].
      simpl in H1, H2 |- *. split.
      * constructor; [exact Hlt |].
        eapply List.Forall_impl; [| exact H1]. intros t Ht. cbv beta in *. lra.
      * constructor; assumption.
    + assert (Hf : fst (fst (fst (check_activation cfg dev now keys h a)))
                   = false) by now rewrite E.
      rewrite (toggle_quiet _ _ _ _ _ _ Hf) in E. inversion E; subst.
      simpl. now apply IH.
Qed.

End ToggleRun.

(** X20.  Over any run of [check_activation] calls on the toggle handler,
    whatever keys are held and whatever the recorder does, the clock values
    at which the handler fires are pairwise more than [debounce_delay]
    apart, each later one after the earlier. *)
Theorem toggle_fires_are_spaced
    (cfg : Config) (calls : list (App.Device * Q * gset string))
    (h : ToggleRecording.t) (a : App.t) :
  (0 <= ToggleRecording.debounce_delay h)%Q ->
  StronglySorted
    (fun t1 t2 => (ToggleRecording.debounce_delay h < t2 - t1)%Q)
    (ToggleRecordingExt.fires cfg calls h a).
Proof.
  intros Hd. now apply fires_spaced.
Qed.

Lemma toggle_fires_are_spaced_witness :
  ToggleRecordingExt.fires Scenario.cfg Samples.toggle_calls
    ToggleRecording.init (App.init 2) = [1; 22 # 10]%Q
  /\ StronglySorted (fun t1 t2 => ((1 # 2) < t2 - t1)%Q)
       (ToggleRecordingExt.fires Scenario.cfg Samples.toggle_calls
          ToggleRecording.init (App.init 2)).
Proof.
  split; [vm_compute; reflexivity |].
  apply (toggle_fires_are_spaced Scenario.cfg Samples.toggle_calls
           ToggleRecording.init (App.init 2)).
  simpl. lra.
Defined.

(** ** Shutting down *)

(** X21.  [VoiceTypeProApp.cleanup] leaves the recorder idle whatever the
    audio device does, so that a frame the device still delivers is dropped
    by [_audio_callback].  A session in progress is stopped without being
    transcribed: the only effect is the stop sound, at most once.  The
    controller's own recording flag is left as it was, and
    [self.audio.terminate()] is reached whenever no stream object is left
    behind. *)
Theorem cleanup_stops_without_transcribing `{np : Numpy}
    (cfg : Config) (dev1 dev2 : AudioRecorder.close_outcome)
    (close_ok : bool) (a : App.t) (chunk : AudioRecorder.frame) (now : Q) :
  let '(a', ev, terminated) := Cleanup.cleanup dev1 dev2 close_ok a in
  AudioRecorder.is_recording (App.audio_recorder a') = false
  /\ AudioRecorder._audio_callback cfg chunk now (App.audio_recorder a')
     = (AudioRecorder.paComplete, App.audio_recorder a', [])
  /\ App.is_recording a' = App.is_recording a
  /\ Forall (fun e => e = PlaySound "stop") ev
  /\ (length ev <= 1)%nat
  /\ (AudioRecorder.stream (App.audio_recorder a') = false ->
      terminated = true).
Proof.
  destruct a as [[rec str data ss st cb en] arec tog bg].
  destruct arec, rec, str, data as [| f fs], dev1, dev2, close_ok; cbv;
    (repeat split; try reflexivity; try lia; try discriminate;
     repeat constructor).
Qed.

(** With the voice tests of [Vad.exact]. *)

Section Exact.
#[local] Existing Instance Vad.exact.

Lemma cleanup_stops_without_transcribing_witness :
  let a := fst (App.start_recording Scenario.ok false (App.init 2)) in
  let '(a', ev, terminated) :=
    Cleanup.cleanup AudioRecorder.CloseOk AudioRecorder.CloseOk true a in
  AudioRecorder.is_recording (App.audio_recorder a) = true
  /\ AudioRecorder.is_recording (App.audio_recorder a') = false
  /\ terminated = true.
Proof.
  pose proof (cleanup_stops_without_transcribing Scenario.cfg
                AudioRecorder.CloseOk AudioRecorder.CloseOk true
                (fst (App.start_recording Scenario.ok false (App.init 2)))
                Scenario.loud 1) as H.
  cbv zeta.
  destruct (Cleanup.cleanup AudioRecorder.CloseOk AudioRecorder.CloseOk true
              (fst (App.start_recording Scenario.ok false (App.init 2))))
    as [[a' ev] terminated] eqn:E.
  destruct H as (H1 & _ & _ & _ & _ & H6).
  split; [reflexivity |]. split; [exact H1 |].
  apply H6. vm_compute in E. injection E as <- _ _. reflexivity.
Defined.

End Exact.

(** ** The clipboard around a paste *)

(** X22.  What [paste_text] and its restore timer leave on the clipboard.
    When the copy fails the clipboard is untouched.  When the copy works and
    the paste keys fail, or the restore fails, the transcribed text stays on
    the clipboard.  Otherwise the earlier content is put back, or the empty
    string when the clipboard could not be read. *)
Theorem clipboard_after_paste
    (h : TextInjector.host) (text clipboard : string) :
  let final := fst (TextInjector.paste_and_restore h text clipboard) in
  (TextInjector.copy_ok h = false -> final = clipboard)
  /\ (TextInjector.copy_ok h = true ->
      TextInjector.keys_ok h = false \/ TextInjector.restore_ok h = false ->
      final = text)
  /\ (TextInjector.copy_ok h = true -> TextInjector.keys_ok h = true ->
      TextInjector.restore_ok h = true ->
      final = if TextInjector.read_ok h then clipboard else EmptyString).
Proof.
  destruct h as [[] [] [] [] []]; cbv; intuition congruence.
Qed.

Lemma clipboard_after_paste_witness :
  fst (TextInjector.paste_and_restore Samples.working_host "Hello." "note")
  = "note"%string
  /\ fst (TextInjector.paste_and_restore Samples.keys_fail_host "Hello."
            "note")
     = "Hello."%string.
Proof.
  split.
  - apply (clipboard_after_paste Samples.working_host "Hello." "note");
      reflexivity.
  - apply (clipboard_after_paste Samples.keys_fail_host "Hello." "note");
      [reflexivity | left; reflexivity].
Defined.

(** ** The voice-assistant session *)

Section Session.
Import VoiceAssistant.

(** The loop ends once a clock value at or past the bound is among those it
    reads, and the controller is still in step with the recorder then. *)
Lemma wait_returns `{np : Numpy} cfg start_time bound polls :
  forall a,
    Lifecycle.in_step a ->
    Exists (fun p => (bound <= fst p - start_time)%Q) polls ->
    exists a2 ev2,
      wait cfg start_time bound polls a = Some (a2, ev2)
      /\ Lifecycle.in_step a2.
Proof.
  induction polls as [| [now others] rest IH]; intros a Hin Hex;
    [inversion Hex |].
  simpl. destruct (App.is_recording a); simpl; [| eauto].
  destruct (Qltb (now - start_time) bound) eqn:E; [| eauto].
  apply Qltb_lt in E.
  inversion Hex as [? ? Hhead | ? ? Htail]; subst; [simpl in Hhead; lra |].
  pose proof (in_step_ops cfg others a Hin) as H1.
  destruct (Lifecycle.apply_ops cfg others a) as [a1 ev1]. simpl in H1.
  destruct (IH a1 H1 Htail) as (a2 & ev2 & -> & H2). eauto.
Qed.

End Session.

(** X23.  A voice-assistant session whose timeout can be read ends with the
    recording stopped: once the clock read by its loop has reached
    [timeout + 5] seconds after the start, [_voice_assistant_session]
    returns, and at its return neither the controller nor the recorder is
    recording, whatever the other threads and the audio device did in
    between.  When the timeout cannot be read, the method ends right after
    its [start_recording]: a session it has started is left recording with
    auto-stop on. *)
Theorem voice_assistant_session_ends_stopped `{np : Numpy}
    (cfg : Config) (dev : App.Device) (timeout start_time : Q)
    (polls : list (Q * list (App.Device * Lifecycle.op)))
    (last : list (App.Device * Lifecycle.op)) (a : App.t) :
  Lifecycle.in_step a ->
  (Exists (fun p => (timeout + 5 <= fst p - start_time)%Q) polls ->
   exists a' ev,
     VoiceAssistant._voice_assistant_session cfg dev (Some timeout)
       start_time polls last a = Some (a', ev)
     /\ App.is_recording a' = false
     /\ AudioRecorder.is_recording (App.audio_recorder a') = false)
  /\ (App.is_recording a = false ->
      App.on_open dev = AudioRecorder.OpenOk ->
      exists a' ev,
        VoiceAssistant._voice_assistant_session cfg dev None
          start_time polls last a = Some (a', ev)
        /\ App.is_recording a' = true
        /\ AudioRecorder.is_recording (App.audio_recorder a') = true
        /\ AudioRecorder.auto_stop_enabled (App.audio_recorder a') = true).
Proof.
  intros Hin. unfold VoiceAssistant._voice_assistant_session. split.
  - intros Hex.
    pose proof (in_step_start dev true a Hin) as H1.
    destruct (App.start_recording dev true a) as [a1 ev1]. simpl in H1.
    destruct (wait_returns cfg start_time (timeout + 5) polls a1 H1 Hex)
      as (a2 & ev2 & -> & H2).
    pose proof (in_step_ops cfg last a2 H2) as H3.
    destruct (Lifecycle.apply_ops cfg last a2) as [a3 ev3]. simpl in H3.
    destruct (App.is_recording a3) eqn:E.
    + pose proof (in_step_stop dev a3) as [H4 _].
      destruct (stop_clears_flags dev a3) as (H5 & _).
      destruct (App.stop_recording_and_transcribe dev a3) as [a4 ev4].
      simpl in H4, H5. eexists _, _. split; [reflexivity |].
      split; [exact H5 | now rewrite <- H4].
    + eexists _, _. split; [reflexivity |].
      split; [exact E | destruct H3 as [H3 _]; now rewrite <- H3].
  - intros Hidle Hopen. destruct Hin as [Hflag _].
    rewrite Hidle in Hflag. unfold App.start_recording,
      AudioRecorder.start_recording.
    rewrite <- Hflag, Hopen. simpl. eexists _, _.
    split; [reflexivity |]. simpl. auto.
Qed.

(** With the voice tests of [Vad.exact]. *)

Section Exact.
#[local] Existing Instance Vad.exact.

Lemma voice_assistant_session_ends_stopped_witness :
  VoiceAssistant.auto_stop_timeout ConfigManager.default_config = Some 3%Q
  /\ VoiceAssistant.auto_stop_timeout Samples.flat_config = None
  /\ (exists a' ev,
        VoiceAssistant._voice_assistant_session Scenario.cfg Scenario.ok
          (Some 3%Q) 0 Samples.session_polls [] (App.init 2) = Some (a', ev)
        /\ App.is_recording a' = false
        /\ AudioRecorder.is_recording (App.audio_recorder a') = false)
  /\ (exists a' ev,
        VoiceAssistant._voice_assistant_session Scenario.cfg Scenario.ok
          None 0 Samples.session_polls [] (App.init 2) = Some (a', ev)
        /\ App.is_recording a' = true
        /\ AudioRecorder.is_recording (App.audio_recorder a') = true
        /\ AudioRecorder.auto_stop_enabled (App.audio_recorder a') = true).
Proof.
  assert (Hin : Lifecycle.in_step (App.init 2))
    by (split; [reflexivity | discriminate]).
  split; [reflexivity |]. split; [reflexivity |].
  destruct (voice_assistant_session_ends_stopped Scenario.cfg Scenario.ok
              3 0 Samples.session_polls [] (App.init 2) Hin) as [H1 H2].
  split.
  - apply H1. right. left. simpl. lra.
  - apply H2; reflexivity.
Defined.

End Exact.
